(* ===== verification/_CoqProject ===== *)
-Q . S2P
Prelude.v
JsString.v
Base64.v
Json.v
JsonParse.v
Platform.v
Blob.v
Storage.v
Router.v
FileReader.v
World.v
Samples.v
View.v
Home.v
System.v
Scenarios.v
Handoff.v
Typing.v
Invariants.v
Progress.v
Interleaving.v
Schedules.v
Capacity.v
Contract.v
Refinement.v
