(* ===== verification/Prelude.v ===== *)
(** * Verification of the Home page of the AI Image Editor client

    ** The program

    [src/client/src/pages/home.tsx] is the page a user lands on.  It
    renders a header, an upload prompt and four feature cards (lines
    28-90), and has one behaviour (lines 9-22): when the upload area
    hands it a file, [handleFileSelect] creates a [FileReader], installs
    a [load] handler and starts [readAsDataURL]; when the read ends, the
    handler builds the record [{fileName, fileType, fileData}], where
    [fileData] is [result.split(',')[1]] (the data URL without its
    header), writes it as JSON in [sessionStorage] under ['uploadedFile']
    and navigates to ['/editor'], where the next page reads the record.

    The page is glue between five things it does not define:
    [String.prototype.split], [JSON.stringify], [sessionStorage],
    [FileReader] and the router's [setLocation].  What the page
    guarantees depends on what these do, so each is modelled, from its
    standard, as far as the page uses it, and the page's own lines are
    modelled on top, statement by statement.

    ** The files

    - [Prelude] (this file): JavaScript strings as lists of UTF-16 code
      units and the invariant [code_units] that the numbers are below
      [65536], exceptions and the [result] of a call that may throw, the
      [Codec] interface between the writer and the reader of a text,
      tactics ([by_compute], [check_below], [lia_div]), the hint
      database [js] and the list lemmas the components share.
    - [JsString], module [JsString]: [split] on a one-unit separator,
      [join], array indexing (line 16).  [split] and [join] are inverse;
      [split_es] is the loop over indices by which the standard defines
      [split], and computes the same pieces.
    - [Base64], module [Base64]: RFC 4648 [encode] with padding, as
      [readAsDataURL] produces it, and [decode]; the instance
      [base64_codec] of [Codec].
    - [Json], module [Json]: [stringify], ECMAScript's
      SerializeJSONObject and QuoteJSONString for objects whose members
      are strings or [undefined] (line 18).
    - [JsonParse], module [JsonParse]: [parse], a lexer and a parser
      for the same objects; the instance [json_codec].
    - [Platform]: the class [Platform] of what the user agent decides:
      the quota of the session store, the media type of a file
      without a type, and whether a file without bytes is read as the
      bare [data:] ([bare_empty]).  Every component is proved for all
      platforms.
    - [Blob], module [Blob]: [File] and the data URL of a file;
      [packaged] says that the data URL of a file has its header and
      its data, which every file with bytes has, and every file where
      [bare_empty] is false.
    - [Storage], module [Storage]: the session store as a finite map,
      [setItem] with the quota and its [QuotaExceededError], [getItem].
    - [Router], module [Router]: the history of the tab; [navigate]
      pushes an entry.
    - [FileReader], module [Reader]: the reader object, with its
      [onload] and [onerror] handlers, and its ready-state machine:
      [new], [set_onload], [readAsDataURL], [complete], [fail].
    - [World]: the state of the tab ([World]: store, history, readers,
      reported exceptions), the monad [cmd] of statements that change
      it and may throw (what ran before a throw stays done), and module
      [Api], the calls the page makes as commands.
    - [Samples]: the files and worlds of the closed examples.
    - [View], module [View]: rendered trees ([vnode]) and the callbacks
      they hand to their components.
    - [Home], module [Home]: the page.  [handleFileSelect] is lines
      9-22, [onReaderLoad] lines 12-20 ([makeFileData] lines 13-17,
      [stripPrefix] the [split(',')[1]] of line 16, [toJSON] and
      [Api.setItem] line 18, [setLocation] line 19), [Home] the tree of
      lines 28-90 with [renderMainContent] (lines 24-26).  The closure
      assigned to [reader.onload] is the constructor [OnLoad file]: it
      captures the file, as the arrow function of line 12 does.
    - [System], module [System]: the event loop.  A [task] is a pick in
      the upload area ([Select]), the successful end of a read ([Load])
      or its failure ([Fail]); a [Load] fires the [load] event at the
      reader and a [Fail] the [error] event ([fire_load],
      [fire_error]), and the handler the reader has for the event
      runs, if it has one.  [exec] runs one task, [run] a sequence,
      [reachable] is the closure of [exec]; [run_induction] and
      [run_preserves] are the induction principles the theorems on
      runs share.
    - [Scenarios], [Handoff], [Typing], [Invariants], [Progress],
      [Interleaving], [Schedules], [Capacity]: the theorems on the
      whole page, see below.
    - [Contract], module [Contract]: the page as the specification
      sees it, a machine whose state is the selections (pending,
      finished or failed), the slot of the store, the room the other
      keys take, the path and the reports, with one step for each
      task; the record is stored when it [fits], and the machine is
      deterministic ([step_determ]).
    - [Refinement], module [Refinement]: the abstraction [abs] from the
      worlds of the tab to the states of the contract, and the
      simulation.

    ** The theorems

    - Functional behaviour of the handler ([Home]): the record of a
      [packaged] file whose type has no comma holds the Base64 text of
      its bytes ([makeFileData_payload]); with a comma in the type it
      does not
      ([stripPrefix_type_with_comma]); the handler stores and navigates
      or does neither ([onReaderLoad_all_or_nothing]).
    - Uploads from pick to end ([Scenarios]): the record and the path
      after a successful upload, a refused store, a failed read (the
      page assigns no [onerror], so the [error] event runs nothing),
      and two reads that end in the other order than they started.
    - Round trips ([Handoff]): what the next page reads back from the
      store is the file that was picked; the JSON of any record parses
      back to it; the data of the record decodes to the bytes.  Where
      a file without bytes is read as [data:], the page stores a record
      without data and navigates, and the next page reads no file
      ([empty_file_hands_off_no_data]); for a file whose type has one
      comma, the record holds the end of the header for data, which
      does not decode ([comma_type_hands_off_no_file]).
    - Invariants ([Invariants]): the record [inv] holds in every
      reachable world ([inv_reachable], by induction on [reachable]);
      its fields give that only ['uploadedFile'] is written, that its
      value comes from a finished read, that navigation follows a
      store, that only [QuotaExceededError] escapes, that each finished
      read has one outcome, and that every reader is in one of the
      three states of a reader of the page.
    - Types ([Json], [Typing]): the JSON text is well-formed UTF-16
      whatever the strings are ([stringify_well_formed]).  [Typing] is
      a check of the model and not a property of the page: strings are
      lists of unbounded numbers, and [run_typed] shows that the worlds
      whose strings are made of 16-bit code units are closed under the
      tasks, so the theorems, which are proved of all worlds, hold of
      the worlds of a browser.
    - Progress and termination ([Progress]): the reads in flight can
      always all end ([pending_reads_drain]); the number of readers in
      [LOADING] is a variant of the ends of reads, in any world: a run
      of ends takes away as many as it is long ([ends_bounded]).
    - Interleaving ([Interleaving]): [alike] is the equivalence of
      worlds that differ in the slot and in the order of reports only;
      [exec] and [run] respect it ([Proper] instances); two schedules
      of the same ends of reads leave worlds that are alike
      ([end_order_irrelevant]), and a pick commutes with the end of a
      read ([pick_commutes_with_end]).  [extends] is the preorder of
      worlds that have what another has and more; every task goes up
      in it ([page_only_adds]).
    - Schedules ([Schedules]): [effects_of] lists what the handlers of
      a schedule of ends do, each in the world the schedule starts
      from; a schedule that runs leaves the last record stored in the
      slot, an entry of the history for each record stored and the
      reports in order ([schedule_outcome]); the next page reads back
      the file whose read ends last, whatever ended before it
      ([schedule_delivers]); a schedule of enabled ends of different
      reads runs to its end ([schedule_runs]); and once the page has
      navigated, in any world it can bring about, the next page reads
      back a file whose read has ended well
      ([navigated_page_delivers]).
    - Capacity ([Capacity]): [record_size] is the room the record of a
      file takes, by the lengths of its name, type and bytes
      ([record_cost_bounds]); an upload is stored exactly when the
      other keys and the record fit in the quota ([upload_threshold]);
      a run in which nothing was refused runs the same on any platform
      with more room ([more_room_same_run], for two instances of
      [Platform]).
    - Refinement ([Refinement]): every run of the page is, through
      [abs], a run of the contract ([page_refines_contract]); the page
      can run every task the contract allows
      ([contract_steps_enabled]) and every run of it, to the state the
      contract ends in ([contract_runs_enabled]): the contract and the
      page have the same runs; two worlds the contract cannot tell
      apart ([same_state]) run alike ([page_is_oblivious]); and, proved
      on the contract and carried over, a read that has ended is never
      touched again ([outcome_is_final]).  The slot of the contract
      holds the text the page writes, [Home.toJSON (Home.stored f)]:
      the refinement is about the order of what happens.  That the
      text is the record of the file, and is read back as the file, is
      what [Home], [Handoff] and [Schedules] show.
    - Equivalence ([JsString]): the loop of the standard is [split]
      ([split_es_eq]).

    ** Bounds and fuel

    [split], [encode], [decode], [quote_body], [well_formed], [lex] and
    [run] recurse on their list argument, and [exec] runs a handler to
    its end.  One
    definition takes fuel: [split_loop], the loop of the standard, whose
    every round passes a separator; [split_es] gives it one round more
    than the length of the string, and [split_es_eq] shows that this is
    enough for every input.  Code units are natural numbers; the only
    place where 16 bits matter is the [\uXXXX] escape, which is produced
    for units below [0x20] and for surrogates only, all below [65536];
    [Typing] shows that the page never makes a number that is not a
    code unit, as a check of the model.  The quota counts the code
    units of keys and values (an assumption: the standard leaves the
    measure to the user agent); it
    is a parameter, and [Capacity] gives the number of code units a
    record takes, so that the theorems on the quota are statements of
    arithmetic on the lengths of the name, the type and the bytes.
    Lengths and sizes are unbounded naturals: the limit of a user agent
    on the length of a string is not modelled.

    ** What is not modelled

    Every statement of [home.tsx] is modelled; the lines that are not
    are the four imports, which bind names and do nothing.  What is
    left out is outside the file:
    - the upload area, the bottom navigation and the icons are
      components the page imports and that are not in the repository
      under [src/]: they are leaves of the tree, and of the upload area
      only what the page relies on is used, that it calls
      [onFileSelect] with a file (the task [Select]);
    - React's rendering, the DOM and the style sheet: the page keeps
      no state of its own and what it renders does not depend on the
      path, so rendering it is building the tree;
    - the next page: only its read of the record is modelled
      ([Handoff]), from the specification, since its code is not under
      [src/];
    - unmounting: the routes are not under [src/], so the model does
      not take the page away when it has navigated, and a pick is
      enabled in every world.  A pick after a navigation stands for a
      user who has come back to the page, with a history that keeps
      the entries in between.  The runs of the model include the runs
      of a page that is unmounted, so the invariants and the safety
      theorems hold of those; the theorems on schedules of ends have
      no pick in them;
    - the parts of the platform the page does not call: [abort],
      the progress and [loadend] events and the other read methods of
      [FileReader], and the assignment of [onerror], which a reader of
      the page never has; [removeItem], [clear], storage events and
      [SecurityError] of the store; [replace] and route matching of the
      router; JSON values other than strings;
    - what user agents do differently from the standards, beyond the
      three parameters of [Platform].
    The calls into the platform are mapped to the lines of [home.tsx]
    that make them; their definitions follow the standards (ECMA-262,
    the File API, Web Storage, RFC 4648). *)

From stdpp Require Export base tactics option list numbers strings.

(** ** JavaScript strings

    A JavaScript string is a finite sequence of UTF-16 code units.  It is
    modelled as a list of numbers; every operation of the development is
    total on such lists, and the only place where the 16-bit bound matters
    (the [\uXXXX] escapes of JSON) handles code units that are below it by
    construction. *)

Abbreviation code_unit := N (only parsing).
Abbreviation jsstring := (list N) (only parsing).

(** [js "abc"] is the JavaScript string literal ['abc'] (ASCII literals). *)
Definition js (s : string) : jsstring :=
  (fun a => Ascii.N_of_ascii a) <$> String.list_ascii_of_string s.

(** [jsq] is [js] with every apostrophe read as a double quote, to write
    JSON texts in examples: [jsq "{'a':'b'}"]. *)
Definition jsq (s : string) : jsstring :=
  (fun c => if decide (c = 39%N) then 34%N else c) <$> js s.

(** ** Code units are 16 bits wide

    The numbers of a string stand for code units, which are below
    [65536].  The operations of the development are defined on all
    numbers; [code_units] is the invariant they keep. *)

Definition is_code_unit (c : N) : Prop := (c < 65536)%N.

Definition code_units (s : jsstring) : Prop := Forall is_code_unit s.

#[export] Instance is_code_unit_dec c : Decision (is_code_unit c).
Proof. unfold is_code_unit. apply _. Defined.

#[export] Instance code_units_dec s : Decision (code_units s).
Proof. unfold code_units. apply _. Defined.

Lemma js_code_units (s : string) : code_units (js s).
Proof.
  unfold js, code_units. apply Forall_fmap, Forall_forall. intros a _.
  pose proof (Ascii.N_ascii_bounded a). unfold is_code_unit, compose. lia.
Qed.

Lemma code_units_app (s t : jsstring) : code_units s -> code_units t -> code_units (s ++ t).
Proof. intros. by apply Forall_app. Qed.

Lemma code_units_cons (c : N) (s : jsstring) :
  is_code_unit c -> code_units s -> code_units (c :: s).
Proof. by constructor. Qed.

(** ** Exceptions

    Code that may throw returns a [result]: [Ok v] for a normal completion,
    [Throw e] for an abrupt one. *)

Inductive exn : Type :=
| TypeError
| QuotaExceededError
| InvalidStateError.

Inductive result (A : Type) : Type :=
| Ok (a : A)
| Throw (e : exn).
Arguments Ok {A} a.
Arguments Throw {A} e.

#[export] Instance exn_eq_dec : EqDecision exn.
Proof. solve_decision. Defined.

#[export] Instance result_eq_dec `{EqDecision A} : EqDecision (result A).
Proof. solve_decision. Defined.

#[export] Instance result_ret : MRet result := fun A a => Ok a.

#[export] Instance result_bind : MBind result := fun A B f m =>
  match m with
  | Ok a => f a
  | Throw e => Throw e
  end.

(** ** Codecs

    What a writer of text promises its reader: the reader gets back what
    was written.  The hand-off of the page is proved against this
    interface; Base64 on bytes and JSON on objects of strings implement
    it. *)

Class Codec (A : Type) : Type := {
  encode : A -> jsstring;
  decode : jsstring -> option A;
  decode_encode : forall a, decode (encode a) = Some a;
}.

Lemma encode_inj `{Codec A} (a b : A) : encode a = encode b -> a = b.
Proof.
  intros Heq. apply (f_equal decode) in Heq. rewrite !decode_encode in Heq.
  by injection Heq.
Qed.

(** ** Automation

    [js] collects the facts about characters and separators that close the
    side conditions of the component lemmas. *)

Create HintDb js discriminated.

#[export] Hint Resolve js_code_units code_units_app code_units_cons : js.

(** Linear arithmetic with division and remainder by constants. *)
Ltac lia_div := zify; Z.to_euclidean_division_equations; lia.

(** ** Bounded case analysis by computation

    A decidable property of the numbers below a literal bound is proved by
    checking every one of them. *)

Lemma N_lt_Forall (P : N -> Prop) (k : nat) :
  Forall P (N.of_nat <$> seq 0 k) -> forall n, (n < N.of_nat k)%N -> P n.
Proof.
  intros HP n Hn. rewrite Forall_forall in HP. apply HP.
  apply list_elem_of_fmap. exists (N.to_nat n). split; [lia|].
  apply elem_of_seq. lia.
Qed.

(** Decide a closed decidable goal by evaluating its decision procedure. *)
Ltac by_compute :=
  match goal with |- ?G => apply (bool_decide_unpack G) end;
  vm_compute; exact I.

Ltac check_below k := apply (N_lt_Forall _ k); by_compute.

(** ** Induction with one element of lookahead

    For functions that read a list one or two elements at a time. *)

Lemma list_ind2 {A} (P : list A -> Prop) :
  P [] -> (forall x, P [x]) ->
  (forall x y l, P l -> P (y :: l) -> P (x :: y :: l)) ->
  forall l, P l.
Proof.
  intros H0 H1 H2.
  enough (forall l, P l /\ forall x, P (x :: l)) as H by (intros l; apply H).
  induction l as [|y l [IH0 IH1]]; [by auto|].
  split; [apply IH1 | intros x; by apply H2].
Qed.

(** ** Lists updated in place *)

Section list_insert.
Context {A : Type}.
Implicit Types (l : list A) (x y z : A).

(** An element other than the one replaced is still there. *)
Lemma elem_of_insert_keep l i x y z :
  l !! i = Some z -> x ∈ l -> x <> z -> x ∈ <[i := y]> l.
Proof.
  intros Hi [j Hj]%list_elem_of_lookup Hne. apply list_elem_of_lookup.
  exists j. rewrite list_lookup_insert_ne; [done|]. intros ->. congruence.
Qed.

(** Replacing one element changes a count by that element only. *)
Lemma filter_insert_length (P : A -> Prop) `{forall x, Decision (P x)} l i x y :
  l !! i = Some x ->
  length (filter P (<[i := y]> l)) + (if decide (P x) then 1 else 0) =
  length (filter P l) + (if decide (P y) then 1 else 0).
Proof.
  intros Hi. rewrite insert_take_drop by (by eapply lookup_lt_Some).
  rewrite <- (take_drop_middle l i x Hi) at 3.
  rewrite !filter_app, !filter_cons, !length_app.
  repeat case_decide; simpl; lia.
Qed.

Lemma filter_snoc_length (P : A -> Prop) `{forall x, Decision (P x)} l x :
  length (filter P (l ++ [x])) =
  length (filter P l) + (if decide (P x) then 1 else 0).
Proof.
  rewrite filter_app, length_app, filter_cons, filter_nil.
  by case_decide.
Qed.

(** The last element of a list that was just extended. *)
Lemma lookup_snoc_last l x : (l ++ [x]) !! length l = Some x.
Proof. by apply list_lookup_middle. Qed.

Lemma insert_snoc_last l x y : <[length l := y]> (l ++ [x]) = l ++ [y].
Proof. rewrite <- (Nat.add_0_r (length l)). by rewrite insert_app_r. Qed.

End list_insert.

(** ** Lists filtered through a partial function that is total on them *)

Section list_omap.
Context {A B : Type} (g : A -> option B).
Implicit Types (l : list A).

Lemma omap_lookup_total l i :
  Forall (fun x => is_Some (g x)) l -> omap g l !! i = l !! i ≫= g.
Proof.
  revert i. induction l as [|x l IH]; intros i Hall; [done|].
  inversion Hall as [|? ? [y Hy] Hl]; subst. cbn [omap list_omap]. rewrite Hy.
  destruct i as [|i]; simpl; [by rewrite Hy | by apply IH].
Qed.

Lemma omap_insert_total l i x y :
  Forall (fun x => is_Some (g x)) l -> g x = Some y ->
  omap g (<[i := x]> l) = <[i := y]> (omap g l).
Proof.
  revert i. induction l as [|x' l IH]; intros i Hall Hx; [done|].
  inversion Hall as [|? ? [z Hz] Hl]; subst.
  destruct i as [|i]; cbn [omap list_omap insert list_insert]; rewrite ?Hx, ?Hz; simpl; [done|].
  f_equal. by apply IH.
Qed.

Lemma omap_snoc l x y : g x = Some y -> omap g (l ++ [x]) = omap g l ++ [y].
Proof. intros Hx. rewrite omap_app. cbn [omap list_omap]. by rewrite Hx. Qed.

End list_omap.
