(* ===== verification/JsString.v ===== *)
(** * String.prototype.split, Array.prototype.join and array indexing

    [split sep s] models [s.split(sep)] for a separator of one code unit,
    the form [home.tsx] calls ([split(',')]); [join] is its inverse
    ([Array.prototype.join]); [index] models reading an array element,
    which is [undefined] ([None]) out of range.  [split_es] is the loop
    over indices of ECMA-262 for the same call. *)

From S2P Require Import Prelude.

Module JsString.

(** The pieces of [s] between the occurrences of [sep].  The empty string
    splits into one empty piece, as in ECMAScript. *)
Fixpoint split (sep : code_unit) (s : jsstring) : list jsstring :=
  match s with
  | [] => [[]]
  | c :: s' =>
      if decide (c = sep) then [] :: split sep s'
      else match split sep s' with
           | [] => [[c]]
           | p :: ps => (c :: p) :: ps
           end
  end.

(** [pieces.join(sep)]. *)
Fixpoint join (sep : code_unit) (pieces : list jsstring) : jsstring :=
  match pieces with
  | [] => []
  | [p] => p
  | p :: ps => p ++ sep :: join sep ps
  end.

(** [arr[i]]: the element, or [undefined]. *)
Definition index {A} (arr : list A) (i : nat) : option A := arr !! i.

(** ** The algorithm of the standard

    ECMAScript gives [split] as a loop over indices: [i] is where the
    current piece starts, [j] where the next separator is.  [split_es]
    is that loop for a separator of one code unit; it is [split]
    ([split_es_split]). *)

(** StringIndexOf: where [sep] first occurs at or after [from]. *)
Definition string_index_of (sep : code_unit) (s : jsstring) (from : nat) : option nat :=
  (fun p => from + p.1) <$> list_find (fun c => c = sep) (drop from s).

(** The substring from [i] to [j]. *)
Definition substring (i j : nat) (s : jsstring) : jsstring := take (j - i) (drop i s).

(** The loop, with the pieces from [i] on; every round passes a
    separator, so one round more than the length of the string is
    enough. *)
Fixpoint split_loop (fuel : nat) (sep : code_unit) (s : jsstring) (i : nat) :
    option (list jsstring) :=
  match fuel with
  | 0 => None
  | S fuel' =>
      match string_index_of sep s i with
      | Some j => cons (substring i j s) <$> split_loop fuel' sep s (j + 1)
      | None => Some [drop i s]
      end
  end.

Definition split_es (sep : code_unit) (s : jsstring) : option (list jsstring) :=
  split_loop (S (length s)) sep s 0.

Section split_lemmas.
Context (sep : code_unit).
Implicit Types (s a b p : jsstring) (ps : list jsstring).

Lemma split_nonempty s : split sep s <> [].
Proof.
  destruct s as [|c s]; simpl; [discriminate|].
  destruct (decide (c = sep)); [discriminate|].
  destruct (split sep s); discriminate.
Qed.

Lemma split_cons_sep s : split sep (sep :: s) = [] :: split sep s.
Proof. simpl. rewrite decide_True; auto. Qed.

Lemma split_cons_other c s :
  c <> sep ->
  exists p ps, split sep s = p :: ps /\ split sep (c :: s) = (c :: p) :: ps.
Proof.
  intros Hc. simpl. rewrite decide_False; auto.
  destruct (split sep s) as [|p ps] eqn:E; [by apply split_nonempty in E|].
  eauto.
Qed.

(** The first separator ends the first piece. *)
Lemma split_app_sep a b :
  sep ∉ a -> split sep (a ++ sep :: b) = a :: split sep b.
Proof.
  induction a as [|c a IH]; intros Ha.
  - apply split_cons_sep.
  - apply not_elem_of_cons in Ha as [Hc Ha].
    simpl. rewrite decide_False; auto. by rewrite IH.
Qed.

Lemma split_no_sep s : sep ∉ s -> split sep s = [s].
Proof.
  induction s as [|c s IH]; intros Hs; [done|].
  apply not_elem_of_cons in Hs as [Hc Hs].
  simpl. rewrite decide_False; auto. by rewrite IH.
Qed.

Lemma split_pieces_no_sep s : Forall (fun p => sep ∉ p) (split sep s).
Proof.
  induction s as [|c s IH]; simpl.
  - repeat constructor. apply not_elem_of_nil.
  - destruct (decide (c = sep)) as [->|Hc].
    + constructor; [apply not_elem_of_nil | done].
    + destruct (split sep s) as [|p ps]; inversion IH; subst;
        constructor; auto; apply not_elem_of_cons; auto using not_elem_of_nil.
Qed.

Lemma join_cons p q ps : join sep (p :: q :: ps) = p ++ sep :: join sep (q :: ps).
Proof. reflexivity. Qed.

Lemma join_split s : join sep (split sep s) = s.
Proof.
  induction s as [|c s IH]; [done|]. cbn [split].
  destruct (decide (c = sep)) as [->|Hc];
    destruct (split sep s) as [|p [|q qs]] eqn:E;
    try (by apply split_nonempty in E);
    rewrite ?join_cons in *; simpl in *; by rewrite IH.
Qed.

Lemma split_join ps :
  ps <> [] -> Forall (fun p => sep ∉ p) ps -> split sep (join sep ps) = ps.
Proof.
  induction ps as [|p ps IH]; [done|]. intros _ Hall.
  inversion Hall as [|? ? Hp Hps]; subst.
  destruct ps as [|q qs]; [by apply split_no_sep|].
  rewrite join_cons, split_app_sep by done. f_equal. by apply IH.
Qed.

Lemma split_length s :
  length (split sep s) = S (length (filter (fun c => c = sep) s)).
Proof.
  induction s as [|c s IH]; [done|]. simpl.
  destruct (decide (c = sep)) as [->|Hc].
  - rewrite filter_cons_True by done. simpl. by rewrite IH.
  - rewrite filter_cons_False by done.
    destruct (split sep s) as [|p ps] eqn:E; [by apply split_nonempty in E|].
    by rewrite <- IH.
Qed.

(** The piece after the first separator: [s.split(sep)[1]]. *)
Lemma index_split_1 a b :
  sep ∉ a -> index (split sep (a ++ sep :: b)) 1 = head (split sep b).
Proof.
  intros Ha. rewrite split_app_sep by done. unfold index. simpl.
  by destruct (split sep b).
Qed.

Lemma index_split_1_whole a b :
  sep ∉ a -> sep ∉ b -> index (split sep (a ++ sep :: b)) 1 = Some b.
Proof.
  intros Ha Hb. rewrite index_split_1 by done. by rewrite split_no_sep.
Qed.

Lemma index_split_1_none s : sep ∉ s -> index (split sep s) 1 = None.
Proof. intros Hs. by rewrite split_no_sep. Qed.

(** A joined text is at least as long as each of its pieces. *)
Lemma join_length_elem p ps : p ∈ ps -> length p <= length (join sep ps).
Proof.
  induction ps as [|q [|r ps] IH]; [by intros ?%elem_of_nil | |].
  - by intros ->%list_elem_of_singleton.
  - rewrite join_cons, length_app, length_cons.
    intros [->|Hp]%elem_of_cons; [lia | specialize (IH Hp); lia].
Qed.

(** ** Pieces of a string of code units are strings of code units *)

Lemma split_code_units s : code_units s -> Forall code_units (split sep s).
Proof.
  induction 1 as [|c s Hc _ IH]; simpl; [by repeat constructor|].
  destruct (decide (c = sep)); [by repeat constructor|].
  destruct (split sep s) as [|p ps]; inversion IH; subst; repeat constructor; auto.
Qed.

Lemma join_code_units ps :
  is_code_unit sep -> Forall code_units ps -> code_units (join sep ps).
Proof.
  intros Hsep. induction 1 as [|p [|q ps] Hp Hps IH]; [constructor | done |].
  rewrite join_cons. auto with js.
Qed.

Lemma index_code_units ps i p :
  Forall code_units ps -> index ps i = Some p -> code_units p.
Proof. intros Hps Hi. by eapply Forall_lookup_1. Qed.

(** ** The loop of the standard computes [split] *)

(** Where the next separator is, the string is cut in two. *)
Lemma string_index_of_Some s i j :
  string_index_of sep s i = Some j ->
  (i <= j < length s) /\ (sep ∉ substring i j s) /\
  drop i s = substring i j s ++ sep :: drop (j + 1) s.
Proof.
  unfold string_index_of, substring.
  destruct (list_find _ _) as [[k c]|] eqn:Hfind; [|done]. intros [= <-].
  apply list_find_Some in Hfind as (Hk & -> & Hbefore). cbn [fst].
  pose proof (lookup_lt_Some _ _ _ Hk) as Hlt. rewrite length_drop in Hlt.
  replace (i + k - i) with k by lia. split_and!; [lia | lia | |].
  - intros (n & Hn)%list_elem_of_lookup. apply lookup_take_Some in Hn as [Hn Hnk].
    by eapply Hbefore.
  - rewrite <- (take_drop_middle _ _ _ Hk) at 1. rewrite drop_drop.
    by replace (i + S k) with (i + k + 1) by lia.
Qed.

Lemma string_index_of_None s i : string_index_of sep s i = None -> sep ∉ drop i s.
Proof.
  unfold string_index_of. destruct (list_find _ _) eqn:Hfind; [done|]. intros _.
  apply list_find_None in Hfind. intros Hin. by eapply Forall_forall in Hfind.
Qed.

Lemma split_loop_split fuel s i :
  length s - i < fuel -> split_loop fuel sep s i = Some (split sep (drop i s)).
Proof.
  revert i. induction fuel as [|fuel IH]; intros i Hfuel; [lia|]. cbn [split_loop].
  destruct (string_index_of sep s i) as [j|] eqn:Hj.
  - apply string_index_of_Some in Hj as (Hij & Hpiece & Hcut).
    rewrite IH by lia. by rewrite Hcut, split_app_sep.
  - apply string_index_of_None in Hj. by rewrite split_no_sep.
Qed.

(** C7: the loop over indices of the standard and the recursion on the
    string agree: for every string and separator the loop ends within
    its fuel, one round more than the length of the string, and returns
    the pieces [split] returns. *)
Theorem split_es_eq s : split_es sep s = Some (split sep s).
Proof. unfold split_es. by rewrite split_loop_split by lia. Qed.

End split_lemmas.

End JsString.
