(* ===== verification/Base64.v ===== *)
(** * Base64 (RFC 4648, with padding)

    The encoding [FileReader.readAsDataURL] applies to the bytes of a file.
    [encode] follows the RFC: three bytes form a 24-bit group that is read
    as four 6-bit digits; a final group of one or two bytes is completed
    with zero bits and padded with ['=']. *)

From S2P Require Import Prelude.
From Stdlib.Strings Require Import Byte.

Module Base64.

Local Open Scope N_scope.

Definition pad : code_unit := 61.

(** Table 1 of RFC 4648. *)
Definition alphabet : jsstring :=
  js "ABCDEFGHIJKLMNOPQRSTUVWXYZabcdefghijklmnopqrstuvwxyz0123456789+/".

(** The character of a 6-bit digit. *)
Definition digit (n : N) : code_unit := default pad (alphabet !! N.to_nat n).

(** A 24-bit group of three bytes, and its [i]-th 6-bit digit from the left. *)
Definition group (a b c : N) : N := a * 65536 + b * 256 + c.

Definition sextet (n : N) (i : N) : N := (n / 64 ^ (3 - i)) mod 64.

Fixpoint encode (bs : list byte) : jsstring :=
  match bs with
  | [] => []
  | [a] =>
      let n := group (to_N a) 0 0 in
      [digit (sextet n 0); digit (sextet n 1); pad; pad]
  | [a; b] =>
      let n := group (to_N a) (to_N b) 0 in
      [digit (sextet n 0); digit (sextet n 1); digit (sextet n 2); pad]
  | a :: b :: c :: rest =>
      let n := group (to_N a) (to_N b) (to_N c) in
      [digit (sextet n 0); digit (sextet n 1); digit (sextet n 2);
       digit (sextet n 3)] ++ encode rest
  end.

(** The 6-bit digit of a character of the alphabet. *)
Definition value (c : code_unit) : option N :=
  (fun p => N.of_nat p.1) <$> list_find (fun x => x = c) alphabet.

(** The number four digits stand for. *)
Definition regroup (v0 v1 v2 v3 : N) : N := v0 * 262144 + v1 * 4096 + v2 * 64 + v3.

(** Decoding, four characters at a time; the last four may end in one or
    two [pad]s.  Anything else is refused. *)
Fixpoint decode (s : jsstring) : option (list byte) :=
  match s with
  | [] => Some []
  | c0 :: c1 :: c2 :: c3 :: rest =>
      v0 ← value c0; v1 ← value c1;
      if decide (rest = [] /\ c3 = pad) then
        if decide (c2 = pad) then
          a ← of_N (regroup v0 v1 0 0 / 65536); Some [a]
        else
          v2 ← value c2;
          let n := regroup v0 v1 v2 0 in
          a ← of_N (n / 65536); b ← of_N ((n / 256) mod 256); Some [a; b]
      else
        v2 ← value c2; v3 ← value c3;
        let n := regroup v0 v1 v2 v3 in
        a ← of_N (n / 65536); b ← of_N ((n / 256) mod 256); c ← of_N (n mod 256);
        tl ← decode rest; Some (a :: b :: c :: tl)
  | _ => None
  end.

(** The characters a Base64 text is made of. *)
Definition is_base64_char (c : code_unit) : Prop := c ∈ alphabet \/ c = pad.

#[export] Instance is_base64_char_dec c : Decision (is_base64_char c).
Proof. unfold is_base64_char. apply _. Defined.

Lemma sextet_lt n i : sextet n i < 64.
Proof. unfold sextet. apply N.mod_lt. discriminate. Qed.

Lemma digit_in_alphabet n : n < 64 -> digit n ∈ alphabet.
Proof. revert n. check_below 64%nat. Qed.

Lemma digit_sextet_base64 n i : is_base64_char (digit (sextet n i)).
Proof. left. apply digit_in_alphabet, sextet_lt. Qed.

Lemma pad_base64 : is_base64_char pad.
Proof. by right. Qed.

#[global] Hint Resolve digit_sextet_base64 pad_base64 : js.

(** Induction three bytes at a time, the way [encode] recurses. *)
Lemma bytes_ind3 (P : list byte -> Prop) :
  P [] -> (forall a, P [a]) -> (forall a b, P [a; b]) ->
  (forall a b c rest, P rest -> P (a :: b :: c :: rest)) ->
  forall bs, P bs.
Proof.
  intros H0 H1 H2 H3.
  enough (forall bs, P bs /\ (forall a, P (a :: bs)) /\ (forall a b, P (a :: b :: bs)))
    as H by (intros bs; apply H).
  induction bs as [|c bs (IH0 & IH1 & IH2)]; [by auto|].
  repeat split; [apply IH1| intros; apply IH2 | intros; by apply H3].
Qed.

Lemma encode_alphabet bs : Forall is_base64_char (encode bs).
Proof.
  induction bs using bytes_ind3; cbn [encode];
    repeat first [apply Forall_nil_2 | apply Forall_cons_2 | apply Forall_app_2];
    auto with js.
Qed.

(** The text is ASCII, so it is a string of code units. *)
Lemma base64_char_code_unit c : is_base64_char c -> is_code_unit c.
Proof.
  intros [Hc| ->]; [|done]. revert c Hc. apply Forall_forall. by_compute.
Qed.

Lemma encode_code_units bs : code_units (encode bs).
Proof. eapply Forall_impl; [apply encode_alphabet | apply base64_char_code_unit]. Qed.

(** Four characters for every three bytes, the last group rounded up. *)
Lemma encode_length bs :
  length (encode bs) = (4 * ((length bs + 2) `div` 3))%nat.
Proof.
  induction bs as [| | |a b c rest IH] using bytes_ind3; try reflexivity.
  cbn [encode]. rewrite length_app, IH. cbn [length].
  replace (S (S (S (length rest))) + 2)%nat with (1 * 3 + (length rest + 2))%nat by lia.
  rewrite Nat.div_add_l by lia. simpl. lia.
Qed.

Lemma encode_not_elem c bs : ~ is_base64_char c -> c ∉ encode bs.
Proof.
  intros Hc Hin. pose proof (encode_alphabet bs) as Hall.
  rewrite Forall_forall in Hall. eauto.
Qed.

(** ** Decoding inverts encoding *)

Lemma value_digit n : n < 64 -> value (digit n) = Some n.
Proof. revert n. check_below 64%nat. Qed.

Lemma digit_not_pad n : n < 64 -> digit n <> pad.
Proof. revert n. check_below 64%nat. Qed.

Lemma value_digit_sextet n i : value (digit (sextet n i)) = Some (sextet n i).
Proof. apply value_digit, sextet_lt. Qed.

Lemma digit_sextet_not_pad n i : digit (sextet n i) <> pad.
Proof. apply digit_not_pad, sextet_lt. Qed.

Lemma sextet_unfold n :
  sextet n 0 = (n / 262144) mod 64 /\ sextet n 1 = (n / 4096) mod 64 /\
  sextet n 2 = (n / 64) mod 64 /\ sextet n 3 = n mod 64.
Proof. unfold sextet. change (64 ^ (3 - 3)) with 1. by rewrite N.div_1_r. Qed.

(** The four digits of a 24-bit number give the number back. *)
Lemma regroup_sextets n :
  n < 16777216 -> regroup (sextet n 0) (sextet n 1) (sextet n 2) (sextet n 3) = n.
Proof.
  intros Hn. destruct (sextet_unfold n) as (-> & -> & -> & ->). unfold regroup.
  replace (n / 262144) with (n / 64 / 64 / 64) by (by rewrite !N.Div0.div_div).
  replace (n / 4096) with (n / 64 / 64) by (by rewrite !N.Div0.div_div).
  lia_div.
Qed.

Lemma group_bytes a b c :
  let n := group (to_N a) (to_N b) (to_N c) in
  n < 16777216 /\ of_N (n / 65536) = Some a /\
  of_N ((n / 256) mod 256) = Some b /\ of_N (n mod 256) = Some c.
Proof.
  pose proof (to_N_bounded a). pose proof (to_N_bounded b). pose proof (to_N_bounded c).
  intros n. subst n. unfold group.
  replace ((to_N a * 65536 + to_N b * 256 + to_N c) / 65536) with (to_N a) by lia_div.
  replace (((to_N a * 65536 + to_N b * 256 + to_N c) / 256) mod 256) with (to_N b) by lia_div.
  replace ((to_N a * 65536 + to_N b * 256 + to_N c) mod 256) with (to_N c) by lia_div.
  rewrite !of_to_N. split; [lia | done].
Qed.

Lemma regroup_padded n :
  n < 16777216 ->
  (n mod 4096 = 0 -> regroup (sextet n 0) (sextet n 1) 0 0 = n) /\
  (n mod 64 = 0 -> regroup (sextet n 0) (sextet n 1) (sextet n 2) 0 = n).
Proof.
  intros Hn. pose proof (regroup_sextets n Hn) as Hr.
  destruct (sextet_unfold n) as (_ & _ & E2 & E3). unfold regroup in *.
  split; intros Hz.
  - assert (sextet n 2 = 0) by (rewrite E2; lia_div).
    assert (sextet n 3 = 0) by (rewrite E3; lia_div). lia.
  - assert (sextet n 3 = 0) by (rewrite E3; lia_div). lia.
Qed.

(** One full group. *)
Lemma decode_group a b c (rest : jsstring) :
  let n := group (to_N a) (to_N b) (to_N c) in
  decode (digit (sextet n 0) :: digit (sextet n 1) :: digit (sextet n 2) ::
          digit (sextet n 3) :: rest) =
  tl ← decode rest; Some (a :: b :: c :: tl).
Proof.
  intros n. destruct (group_bytes a b c) as (Hn & Ha & Hb & Hc). fold n in Hn, Ha, Hb, Hc.
  cbn [decode]. rewrite !value_digit_sextet. cbn [mbind option_bind].
  rewrite decide_False by (intros [_ ?]; by eapply digit_sextet_not_pad).
  rewrite (regroup_sextets n Hn), Ha, Hb, Hc. reflexivity.
Qed.

(** The last group, of one byte and of two. *)
Lemma decode_last1 a :
  let n := group (to_N a) 0 0 in
  decode [digit (sextet n 0); digit (sextet n 1); pad; pad] = Some [a].
Proof.
  intros n. destruct (group_bytes a x00 x00) as (Hn & Ha & _).
  change (to_N x00) with 0 in Hn, Ha. fold n in Hn, Ha.
  cbn [decode]. rewrite !value_digit_sextet. cbn [mbind option_bind].
  rewrite !decide_True by done.
  rewrite (proj1 (regroup_padded n Hn)) by (subst n; unfold group; lia_div).
  by rewrite Ha.
Qed.

Lemma decode_last2 a b :
  let n := group (to_N a) (to_N b) 0 in
  decode [digit (sextet n 0); digit (sextet n 1); digit (sextet n 2); pad] = Some [a; b].
Proof.
  intros n. destruct (group_bytes a b x00) as (Hn & Ha & Hb & _).
  change (to_N x00) with 0 in Hn, Ha, Hb. fold n in Hn, Ha, Hb.
  cbn [decode]. rewrite !value_digit_sextet. cbn [mbind option_bind].
  rewrite decide_True by done. rewrite decide_False by apply digit_sextet_not_pad.
  cbn [mbind option_bind].
  rewrite (proj2 (regroup_padded n Hn)) by (subst n; unfold group; lia_div).
  by rewrite Ha, Hb.
Qed.

Lemma decode_encode bs : decode (encode bs) = Some bs.
Proof.
  induction bs as [|a|a b|a b c rest IH] using bytes_ind3.
  - reflexivity.
  - apply decode_last1.
  - apply decode_last2.
  - cbn [encode app]. rewrite decode_group, IH. reflexivity.
Qed.

(** ** What decodes is Base64 text *)

Lemma value_alphabet c v : value c = Some v -> is_base64_char c.
Proof.
  unfold value. destruct (list_find _ _) as [[i x]|] eqn:Hf; [|done]. intros _.
  apply list_find_Some in Hf as (Hi & -> & _). left. by eapply list_elem_of_lookup_2.
Qed.

(** Induction four characters at a time, the way [decode] recurses. *)
Lemma chars_ind4 (P : jsstring -> Prop) :
  P [] -> (forall a, P [a]) -> (forall a b, P [a; b]) -> (forall a b c, P [a; b; c]) ->
  (forall a b c d rest, P rest -> P (a :: b :: c :: d :: rest)) ->
  forall s, P s.
Proof.
  intros H0 H1 H2 H3 H4.
  enough (forall s, P s /\ (forall a, P (a :: s)) /\ (forall a b, P (a :: b :: s)) /\
                    (forall a b c, P (a :: b :: c :: s)))
    as H by (intros s; apply H).
  induction s as [|d s (IH0 & IH1 & IH2 & IH3)]; [by auto|].
  repeat split; [apply IH1 | intros; apply IH2 | intros; apply IH3 | intros; by apply H4].
Qed.

(** [decode] refuses a text that holds anything but the alphabet and
    the pad. *)
Lemma decode_alphabet s bs : decode s = Some bs -> Forall is_base64_char s.
Proof.
  revert bs. induction s as [| | | |c0 c1 c2 c3 rest IH] using chars_ind4; intros bs; try done.
  cbn [decode]. intros Hd.
  destruct (value c0) as [v0|] eqn:E0; [|done]. destruct (value c1) as [v1|] eqn:E1; [|done].
  cbn [mbind option_bind] in Hd. apply value_alphabet in E0, E1.
  case_decide as Hlast.
  - destruct Hlast as [-> ->]. case_decide as E2; [subst; auto 10 with js|].
    destruct (value c2) as [v2|] eqn:E2'; [|done]. apply value_alphabet in E2'.
    auto 10 with js.
  - destruct (value c2) as [v2|] eqn:E2; [|done]. destruct (value c3) as [v3|] eqn:E3; [|done].
    apply value_alphabet in E2, E3. cbn [mbind option_bind] in Hd.
    cbv zeta in Hd. do 3 apply bind_Some in Hd as (? & _ & Hd).
    apply bind_Some in Hd as (tl & Hr & _). specialize (IH tl Hr). auto 10.
Qed.

Lemma decode_not_base64 c s : c ∈ s -> ~ is_base64_char c -> decode s = None.
Proof.
  intros Hc Hn. destruct (decode s) as [bs|] eqn:Hd; [|done].
  apply decode_alphabet in Hd. rewrite Forall_forall in Hd. destruct Hn. by apply Hd.
Qed.

End Base64.

#[export] Instance base64_codec : Codec (list byte) := {|
  encode := Base64.encode;
  decode := Base64.decode;
  decode_encode := Base64.decode_encode;
|}.

(** The law of the codec, on the text as the page gets it. *)
Lemma decode_base64 (bs : list byte) : decode (Base64.encode bs) = Some bs.
Proof. exact (decode_encode bs). Qed.
