(* ===== verification/Json.v ===== *)
(** * JSON.stringify on the objects the page stores

    [quote] is ECMAScript's QuoteJSONString on code units; [stringify]
    is SerializeJSONObject (no gap, no replacer) for an object whose
    property values are strings or [undefined]: a property whose value is
    [undefined] is left out. *)

From Stdlib Require Import ZifyBool.
From S2P Require Import Prelude JsString.

Module Json.

Local Open Scope N_scope.

Definition is_lead (c : code_unit) : bool := (0xD800 <=? c) && (c <=? 0xDBFF).
Definition is_trail (c : code_unit) : bool := (0xDC00 <=? c) && (c <=? 0xDFFF).

Definition hex_digits : jsstring := js "0123456789abcdef".

Definition hex_digit (n : N) : code_unit := default 48 (hex_digits !! N.to_nat n).

(** UnicodeEscape: [\u] and four lowercase hexadecimal digits. *)
Definition unicode_escape (c : code_unit) : jsstring :=
  js "\u" ++ [hex_digit ((c / 4096) mod 16); hex_digit ((c / 256) mod 16);
              hex_digit ((c / 16) mod 16); hex_digit (c mod 16)].

(** One code unit that is not the first half of a surrogate pair: the
    two-character escapes of the table, [\uXXXX] for the other control
    characters and for a lone surrogate, the unit itself otherwise. *)
Definition escape_unit (c : code_unit) : jsstring :=
  if c =? 0x08 then js "\b"
  else if c =? 0x09 then js "\t"
  else if c =? 0x0A then js "\n"
  else if c =? 0x0C then js "\f"
  else if c =? 0x0D then js "\r"
  else if c =? 0x22 then [0x5C; 0x22]
  else if c =? 0x5C then [0x5C; 0x5C]
  else if (c <? 0x20) || is_lead c || is_trail c then unicode_escape c
  else [c].

(** The characters between the quotes.  A leading surrogate followed by a
    trailing one is a code point above U+FFFF and is copied. *)
Fixpoint quote_body (s : jsstring) : jsstring :=
  match s with
  | [] => []
  | c :: rest =>
      match rest with
      | d :: rest' =>
          if is_lead c && is_trail d then c :: d :: quote_body rest'
          else escape_unit c ++ quote_body rest
      | [] => escape_unit c
      end
  end.

(** QuoteJSONString. *)
Definition quote (s : jsstring) : jsstring := 0x22 :: quote_body s ++ [0x22].

(** One member of an object, or nothing for an [undefined] value. *)
Definition member (p : jsstring * option jsstring) : option jsstring :=
  v ← p.2; Some (quote p.1 ++ 0x3A :: quote v).

(** SerializeJSONObject. *)
Definition stringify (props : list (jsstring * option jsstring)) : jsstring :=
  0x7B :: JsString.join 0x2C (omap member props) ++ [0x7D].

(** The text of a member. *)
Definition member_text (m : jsstring * jsstring) : jsstring :=
  quote m.1 ++ 0x3A :: quote m.2.

(** What [parse] makes of an object: its members with a value. *)
Definition defined (props : list (jsstring * option jsstring)) : list (jsstring * jsstring) :=
  omap (fun p => v ← p.2; Some (p.1, v)) props.

(** A surrogate, of either half. *)
Definition is_surrogate (c : code_unit) : bool := is_lead c || is_trail c.

(** A string is well formed when its surrogates come in pairs, a leading
    one and then a trailing one: it is the UTF-16 of a sequence of code
    points. *)
Fixpoint well_formed (s : jsstring) : bool :=
  match s with
  | [] => true
  | c :: rest =>
      if is_lead c then
        match rest with
        | d :: rest' => is_trail d && well_formed rest'
        | [] => false
        end
      else negb (is_trail c) && well_formed rest
  end.

(** A code unit that [quote] copies as it is. *)
Definition unescaped (c : code_unit) : bool :=
  negb ((c <? 0x20) || (c =? 0x22) || (c =? 0x5C) || is_surrogate c).

(** The members a text holds are the defined ones. *)
Lemma omap_member props : omap member props = member_text <$> defined props.
Proof.
  unfold defined. induction props as [|[k [v|]] props IH]; cbn; by rewrite ?IH.
Qed.

(** ** The text is well formed

    [quote] escapes every surrogate that is not half of a pair, so
    whatever the strings are, the text is well-formed UTF-16 (the
    well-formed [JSON.stringify] of ECMAScript 2019). *)

(** Code units that are not surrogates do not matter. *)
Lemma well_formed_plain p t :
  Forall (fun c => is_surrogate c = false) p -> well_formed (p ++ t) = well_formed t.
Proof.
  induction 1 as [|c p [Hl Ht]%orb_false_elim _ IH]; [done|].
  cbn [app well_formed]. by rewrite Hl, Ht, IH.
Qed.

Lemma hex_digit_plain n : is_surrogate (hex_digit n) = false.
Proof.
  unfold hex_digit. destruct (hex_digits !! N.to_nat n) as [c|] eqn:Hc; [|done].
  apply list_elem_of_lookup_2 in Hc. revert c Hc. apply Forall_forall. by_compute.
Qed.

Lemma escape_unit_plain c : Forall (fun c => is_surrogate c = false) (escape_unit c).
Proof.
  unfold escape_unit, unicode_escape.
  repeat case_match; repeat constructor; auto using hex_digit_plain.
  unfold is_surrogate. by destruct (c <? 32), (is_lead c), (is_trail c).
Qed.

(** [quote_body] reads two code units ahead. *)
Lemma quote_body_cons2 c d s :
  quote_body (c :: d :: s) =
  if is_lead c && is_trail d then c :: d :: quote_body s
  else escape_unit c ++ quote_body (d :: s).
Proof. reflexivity. Qed.

Lemma quote_body_well_formed s t : well_formed (quote_body s ++ t) = well_formed t.
Proof.
  induction s as [|c|c d s IH0 IH1] using list_ind2;
    [done | apply well_formed_plain, escape_unit_plain |].
  rewrite quote_body_cons2. destruct (is_lead c && is_trail d) eqn:Hpair.
  - apply andb_prop in Hpair as [Hc Hd]. cbn [app well_formed]. by rewrite Hc, Hd, IH0.
  - by rewrite <- app_assoc, well_formed_plain, IH1 by apply escape_unit_plain.
Qed.

Lemma quote_well_formed s t : well_formed (quote s ++ t) = well_formed t.
Proof.
  unfold quote. cbn [app well_formed is_lead is_trail andb negb N.leb N.compare].
  by rewrite <- app_assoc, quote_body_well_formed.
Qed.

Lemma member_text_well_formed m t : well_formed (member_text m ++ t) = well_formed t.
Proof.
  unfold member_text. rewrite <- app_assoc, quote_well_formed.
  apply (quote_well_formed m.2 t).
Qed.

Lemma members_well_formed ms t :
  well_formed (JsString.join 0x2C (member_text <$> ms) ++ t) = well_formed t.
Proof.
  induction ms as [|m [|m' ms] IH]; [done | apply member_text_well_formed |].
  cbn [fmap list_fmap] in *. rewrite JsString.join_cons, <- app_assoc.
  rewrite member_text_well_formed. apply IH.
Qed.

(** C8: the text [JSON.stringify] makes is well-formed UTF-16 whatever
    the names and the values are: a surrogate that is not half of a pair
    is written as a [\u] escape, a pair is copied, and the text has no
    lone surrogate. *)
Theorem stringify_well_formed props : well_formed (stringify props) = true.
Proof.
  unfold stringify. rewrite omap_member.
  change (well_formed (JsString.join 0x2C (member_text <$> defined props) ++ [0x7D]) = true).
  by rewrite members_well_formed.
Qed.

(** ** The text of code units is a string of code units *)

Lemma hex_digit_code_unit n : is_code_unit (hex_digit n).
Proof.
  unfold hex_digit. destruct (hex_digits !! N.to_nat n) as [c|] eqn:Hc; [|done].
  apply list_elem_of_lookup_2 in Hc. revert c Hc. apply Forall_forall. by_compute.
Qed.

Lemma escape_unit_code_units c : is_code_unit c -> code_units (escape_unit c).
Proof.
  intros Hc. unfold escape_unit, unicode_escape.
  repeat case_match; repeat constructor; auto using hex_digit_code_unit.
Qed.

Lemma quote_body_code_units s : code_units s -> code_units (quote_body s).
Proof.
  induction s as [|c|c d s IH0 IH1] using list_ind2; [done | |].
  - intros [Hc _]%Forall_cons. by apply escape_unit_code_units.
  - rewrite quote_body_cons2. intros [Hc Hs]%Forall_cons.
    pose proof Hs as [Hd Hs']%Forall_cons.
    case_match; auto using escape_unit_code_units with js.
Qed.

Lemma quote_code_units s : code_units s -> code_units (quote s).
Proof.
  intros Hs. unfold quote. apply code_units_cons; [done|].
  apply code_units_app; [by apply quote_body_code_units | by repeat constructor].
Qed.

Lemma stringify_code_units props :
  Forall (fun p => code_units p.1 /\ from_option code_units True p.2) props ->
  code_units (stringify props).
Proof.
  intros Hprops. unfold stringify. apply code_units_cons; [done|].
  apply code_units_app; [|by repeat constructor].
  apply JsString.join_code_units; [done|].
  induction Hprops as [|[k [v|]] props [Hk Hv] _ IH];
    cbn [omap list_omap member mbind option_bind fst snd from_option] in *;
    [constructor| |done].
  constructor; [|done].
  apply code_units_app; [|apply code_units_cons; [done|]]; by apply quote_code_units.
Qed.

(** ** The length of the text

    Quoting never shortens a string, so a text is at least as long as
    each of the values it holds. *)

Lemma escape_unit_length c : (1 <= length (escape_unit c))%nat.
Proof. unfold escape_unit. repeat case_match; simpl; lia. Qed.

Lemma quote_body_length s : (length s <= length (quote_body s))%nat.
Proof.
  induction s as [|c|c d s IH0 IH1] using list_ind2; [done | apply escape_unit_length |].
  cbn [quote_body]. case_match.
  - simpl. lia.
  - rewrite length_app. pose proof (escape_unit_length c). simpl in *. lia.
Qed.

(** An escape is six code units at most. *)
Lemma escape_unit_length_le c : (length (escape_unit c) <= 6)%nat.
Proof. unfold escape_unit. repeat case_match; simpl; lia. Qed.

Lemma quote_body_length_le s : (length (quote_body s) <= 6 * length s)%nat.
Proof.
  induction s as [|c|c d s IH0 IH1] using list_ind2;
    [done | pose proof (escape_unit_length_le c); simpl; lia |].
  rewrite quote_body_cons2. case_match.
  - simpl in *. lia.
  - rewrite length_app. pose proof (escape_unit_length_le c). simpl in *. lia.
Qed.

(** A string that needs no escape is copied. *)
Lemma escape_unit_unescaped c : unescaped c = true -> escape_unit c = [c].
Proof.
  unfold unescaped, escape_unit, is_surrogate. intros Hc.
  repeat case_match; try done; exfalso; lia.
Qed.

Lemma unescaped_not_lead c : unescaped c = true -> is_lead c = false.
Proof. unfold unescaped, is_surrogate. destruct (is_lead c); [|done]. by rewrite !orb_true_r. Qed.

Lemma quote_body_unescaped s : Forall (fun c => unescaped c = true) s -> quote_body s = s.
Proof.
  induction s as [|c|c d s IH0 IH1] using list_ind2; [done | |].
  - intros [Hc _]%Forall_cons. by apply escape_unit_unescaped.
  - intros [Hc Hs]%Forall_cons. rewrite quote_body_cons2, (unescaped_not_lead c Hc).
    cbn [andb]. by rewrite (escape_unit_unescaped c Hc), IH1.
Qed.

(** The length of the text of an object of three strings. *)
Lemma stringify_3_length k1 v1 k2 v2 k3 v3 :
  length (stringify [(k1, Some v1); (k2, Some v2); (k3, Some v3)]) =
  (length (quote_body k1) + length (quote_body v1) + length (quote_body k2) +
   length (quote_body v2) + length (quote_body k3) + length (quote_body v3) + 19)%nat.
Proof.
  unfold stringify, member, quote. cbn [omap list_omap mbind option_bind fst snd].
  rewrite !JsString.join_cons. cbn [JsString.join].
  repeat (rewrite length_app || rewrite length_cons). cbn [length]. lia.
Qed.

Lemma stringify_member_length props k v :
  (k, Some v) ∈ props -> (length v <= length (stringify props))%nat.
Proof.
  intros Hin. unfold stringify. rewrite length_cons, length_app.
  assert (quote k ++ 0x3A :: quote v ∈ omap member props) as Hm
    by (apply list_elem_of_omap; by exists (k, Some v)).
  apply (JsString.join_length_elem 0x2C) in Hm. revert Hm.
  unfold quote. repeat (rewrite length_app || rewrite length_cons).
  pose proof (quote_body_length v). lia.
Qed.

End Json.
