(* ===== verification/JsonParse.v ===== *)
(** * JSON.parse on the texts of the objects the page stores

    The reader of the stored text.  [lex] cuts a text into tokens, one
    code unit at a time; [parse_object] reads the tokens of an object
    whose members are strings.  A text outside this fragment of JSON is
    answered with [None].  [parse] inverts [Json.stringify]
    ([parse_stringify]). *)

From Stdlib Require Import ZifyBool.
From S2P Require Import Prelude JsString Json.

Module JsonParse.

Import Json.

Local Open Scope N_scope.

Inductive token : Type :=
| TLBrace | TRBrace | TColon | TComma
| TString (s : jsstring).

#[export] Instance token_eq_dec : EqDecision token.
Proof. solve_decision. Defined.

(** Where the lexer is: between tokens, in a string, after a backslash,
    or in the digits of a [\u] escape. *)
Inductive lex_state : Type :=
| Out
| InString (acc : jsstring)
| Escape (acc : jsstring)
| Unicode (acc : jsstring) (digits : list N).

Definition hex_value (c : code_unit) : option N :=
  if (0x30 <=? c) && (c <=? 0x39) then Some (c - 0x30)
  else if (0x61 <=? c) && (c <=? 0x66) then Some (c - 0x61 + 10)
  else if (0x41 <=? c) && (c <=? 0x46) then Some (c - 0x41 + 10)
  else None.

Definition is_space (c : code_unit) : bool :=
  (c =? 0x20) || (c =? 0x09) || (c =? 0x0A) || (c =? 0x0D).

(** The character an escape letter stands for. *)
Definition unescape (c : code_unit) : option code_unit :=
  if c =? 0x22 then Some 0x22 else if c =? 0x5C then Some 0x5C
  else if c =? 0x2F then Some 0x2F else if c =? 0x62 then Some 0x08
  else if c =? 0x66 then Some 0x0C else if c =? 0x6E then Some 0x0A
  else if c =? 0x72 then Some 0x0D else if c =? 0x74 then Some 0x09
  else None.

(** One code unit: the next state and the token that ends at it. *)
Definition lex_step (st : lex_state) (c : code_unit) : option (lex_state * option token) :=
  match st with
  | Out =>
      if c =? 0x7B then Some (Out, Some TLBrace)
      else if c =? 0x7D then Some (Out, Some TRBrace)
      else if c =? 0x3A then Some (Out, Some TColon)
      else if c =? 0x2C then Some (Out, Some TComma)
      else if c =? 0x22 then Some (InString [], None)
      else if is_space c then Some (Out, None)
      else None
  | InString acc =>
      if c =? 0x22 then Some (Out, Some (TString (rev acc)))
      else if c =? 0x5C then Some (Escape acc, None)
      else if c <? 0x20 then None
      else Some (InString (c :: acc), None)
  | Escape acc =>
      if c =? 0x75 then Some (Unicode acc [], None)
      else match unescape c with
           | Some u => Some (InString (u :: acc), None)
           | None => None
           end
  | Unicode acc ds =>
      match hex_value c with
      | Some v =>
          match ds with
          | [d1; d2; d3] =>
              Some (InString (d1 * 4096 + d2 * 256 + d3 * 16 + v :: acc), None)
          | _ => Some (Unicode acc (ds ++ [v]), None)
          end
      | None => None
      end
  end.

Fixpoint lex (st : lex_state) (s : jsstring) : option (list token) :=
  match s with
  | [] => match st with Out => Some [] | _ => None end
  | c :: s' =>
      match lex_step st c with
      | Some (st', Some t) => cons t <$> lex st' s'
      | Some (st', None) => lex st' s'
      | None => None
      end
  end.

(** The members after the opening brace or after a comma. *)
Fixpoint parse_members (ts : list token) : option (list (jsstring * jsstring)) :=
  match ts with
  | TString k :: TColon :: TString v :: rest =>
      match rest with
      | [TRBrace] => Some [(k, v)]
      | TComma :: rest' => ms ← parse_members rest'; Some ((k, v) :: ms)
      | _ => None
      end
  | _ => None
  end.

Definition parse_object (ts : list token) : option (list (jsstring * jsstring)) :=
  match ts with
  | [TLBrace; TRBrace] => Some []
  | TLBrace :: rest => parse_members rest
  | _ => None
  end.

Definition parse (s : jsstring) : option (list (jsstring * jsstring)) :=
  lex Out s ≫= parse_object.

(** [obj[k]]: the value of the last member named [k]. *)
Definition get (k : jsstring) (obj : list (jsstring * jsstring)) : option jsstring :=
  (fun p => p.2.2) <$> list_find (fun p => p.1 = k) (reverse obj).

(** The tokens of the members of an object. *)
Fixpoint member_tokens (ms : list (jsstring * jsstring)) : list token :=
  match ms with
  | [] => []
  | [(k, v)] => [TString k; TColon; TString v]
  | (k, v) :: ms' => TString k :: TColon :: TString v :: TComma :: member_tokens ms'
  end.

(** ** [parse] inverts [stringify] *)

Lemma hex_value_digit d : d < 16 -> hex_value (hex_digit d) = Some d.
Proof. revert d. check_below 16%nat. Qed.

Lemma needs_escape_lt c : (c <? 0x20) || is_lead c || is_trail c = true -> c < 65536.
Proof. unfold is_lead, is_trail. lia. Qed.

Lemma surrogate_plain c :
  is_lead c || is_trail c = true -> (c =? 0x22) = false /\ (c =? 0x5C) = false /\ (c <? 0x20) = false.
Proof. unfold is_lead, is_trail. lia. Qed.

(** A character that needs no escape is read as itself. *)
Lemma lex_plain acc c s :
  (c =? 0x22) = false -> (c =? 0x5C) = false -> (c <? 0x20) = false ->
  lex (InString acc) (c :: s) = lex (InString (c :: acc)) s.
Proof. intros H1 H2 H3. cbn [lex lex_step]. by rewrite H1, H2, H3. Qed.

Lemma lex_hex acc ds c s v :
  hex_value c = Some v ->
  lex (Unicode acc ds) (c :: s) =
  match ds with
  | [d1; d2; d3] => lex (InString (d1 * 4096 + d2 * 256 + d3 * 16 + v :: acc)) s
  | _ => lex (Unicode acc (ds ++ [v])) s
  end.
Proof. intros Hv. cbn [lex lex_step]. rewrite Hv. by destruct ds as [|? [|? [|? [|? ?]]]]. Qed.

Lemma lex_backslash_u acc s : lex (InString acc) (js "\u" ++ s) = lex (Unicode acc []) s.
Proof. reflexivity. Qed.

Lemma lex_unicode_escape acc c s :
  c < 65536 -> lex (InString acc) (unicode_escape c ++ s) = lex (InString (c :: acc)) s.
Proof.
  intros Hc. unfold unicode_escape.
  rewrite <- app_assoc, lex_backslash_u. cbn [app].
  rewrite !(lex_hex _ _ _ _ _ (hex_value_digit _ (N.mod_lt _ 16 ltac:(done)))). cbn [app].
  do 3 f_equal.
  replace (c / 4096) with (c / 16 / 16 / 16) by (by rewrite !N.Div0.div_div).
  replace (c / 256) with (c / 16 / 16) by (by rewrite !N.Div0.div_div).
  lia_div.
Qed.

(** An escaped character is read as the character. *)
Lemma lex_escape_unit acc c s :
  lex (InString acc) (escape_unit c ++ s) = lex (InString (c :: acc)) s.
Proof.
  unfold escape_unit.
  repeat match goal with
    | |- context [if ?x =? ?k then _ else _] =>
        destruct (N.eqb_spec x k) as [->|?]; [reflexivity|]
    end.
  destruct ((c <? 0x20) || is_lead c || is_trail c) eqn:E.
  - by apply lex_unicode_escape, needs_escape_lt.
  - apply lex_plain; lia.
Qed.

Lemma lex_quote_body s : forall acc rest,
  lex (InString acc) (quote_body s ++ rest) = lex (InString (rev s ++ acc)) rest.
Proof.
  induction s as [|c|c d l IHl IHdl] using list_ind2; intros acc rest.
  - reflexivity.
  - cbn [quote_body]. by rewrite lex_escape_unit.
  - cbn [quote_body]. destruct (is_lead c && is_trail d) eqn:E.
    + apply andb_true_iff in E as [Ec Ed].
      destruct (surrogate_plain c) as (? & ? & ?); [by rewrite Ec|].
      destruct (surrogate_plain d) as (? & ? & ?); [by rewrite Ed, orb_true_r|].
      cbn [app]. rewrite !lex_plain, IHl by done. cbn [rev]. by rewrite <- !app_assoc.
    + rewrite <- app_assoc, lex_escape_unit, IHdl. cbn [rev]. by rewrite <- !app_assoc.
Qed.

(** A quoted string is read as one token. *)
Lemma lex_quote s rest : lex Out (quote s ++ rest) = cons (TString s) <$> lex Out rest.
Proof.
  unfold quote. cbn [app]. change (lex Out (0x22 :: ?l)) with (lex (InString []) l).
  rewrite <- app_assoc, lex_quote_body, app_nil_r. cbn [app lex lex_step].
  change (0x22 =? 0x22) with true. cbn. by rewrite rev_involutive.
Qed.

Lemma lex_member m rest :
  lex Out (member_text m ++ rest) =
  (fun ts => TString m.1 :: TColon :: TString m.2 :: ts) <$> lex Out rest.
Proof.
  unfold member_text. rewrite <- app_assoc, lex_quote. cbn [app].
  change (lex Out (0x3A :: ?l)) with (cons TColon <$> lex Out l).
  rewrite lex_quote. by destruct (lex Out rest).
Qed.

Lemma lex_members ms rest :
  lex Out (JsString.join 0x2C (member_text <$> ms) ++ rest) =
  (fun ts => member_tokens ms ++ ts) <$> lex Out rest.
Proof.
  induction ms as [|[k v] ms IH].
  { cbn [fmap list_fmap JsString.join member_tokens app]. by destruct (lex Out rest). }
  destruct ms as [|m ms].
  - cbn [fmap list_fmap JsString.join member_tokens]. rewrite lex_member.
    by destruct (lex Out rest).
  - cbn [fmap list_fmap] in *. rewrite JsString.join_cons, <- app_assoc, lex_member.
    cbn [app]. change (lex Out (0x2C :: ?l)) with (cons TComma <$> lex Out l).
    rewrite IH. by destruct (lex Out rest).
Qed.

Lemma parse_members_tokens ms :
  ms <> [] -> parse_members (member_tokens ms ++ [TRBrace]) = Some ms.
Proof.
  induction ms as [|[k v] ms IH]; [done|]. intros _.
  destruct ms as [|m ms]; [done|].
  cbn [member_tokens app parse_members] in *. destruct m as [k' v'].
  by rewrite IH.
Qed.


(** The tokens of the text of an object. *)
Lemma lex_stringify props :
  lex Out (stringify props) = Some (TLBrace :: member_tokens (defined props) ++ [TRBrace]).
Proof.
  unfold stringify. rewrite omap_member.
  change (lex Out (0x7B :: ?l)) with (cons TLBrace <$> lex Out l).
  by rewrite lex_members.
Qed.

Lemma parse_stringify props : parse (stringify props) = Some (defined props).
Proof.
  unfold parse. rewrite lex_stringify. cbn [mbind option_bind].
  destruct (defined props) as [|[k v] ms] eqn:E; [done|].
  rewrite <- (parse_members_tokens ((k, v) :: ms)) by done.
  by destruct ms as [|[??]?].
Qed.

(** Every member of an object of strings has a value. *)
Lemma defined_members (ms : list (jsstring * jsstring)) :
  defined ((fun m => (m.1, Some m.2)) <$> ms) = ms.
Proof.
  unfold defined. induction ms as [|[k v] ms IH]; [done|].
  cbn [fmap list_fmap omap list_omap mbind option_bind fst snd]. by rewrite IH.
Qed.

End JsonParse.

(** [JSON.stringify] and [JSON.parse] are a codec of the objects whose
    members are strings. *)
#[export] Instance json_codec : Codec (list (jsstring * jsstring)) := {|
  encode ms := Json.stringify ((fun m => (m.1, Some m.2)) <$> ms);
  decode := JsonParse.parse;
  decode_encode ms :=
    eq_trans (JsonParse.parse_stringify _) (f_equal Some (JsonParse.defined_members ms));
|}.
