(* ===== verification/Platform.v ===== *)
(** * The browser the page runs in

    What the page's behaviour depends on and user agents do not agree
    on: how much the session store accepts, the media type
    [readAsDataURL] writes for a file whose [type] is empty, and what it
    writes for a file that has no bytes.  The theorems of the page are
    proved for every [Platform]; [reference_platform] is the instance
    the concrete examples run on. *)

From S2P Require Import Prelude.

Definition comma : code_unit := 44%N.

Class Platform : Type := {
  (** code units (keys and values together) the session store accepts *)
  quota : N;
  (** media type of a data URL for a blob whose type is the empty string *)
  default_type : jsstring;
  (** whether the data URL of a file without bytes is the bare scheme
      [data:], as some user agents write it, and not the header
      followed by no data, as the File API has it *)
  bare_empty : bool;
  default_type_no_comma : comma ∉ default_type;
  default_type_code_units : code_units default_type;
}.

Lemma octet_stream_no_comma : comma ∉ js "application/octet-stream".
Proof. by_compute. Qed.

(** Five mebi code units of storage, [application/octet-stream] for
    untyped files. *)
Definition reference_platform : Platform := {|
  quota := 5242880;
  default_type := js "application/octet-stream";
  bare_empty := false;
  default_type_no_comma := octet_stream_no_comma;
  default_type_code_units := js_code_units _;
|}.

(** A store too small for any upload, to exercise the failure path. *)
Definition tiny_platform : Platform := {|
  quota := 16;
  default_type := js "application/octet-stream";
  bare_empty := false;
  default_type_no_comma := octet_stream_no_comma;
  default_type_code_units := js_code_units _;
|}.

(** A user agent that gives [q] code units of storage. *)
Definition platform_with_quota (q : N) : Platform := {|
  quota := q;
  default_type := js "application/octet-stream";
  bare_empty := false;
  default_type_no_comma := octet_stream_no_comma;
  default_type_code_units := js_code_units _;
|}.

(** A user agent that reads a file without bytes as [data:]. *)
Definition bare_platform : Platform := {|
  quota := 5242880;
  default_type := js "application/octet-stream";
  bare_empty := true;
  default_type_no_comma := octet_stream_no_comma;
  default_type_code_units := js_code_units _;
|}.
