(* ===== verification/Blob.v ===== *)
(** * Files and their data URLs

    [File] is the object the upload widget hands to the page; [dataURL] is
    the string [FileReader.readAsDataURL] produces for it (File API,
    "package data"): [data:], the media type, [;base64,] and the Base64
    text of the bytes; for a file without bytes, on the platforms that
    do so, [data:] alone. *)

From S2P Require Import Prelude JsString Base64 Platform.
From Stdlib.Strings Require Import Byte.

Record File : Type := mkFile {
  name : jsstring;
  type : jsstring;
  bytes : list byte;
}.

#[export] Instance byte_eq_dec : EqDecision byte.
Proof.
  intros a b. destruct (decide (to_N a = to_N b)) as [E|E]; [left|right].
  - apply (f_equal of_N) in E. rewrite !of_to_N in E. congruence.
  - congruence.
Defined.

#[export] Instance File_eq_dec : EqDecision File.
Proof. solve_decision. Defined.

(** A file whose name and type are strings of code units, as every
    [File] object of the platform is. *)
Definition file_ok (f : File) : Prop := code_units (name f) /\ code_units (type f).

#[export] Instance file_ok_dec f : Decision (file_ok f).
Proof. unfold file_ok. apply _. Defined.

Module Blob.

Local Open Scope N_scope.

(** The type of a blob is normalised when the blob is created: printable
    ASCII, lower case (File API, the [Blob] constructor). *)
Definition type_char_ok (c : code_unit) : Prop :=
  0x20 <= c <= 0x7E /\ ~ (0x41 <= c <= 0x5A).

Definition type_ok (f : File) : Prop := Forall type_char_ok (type f).

#[export] Instance type_ok_dec f : Decision (type_ok f).
Proof. unfold type_ok, type_char_ok. apply _. Defined.

Section with_platform.
Context `{Platform}.

Definition media_type (f : File) : jsstring :=
  if decide (type f = []) then default_type else type f.

(** Everything before the payload, the separating comma left out. *)
Definition url_header (f : File) : jsstring :=
  js "data:" ++ media_type f ++ js ";base64".

Definition dataURL (f : File) : jsstring :=
  if bare_empty && bool_decide (bytes f = []) then js "data:"
  else url_header f ++ comma :: Base64.encode (bytes f).

(** The data URL of [f] has its header and its data: [f] has bytes, or
    the platform packages a file without bytes as any other. *)
Definition packaged (f : File) : Prop := bare_empty = true -> bytes f <> [].

#[export] Instance packaged_dec f : Decision (packaged f).
Proof. unfold packaged. apply _. Defined.

Lemma dataURL_packaged f :
  packaged f -> dataURL f = url_header f ++ comma :: Base64.encode (bytes f).
Proof.
  unfold packaged, dataURL. intros Hp. destruct bare_empty; [|done].
  by rewrite bool_decide_eq_false_2 by auto.
Qed.

Lemma dataURL_bare f : bare_empty = true -> bytes f = [] -> dataURL f = js "data:".
Proof. unfold dataURL. intros -> Hf. by rewrite bool_decide_eq_true_2. Qed.

(** A file that has bytes is packaged on every platform. *)
Lemma packaged_bytes f : bytes f <> [] -> packaged f.
Proof. by intros Hf _. Qed.

Lemma comma_not_base64 : ~ Base64.is_base64_char comma.
Proof. by_compute. Qed.

Lemma payload_no_comma bs : comma ∉ Base64.encode bs.
Proof. apply Base64.encode_not_elem, comma_not_base64. Qed.

Lemma media_type_no_comma f : comma ∉ type f -> comma ∉ media_type f.
Proof.
  intros Hf. unfold media_type. case_decide; [apply default_type_no_comma | done].
Qed.

Lemma url_header_no_comma f : comma ∉ type f -> comma ∉ url_header f.
Proof.
  intros Hf. unfold url_header. rewrite !not_elem_of_app.
  split_and!; [| by apply media_type_no_comma |];
    by_compute.
Qed.

(** ** Files whose name and type are strings have a data URL that is one *)

Lemma dataURL_code_units f : code_units (type f) -> code_units (dataURL f).
Proof.
  intros Hf. unfold dataURL, url_header. case_match; [apply js_code_units|].
  assert (code_units (media_type f)) as Hm
    by (unfold media_type; case_decide; [apply default_type_code_units | done]).
  apply code_units_app; [auto with js|].
  apply code_units_cons; [done | apply Base64.encode_code_units].
Qed.

End with_platform.

#[global] Hint Resolve payload_no_comma media_type_no_comma url_header_no_comma : js.

End Blob.
