(* ===== verification/Storage.v ===== *)
(** * sessionStorage (Web Storage)

    The session store is a finite map from keys to values, both strings.
    [setItem] replaces the value of a key, or throws [QuotaExceededError]
    and changes nothing when the new contents exceed the platform's quota;
    [getItem] returns the value or [null] ([None]). *)

From stdpp Require Import gmap.
From S2P Require Import Prelude Platform.

Abbreviation storage := (gmap (list N) (list N)) (only parsing).

Module Storage.

Local Open Scope N_scope.
Implicit Types (k v : jsstring) (m : storage).

Definition cost (k v : jsstring) : N := N.of_nat (length k) + N.of_nat (length v).

(** Code units held by the store. *)
Definition usage (m : storage) : N := map_fold (fun k v n => cost k v + n) 0 m.

Definition getItem (k : jsstring) (m : storage) : option jsstring := m !! k.

(** Keys and values are strings of code units. *)
Definition store_ok (m : storage) : Prop :=
  map_Forall (fun k v => code_units k /\ code_units v) m.

Section with_platform.
Context `{Platform}.

Definition setItem (k v : jsstring) (m : storage) : result storage :=
  let m' := <[k := v]> m in
  if decide (usage m' <= quota) then Ok m' else Throw QuotaExceededError.

End with_platform.

Lemma usage_empty : usage ∅ = 0.
Proof. apply map_fold_empty. Qed.

Lemma usage_insert_fresh k v (m : storage) :
  m !! k = None -> usage (<[k := v]> m) = cost k v + usage m.
Proof. intros Hk. unfold usage. rewrite map_fold_insert_L; [done | intros; lia | done]. Qed.

(** Writing a key replaces what it held. *)
Lemma usage_insert k v (m : storage) :
  usage (<[k := v]> m) = cost k v + usage (delete k m).
Proof.
  rewrite <- insert_delete_eq. apply usage_insert_fresh, lookup_delete_eq.
Qed.

(** Whether a value fits under a key depends on the other keys only. *)
Lemma usage_insert_rest k v (m1 m2 : storage) :
  delete k m1 = delete k m2 -> usage (<[k := v]> m1) = usage (<[k := v]> m2).
Proof. intros Hrest. by rewrite !usage_insert, Hrest. Qed.

Lemma usage_insert_ge k v (m : storage) : cost k v <= usage (<[k := v]> m).
Proof. rewrite usage_insert. lia. Qed.

Section setItem_lemmas.
Context `{Platform}.

Lemma setItem_Ok k v m m' :
  setItem k v m = Ok m' <-> usage (<[k := v]> m) <= quota /\ m' = <[k := v]> m.
Proof.
  unfold setItem. destruct (decide _) as [Hle|Hgt]; split.
  - by intros [= <-].
  - by intros [_ ->].
  - discriminate.
  - by intros [Hle _].
Qed.

Lemma setItem_Throw k v m e :
  setItem k v m = Throw e <-> quota < usage (<[k := v]> m) /\ e = QuotaExceededError.
Proof.
  unfold setItem. destruct (decide _) as [Hle|Hgt]; split.
  - discriminate.
  - intros [Hlt _]. lia.
  - intros [= <-]. split; [lia | done].
  - by intros [_ ->].
Qed.

Lemma getItem_setItem k v m m' : setItem k v m = Ok m' -> getItem k m' = Some v.
Proof. intros [_ ->]%setItem_Ok. apply lookup_insert_eq. Qed.

Lemma getItem_setItem_ne k k' v m m' :
  k <> k' -> setItem k v m = Ok m' -> getItem k' m' = getItem k' m.
Proof. intros Hk [_ ->]%setItem_Ok. by apply lookup_insert_ne. Qed.

(** A store of strings stays one when strings are written. *)
Lemma setItem_store_ok k v m m' :
  code_units k -> code_units v -> store_ok m -> setItem k v m = Ok m' -> store_ok m'.
Proof. intros Hk Hv Hm [_ ->]%setItem_Ok. by apply map_Forall_insert_2. Qed.

(** A value larger than the quota is refused whatever the store holds. *)
Lemma setItem_too_large k v m :
  quota < cost k v -> setItem k v m = Throw QuotaExceededError.
Proof.
  intros Hq. apply setItem_Throw. split; [|done].
  pose proof (usage_insert_ge k v m). lia.
Qed.

End setItem_lemmas.

End Storage.
