(* ===== verification/Router.v ===== *)
(** * Client-side navigation (wouter's [useLocation])

    [useLocation] gives the page the current path and a [navigate]
    function; [navigate to] pushes an entry on the session history and
    makes [to] the current path. *)

From S2P Require Import Prelude.

Record History : Type := mkHistory {
  current : jsstring;
  past : list jsstring;
}.

#[export] Instance History_eq_dec : EqDecision History.
Proof. solve_decision. Defined.

Module Router.

Definition navigate (to : jsstring) (h : History) : History :=
  {| current := to; past := current h :: past h |}.

(** The entries of the session history, oldest last. *)
Definition entries (h : History) : list jsstring := current h :: past h.

Lemma entries_navigate to h : entries (navigate to h) = to :: entries h.
Proof. reflexivity. Qed.

End Router.
