(* ===== verification/FileReader.v ===== *)
(** * FileReader (File API)

    A reader is [EMPTY] when created, [LOADING] between [readAsDataURL] and
    the end of the read, [DONE] afterwards.  [readAsDataURL] throws
    [InvalidStateError] on a reader that is loading.  The read ends in
    [complete], which stores the data URL and leaves the [load] event to
    dispatch, or in [fail], which stores no result and leaves the
    [error] event to dispatch.  The handlers of [load] and [error] are
    kept as data of type [H]; a reader is created with none. *)

From S2P Require Import Prelude Platform Blob.

Inductive ReadyState : Type := EMPTY | LOADING | DONE.

#[export] Instance ReadyState_eq_dec : EqDecision ReadyState.
Proof. solve_decision. Defined.

Record FileReader (H : Type) : Type := mkReader {
  readyState : ReadyState;
  result_ : option jsstring;
  blob : option File;
  onload : option H;
  onerror : option H;
}.
Arguments mkReader {H}.
Arguments readyState {H}.
Arguments result_ {H}.
Arguments blob {H}.
Arguments onload {H}.
Arguments onerror {H}.

#[export] Instance FileReader_eq_dec `{EqDecision H} : EqDecision (FileReader H).
Proof. solve_decision. Defined.

Module Reader.

Section with_handler.
Context {H : Type}.
Implicit Types r : FileReader H.

(** [new FileReader()]. *)
Definition new : FileReader H :=
  {| readyState := EMPTY; result_ := None; blob := None; onload := None;
     onerror := None |}.

(** [reader.onload = h]. *)
Definition set_onload (h : H) r : FileReader H :=
  {| readyState := readyState r; result_ := result_ r; blob := blob r;
     onload := Some h; onerror := onerror r |}.

(** [reader.readAsDataURL(f)]: the read starts. *)
Definition readAsDataURL (f : File) r : result (FileReader H) :=
  if decide (readyState r = LOADING) then Throw InvalidStateError
  else Ok {| readyState := LOADING; result_ := None; blob := Some f;
             onload := onload r; onerror := onerror r |}.

Section with_platform.
Context `{Platform}.

(** The read succeeds: the reader is done and holds the data URL. *)
Definition complete r : option (FileReader H) :=
  match readyState r, blob r with
  | LOADING, Some f =>
      Some {| readyState := DONE; result_ := Some (Blob.dataURL f);
              blob := blob r; onload := onload r; onerror := onerror r |}
  | _, _ => None
  end.

End with_platform.

(** The read fails: the reader is done and holds no result. *)
Definition fail r : option (FileReader H) :=
  match readyState r with
  | LOADING =>
      Some {| readyState := DONE; result_ := None; blob := blob r;
              onload := onload r; onerror := onerror r |}
  | _ => None
  end.

(** A reader that is loading has a blob to read; a reader holds a result
    only when it is done. *)
Definition wf r : Prop :=
  (readyState r = LOADING -> is_Some (blob r)) /\
  (is_Some (result_ r) -> readyState r = DONE).

Lemma new_wf : wf new.
Proof. split; [discriminate | intros [? [=]]]. Qed.

Lemma set_onload_wf h r : wf r -> wf (set_onload h r).
Proof. by intros [??]. Qed.

Lemma readAsDataURL_wf f r r' : readAsDataURL f r = Ok r' -> wf r'.
Proof.
  unfold readAsDataURL. case_decide; [done|]. intros [= <-].
  split; simpl; [eauto | intros [? [=]]].
Qed.

(** A read ends once: only a reader that is loading completes or fails,
    and it is done afterwards. *)
Lemma complete_states `{Platform} r r' :
  complete r = Some r' -> readyState r = LOADING /\ readyState r' = DONE.
Proof. unfold complete. destruct (readyState r), (blob r); by intros [= <-]. Qed.

Lemma fail_states r r' :
  fail r = Some r' -> readyState r = LOADING /\ readyState r' = DONE.
Proof. unfold fail. destruct (readyState r); by intros [= <-]. Qed.

Lemma complete_wf `{Platform} r r' : complete r = Some r' -> wf r'.
Proof. unfold complete. destruct (readyState r), (blob r); intros [= <-]; by split. Qed.

Lemma fail_wf r r' : fail r = Some r' -> wf r'.
Proof.
  unfold fail. destruct (readyState r); intros [= <-].
  split; simpl; [done | by intros [? [=]]].
Qed.

(** A fresh reader never refuses to read. *)
Lemma readAsDataURL_new h f :
  readAsDataURL f (set_onload h new) =
  Ok {| readyState := LOADING; result_ := None; blob := Some f; onload := Some h;
        onerror := None |}.
Proof. reflexivity. Qed.

Lemma readAsDataURL_loading f r :
  readyState r = LOADING -> readAsDataURL f r = Throw InvalidStateError.
Proof. intros Hr. unfold readAsDataURL. by rewrite decide_True. Qed.

End with_handler.

End Reader.
