(* ===== verification/World.v ===== *)
(** * The state the page acts on, and the commands that change it

    One browser tab: the session store, the session history, the
    [FileReader] objects the page has created (in creation order) and the
    exceptions that escaped an event handler (the browser reports them and
    goes on).  A reader's [onload] handler is the arrow function of
    [handleFileSelect], kept as the [closure] of the file it captured.

    Code that acts on the tab is a [cmd]: a function from the world to a
    completion and the world it leaves.  What a command did before it
    threw stays done. *)

From stdpp Require Import gmap.
From S2P Require Import Prelude Platform Blob Storage Router FileReader.

(** [reader.onload = (e) => { ... file ... }]. *)
Inductive closure : Type :=
| OnLoad (file : File).

#[export] Instance closure_eq_dec : EqDecision closure.
Proof. solve_decision. Defined.

Record World : Type := mkWorld {
  session : storage;
  history : History;
  readers : list (FileReader closure);
  uncaught : list exn;
}.

(** The event a reader receives; [target] is the reader it is fired at. *)
Record ProgressEvent : Type := mkEvent {
  target : option (FileReader closure);
}.

Definition set_session (s : storage) (w : World) : World :=
  {| session := s; history := history w; readers := readers w;
     uncaught := uncaught w |}.

Definition set_history (h : History) (w : World) : World :=
  {| session := session w; history := h; readers := readers w;
     uncaught := uncaught w |}.

Definition set_readers (rs : list (FileReader closure)) (w : World) : World :=
  {| session := session w; history := history w; readers := rs;
     uncaught := uncaught w |}.

Definition add_uncaught (e : exn) (w : World) : World :=
  {| session := session w; history := history w; readers := readers w;
     uncaught := e :: uncaught w |}.

(** The tab as the page finds it: whatever the store and the history
    hold, no reader yet. *)
Definition fresh (s : storage) (h : History) : World :=
  {| session := s; history := h; readers := []; uncaught := [] |}.

(** ** Commands *)

Definition cmd (A : Type) : Type := World -> result A * World.

#[export] Instance cmd_ret : MRet cmd := fun A a w => (Ok a, w).

#[export] Instance cmd_bind : MBind cmd := fun A B f m w =>
  match m w with
  | (Ok a, w') => f a w'
  | (Throw e, w') => (Throw e, w')
  end.

(** A pure computation that may throw, as a command. *)
Definition lift {A} (r : result A) : cmd A := fun w => (r, w).

(** The world after a task that ran [c]: an exception that leaves the
    task is reported. *)
Definition run_task (c : cmd unit) (w : World) : World :=
  match c w with
  | (Ok _, w') => w'
  | (Throw e, w') => add_uncaught e w'
  end.

(** ** The browser's interface, as commands *)

Module Api.

Section with_platform.
Context `{Platform}.

(** [sessionStorage.setItem(k, v)]. *)
Definition setItem (k v : jsstring) : cmd unit := fun w =>
  match Storage.setItem k v (session w) with
  | Ok s => (Ok (), set_session s w)
  | Throw e => (Throw e, w)
  end.

End with_platform.

(** The [navigate] function of [useLocation]. *)
Definition navigate (to : jsstring) : cmd unit := fun w =>
  (Ok (), set_history (Router.navigate to (history w)) w).

(** [new FileReader()]: the index of the new reader. *)
Definition newFileReader : cmd nat := fun w =>
  (Ok (length (readers w)), set_readers (readers w ++ [Reader.new]) w).

(** A method of reader [i]; calling one on a reader that does not exist
    is a [TypeError]. *)
Definition on_reader (i : nat)
    (m : FileReader closure -> result (FileReader closure)) : cmd unit := fun w =>
  match readers w !! i with
  | Some r =>
      match m r with
      | Ok r' => (Ok (), set_readers (<[i := r']> (readers w)) w)
      | Throw e => (Throw e, w)
      end
  | None => (Throw TypeError, w)
  end.

(** [reader.onload = h]. *)
Definition setOnload (i : nat) (h : closure) : cmd unit :=
  on_reader i (fun r => Ok (Reader.set_onload h r)).

(** [reader.readAsDataURL(f)]. *)
Definition readAsDataURL (i : nat) (f : File) : cmd unit :=
  on_reader i (Reader.readAsDataURL f).

End Api.
