(* ===== verification/Samples.v ===== *)
(** * Concrete files and worlds for the examples

    The inputs the closed examples of the development run on. *)

From stdpp Require Import gmap.
From S2P Require Import Prelude Platform Blob Storage Router FileReader World.
From Stdlib.Strings Require Import Byte.

(** A three-byte file, the bytes of "Man". *)
Definition sample_png : File :=
  {| name := js "a.png"; type := js "image/png"; bytes := [x4d; x61; x6e] |}.

(** A file without a type, two bytes. *)
Definition sample_untyped : File :=
  {| name := js "notes"; type := []; bytes := [x4d; x61] |}.

(** A file whose type has a comma, as [new File(bits, name, {type})]
    accepts it. *)
Definition sample_comma : File :=
  {| name := js "b.bin"; type := js "application/x,y"; bytes := [x4d] |}.

(** Thirteen bytes: twenty characters of Base64. *)
Definition sample_text : File :=
  {| name := js "hello.txt"; type := js "text/plain";
     bytes := [x48; x65; x6c; x6c; x6f; x2c; x20; x77; x6f; x72; x6c; x64; x21] |}.

(** A file without bytes, as an empty document is. *)
Definition sample_empty : File :=
  {| name := js "empty.txt"; type := js "text/plain"; bytes := [] |}.

(** The tab on the page's own path, nothing stored. *)
Definition root : History := {| current := js "/"; past := [] |}.

Definition start : World := fresh ∅ root.
