(* ===== verification/View.v ===== *)
(** * Rendered trees

    What a React component returns: host elements with a class name and
    children, text, the icons of lucide-react, and the two components the
    page imports, [UploadArea] with its [onFileSelect] callback and
    [BottomNavigation].  [C] is the type of callbacks. *)

From S2P Require Import Prelude.

(* The children of an element are a list of trees: the induction
   principle Rocq derives is not used, so no scheme for lists is needed. *)
#[local] Set Warnings "-register-all".

Inductive vnode (C : Type) : Type :=
| Text (s : string)
| Elem (tag : string) (className : string) (children : list (vnode C))
| Icon (icon : string) (className : option string) (size : N)
| UploadArea (onFileSelect : C)
| BottomNavigation.
Arguments Text {C} s.
Arguments Elem {C} tag className children.
Arguments Icon {C} icon className size.
Arguments UploadArea {C} onFileSelect.
Arguments BottomNavigation {C}.

Module View.

Section with_callbacks.
Context {C : Type}.

(** The callbacks a tree hands to its components, in document order. *)
Fixpoint callbacks (v : vnode C) : list C :=
  match v with
  | Elem _ _ children =>
      (fix go (l : list (vnode C)) : list C :=
         match l with
         | [] => []
         | c :: l' => callbacks c ++ go l'
         end) children
  | UploadArea cb => [cb]
  | _ => []
  end.

Lemma callbacks_Elem tag cls children :
  callbacks (Elem tag cls children) = concat (callbacks <$> children).
Proof. simpl. induction children as [|c l IH]; simpl; by rewrite ?IH. Qed.

End with_callbacks.

End View.
