(* ===== verification/Home.v ===== *)
(** * The Home page ([src/client/src/pages/home.tsx])

    [handleFileSelect] and the [onload] handler it installs, the record
    they store, [renderMainContent] and the tree [Home] returns, each
    translated from the lines of the source. *)

From stdpp Require Import gmap.
From S2P Require Import Prelude JsString Base64 Json Platform Blob Storage Router FileReader World Samples View.

Module Home.

(** The object built at lines 13-17.  [fileData] is [undefined] when the
    result of the read has no comma. *)
Record FileData : Type := mkFileData {
  fileName : jsstring;
  fileType : jsstring;
  fileData : option jsstring;
}.

#[export] Instance FileData_eq_dec : EqDecision FileData.
Proof. solve_decision. Defined.

(** ['uploadedFile'] (line 18) and ['/editor'] (line 19). *)
Definition storageKey : jsstring := js "uploadedFile".
Definition editorPath : jsstring := js "/editor".

(** [const [, setLocation] = useLocation()] (line 7). *)
Definition setLocation (to : jsstring) : cmd unit := Api.navigate to.

(** [e.target?.result]: [undefined] without a target, [null] without a
    result; both are [None]. *)
Definition eventResult (e : ProgressEvent) : option jsstring :=
  r ← target e; result_ r.

(** [(...).split(',')[1]] (line 16). *)
Definition stripPrefix (url : jsstring) : option jsstring :=
  JsString.index (JsString.split comma url) 1.

(** Lines 13-17: calling [split] on [undefined] or [null] is a TypeError. *)
Definition makeFileData (file : File) (e : ProgressEvent) : result FileData :=
  match eventResult e with
  | Some url =>
      Ok {| fileName := name file; fileType := type file;
            fileData := stripPrefix url |}
  | None => Throw TypeError
  end.

(** A record whose properties are strings of code units. *)
Definition record_ok (d : FileData) : Prop :=
  code_units (fileName d) /\ code_units (fileType d) /\
  from_option code_units True (fileData d).

(** [JSON.stringify(fileData)]: the properties in the order they were
    written. *)
Definition toJSON (d : FileData) : jsstring :=
  Json.stringify [(js "fileName", Some (fileName d));
                  (js "fileType", Some (fileType d));
                  (js "fileData", fileData d)].

Section with_platform.
Context `{Platform}.

(** The handler of the reader's [load] event (lines 12-20): build the
    record, store it, then navigate. *)
Definition onReaderLoad (file : File) (e : ProgressEvent) : cmd unit :=
  d ← lift (makeFileData file e);
  Api.setItem storageKey (toJSON d);;
  setLocation editorPath.

(** Lines 9-22: a new reader, its handler, and the read started. *)
Definition handleFileSelect (file : File) : cmd unit :=
  reader ← Api.newFileReader;
  Api.setOnload reader (OnLoad file);;
  Api.readAsDataURL reader file.

Abbreviation callback := (File -> cmd unit) (only parsing).

(** Lines 24-26. *)
Definition renderMainContent : vnode callback :=
  UploadArea handleFileSelect.

(** Lines 31-43. *)
Definition header : vnode callback :=
  Elem "header" "bg-white shadow-sm border-b border-slate-200" [
    Elem "div" "max-w-md mx-auto px-4 py-3 flex items-center justify-between" [
      Elem "div" "flex items-center space-x-3" [
        Elem "div" "w-8 h-8 bg-gradient-to-br from-primary to-secondary rounded-lg flex items-center justify-center" [
          Icon "WandSparkles" (Some "text-white text-sm") 16 ];
        Elem "h1" "text-lg font-semibold text-slate-800" [Text "AI Image Editor"] ];
      Elem "button" "w-8 h-8 flex items-center justify-center text-slate-600" [
        Icon "Menu" None 16 ] ] ].

(** Lines 53-59, 61-67, 69-75 and 77-83: the four cards of the grid. *)
Definition cardBackground : vnode callback :=
  Elem "div" "bg-white rounded-xl p-4 shadow-sm border border-slate-200" [
    Elem "div" "w-10 h-10 bg-primary/10 rounded-lg flex items-center justify-center mb-3" [
      Elem "i" "fas fa-cut text-primary" [] ];
    Elem "h4" "font-medium text-slate-800 mb-1" [Text "Auto Background"];
    Elem "p" "text-xs text-slate-600" [Text "Remove backgrounds instantly with AI"] ].

Definition cardProcessing : vnode callback :=
  Elem "div" "bg-white rounded-xl p-4 shadow-sm border border-slate-200" [
    Elem "div" "w-10 h-10 bg-secondary/10 rounded-lg flex items-center justify-center mb-3" [
      Elem "i" "fas fa-magic text-secondary" [] ];
    Elem "h4" "font-medium text-slate-800 mb-1" [Text "AI Processing"];
    Elem "p" "text-xs text-slate-600" [Text "Fast and accurate AI processing"] ].

Definition cardFast : vnode callback :=
  Elem "div" "bg-white rounded-xl p-4 shadow-sm border border-slate-200" [
    Elem "div" "w-10 h-10 bg-accent/10 rounded-lg flex items-center justify-center mb-3" [
      Elem "i" "fas fa-lightning-bolt text-accent" [] ];
    Elem "h4" "font-medium text-slate-800 mb-1" [Text "Fast Processing"];
    Elem "p" "text-xs text-slate-600" [Text "Get results in seconds"] ].

Definition cardQuality : vnode callback :=
  Elem "div" "bg-white rounded-xl p-4 shadow-sm border border-slate-200" [
    Elem "div" "w-10 h-10 bg-green-500/10 rounded-lg flex items-center justify-center mb-3" [
      Elem "i" "fas fa-shield-alt text-green-500" [] ];
    Elem "h4" "font-medium text-slate-800 mb-1" [Text "High Quality"];
    Elem "p" "text-xs text-slate-600" [Text "Professional-grade results"] ].

(** Lines 50-85. *)
Definition features : vnode callback :=
  Elem "section" "py-6" [
    Elem "h3" "font-semibold text-slate-800 mb-4" [Text "Features"];
    Elem "div" "grid grid-cols-2 gap-3" [
      cardBackground; cardProcessing; cardFast; cardQuality ] ].

(** Lines 46-86. *)
Definition main : vnode callback :=
  Elem "main" "max-w-md mx-auto px-4 pb-20" [renderMainContent; features].

(** The component (lines 6-91): what it returns. *)
Definition Home : vnode callback :=
  Elem "div" "bg-slate-50 min-h-screen font-sans" [header; main; BottomNavigation].

(** The uploaded-file payload of the specification (section 3): the name
    and type of the file and the Base64 text of its bytes. *)
Definition payload (f : File) : FileData :=
  {| fileName := name f; fileType := type f;
     fileData := Some (Base64.encode (bytes f)) |}.

(** What the handler stores for a read that succeeded. *)
Definition stored (f : File) : FileData :=
  {| fileName := name f; fileType := type f;
     fileData := stripPrefix (Blob.dataURL f) |}.

(** The record of a data URL without a comma: [split(',')] has one
    piece, [[1]] is [undefined]. *)
Definition dataless (f : File) : FileData :=
  {| fileName := name f; fileType := type f; fileData := None |}.

(** The record of a data URL whose header has a comma, the comma of a
    type [a,b]: [[1]] is what follows that comma in the header. *)
Definition headed (f : File) (b : jsstring) : FileData :=
  {| fileName := name f; fileType := type f; fileData := Some (b ++ js ";base64") |}.

(** The event fired at a reader that holds [url]. *)
Definition load_event (f : File) (c : option closure) (url : jsstring) : ProgressEvent :=
  {| target := Some {| readyState := DONE; result_ := Some url;
                       blob := Some f; onload := c; onerror := None |} |}.

(** ** The header is what [split(',')[1]] removes *)

Lemma semicolon_not_base64 : ~ Base64.is_base64_char 59%N.
Proof. by_compute. Qed.

Lemma stripPrefix_dataURL_eq (f : File) :
  comma ∉ type f -> Blob.packaged f ->
  stripPrefix (Blob.dataURL f) = Some (Base64.encode (bytes f)).
Proof.
  intros Hf Hp. unfold stripPrefix. rewrite (Blob.dataURL_packaged f Hp).
  apply JsString.index_split_1_whole; auto with js.
Qed.

Lemma stored_bare (f : File) :
  bare_empty = true -> bytes f = [] -> stored f = dataless f.
Proof. intros Hb Hf. unfold stored. by rewrite Blob.dataURL_bare. Qed.

Lemma stored_payload (f : File) :
  comma ∉ type f -> Blob.packaged f -> stored f = payload f.
Proof. intros Hf Hp. unfold stored, payload. by rewrite stripPrefix_dataURL_eq. Qed.

(** The text of a record is at least as long as its data. *)
Lemma toJSON_length (d : FileData) (b : jsstring) :
  fileData d = Some b -> length b <= length (toJSON d).
Proof.
  intros Hb. apply (Json.stringify_member_length _ (js "fileData")).
  rewrite Hb. set_solver.
Qed.

Lemma eventResult_load_event f c url : eventResult (load_event f c url) = Some url.
Proof. reflexivity. Qed.

(** C3: the record built from the [load] event of a file whose type has
    no comma is the uploaded-file payload: [fileData] is the Base64 text
    of the bytes, the data-URL header removed. *)
Theorem makeFileData_payload (f : File) (c : option closure) :
  comma ∉ type f -> Blob.packaged f ->
  makeFileData f (load_event f c (Blob.dataURL f)) = Ok (payload f).
Proof.
  intros Hf Hp. unfold makeFileData. rewrite eventResult_load_event.
  by rewrite stripPrefix_dataURL_eq.
Qed.

(** The data URL of a file whose type has a comma, cut at that comma. *)
Lemma dataURL_type_with_comma (f : File) (a b : jsstring) :
  type f = a ++ comma :: b -> Blob.packaged f ->
  Blob.dataURL f =
    (js "data:" ++ a) ++ comma :: (b ++ js ";base64") ++ comma :: Base64.encode (bytes f).
Proof.
  intros Hf Hp. rewrite (Blob.dataURL_packaged f Hp). unfold Blob.url_header, Blob.media_type.
  rewrite decide_False by (rewrite Hf; by destruct a).
  rewrite Hf. by rewrite <- !app_assoc.
Qed.

(** C4: when the type of the file has a comma, [split(',')[1]] is the
    rest of the header, not the Base64 text: the comment of line 16 and
    section 3 of the specification hold only for types without a comma. *)
Theorem stripPrefix_type_with_comma (f : File) (a b : jsstring) :
  type f = a ++ comma :: b -> comma ∉ a -> comma ∉ b -> Blob.packaged f ->
  stripPrefix (Blob.dataURL f) = Some (b ++ js ";base64") /\
  stripPrefix (Blob.dataURL f) <> Some (Base64.encode (bytes f)).
Proof.
  intros Hf Ha Hb Hp.
  assert (stripPrefix (Blob.dataURL f) = Some (b ++ js ";base64")) as ->.
  { rewrite (dataURL_type_with_comma f a b Hf Hp). unfold stripPrefix.
    rewrite JsString.index_split_1, JsString.split_app_sep; [done | |];
      rewrite not_elem_of_app; split; auto; by_compute. }
  split; [done|]. intros [= Heq].
  apply (Base64.encode_not_elem 59%N (bytes f) semicolon_not_base64).
  rewrite <- Heq. apply elem_of_app. right. by_compute.
Qed.

(** ** The [load] handler *)

Ltac unfold_onReaderLoad :=
  unfold onReaderLoad, setLocation, Api.navigate, makeFileData, lift, Api.setItem,
    Storage.setItem, mbind, cmd_bind.

(** The store accepts the record: it is stored, then the page navigates. *)
Lemma onReaderLoad_fits (file : File) (e : ProgressEvent) (url : jsstring) (w : World) :
  let d := {| fileName := name file; fileType := type file;
              fileData := stripPrefix url |} in
  eventResult e = Some url ->
  (Storage.usage (<[storageKey := toJSON d]> (session w)) <= quota)%N ->
  onReaderLoad file e w =
    (Ok (), set_history (Router.navigate editorPath (history w))
              (set_session (<[storageKey := toJSON d]> (session w)) w)).
Proof. intros d He Hq. unfold_onReaderLoad. rewrite He. fold d. by rewrite decide_True. Qed.

(** The store refuses the record: line 18 throws, line 19 is not reached. *)
Lemma onReaderLoad_exceeds (file : File) (e : ProgressEvent) (url : jsstring) (w : World) :
  let d := {| fileName := name file; fileType := type file;
              fileData := stripPrefix url |} in
  eventResult e = Some url ->
  (quota < Storage.usage (<[storageKey := toJSON d]> (session w)))%N ->
  onReaderLoad file e w = (Throw QuotaExceededError, w).
Proof.
  intros d He Hq. unfold_onReaderLoad. rewrite He. fold d.
  by rewrite decide_False by apply N.lt_nge, Hq.
Qed.

(** The handler throws nothing but [TypeError], for an event without a
    result, and [QuotaExceededError]. *)
Lemma onReaderLoad_Throw (file : File) (e : ProgressEvent) (w w' : World) (err : exn) :
  onReaderLoad file e w = (Throw err, w') ->
  (eventResult e = None /\ err = TypeError) \/
  (is_Some (eventResult e) /\ err = QuotaExceededError).
Proof.
  unfold_onReaderLoad.
  destruct (eventResult e) as [url|]; [case_decide|]; intros [= <- <-]; eauto.
Qed.

(** C5: the handler stores and navigates, or does neither: when it
    completes, the record it built is under ['uploadedFile'] and the
    current path is ['/editor'] with the previous path behind it; when it
    throws, the store and the history are what they were. *)
Theorem onReaderLoad_all_or_nothing (file : File) (e : ProgressEvent) (w w' : World)
    (r : result unit) :
  onReaderLoad file e w = (r, w') ->
  (r = Ok () /\
   (exists d, makeFileData file e = Ok d /\
      session w' = <[storageKey := toJSON d]> (session w)) /\
   history w' = Router.navigate editorPath (history w)) \/
  (exists err, r = Throw err /\ w' = w).
Proof.
  unfold_onReaderLoad.
  destruct (eventResult e) as [url|]; [case_decide|]; intros [= <- <-]; eauto 8.
Qed.

(** ** [handleFileSelect] *)

(** The world after the handler, in every case: without a result the
    [TypeError] is reported; with one, the record is stored and the page
    navigates when the store accepts it, and the refusal is reported
    when it does not. *)
Lemma run_onReaderLoad_eq (file : File) (e : ProgressEvent) (w : World) :
  run_task (onReaderLoad file e) w =
  match makeFileData file e with
  | Ok d =>
      if decide (Storage.usage (<[storageKey := toJSON d]> (session w)) <= quota)%N
      then set_history (Router.navigate editorPath (history w))
             (set_session (<[storageKey := toJSON d]> (session w)) w)
      else add_uncaught QuotaExceededError w
  | Throw err => add_uncaught err w
  end.
Proof.
  unfold run_task. unfold_onReaderLoad. by destruct (eventResult e); [case_decide|].
Qed.

(** An exception was reported and nothing else has changed, or the record
    is stored and the page has navigated. *)
Lemma run_onReaderLoad (file : File) (e : ProgressEvent) (w : World) :
  (exists err, run_task (onReaderLoad file e) w = add_uncaught err w) \/
  (exists d, makeFileData file e = Ok d /\
     run_task (onReaderLoad file e) w =
       set_history (Router.navigate editorPath (history w))
         (set_session (<[storageKey := toJSON d]> (session w)) w)).
Proof.
  rewrite run_onReaderLoad_eq. destruct (makeFileData file e); [case_decide|]; eauto.
Qed.

(** The handler leaves the readers alone, whatever the event is and
    whatever the store accepts. *)
Lemma onReaderLoad_readers (file : File) (e : ProgressEvent) (w : World) :
  readers (run_task (onReaderLoad file e) w) = readers w.
Proof. by destruct (run_onReaderLoad file e w) as [[err ->] | (d & _ & ->)]. Qed.

(** The reader [handleFileSelect] leaves in the world. *)
Definition loading (f : File) : FileReader closure :=
  {| readyState := LOADING; result_ := None; blob := Some f;
     onload := Some (OnLoad f); onerror := None |}.

(** The page creates a reader for each file, so the read always starts. *)
Lemma handleFileSelect_eq (f : File) (w : World) :
  handleFileSelect f w = (Ok (), set_readers (readers w ++ [loading f]) w).
Proof.
  unfold handleFileSelect, Api.newFileReader, Api.setOnload, Api.readAsDataURL,
    Api.on_reader, mbind, cmd_bind. cbn [readers set_readers].
  rewrite lookup_snoc_last. cbn [Reader.set_onload readers set_readers].
  rewrite insert_snoc_last, lookup_snoc_last, Reader.readAsDataURL_new.
  by rewrite insert_snoc_last.
Qed.

(** ** The record and its text are strings of code units *)

Lemma stripPrefix_code_units url :
  code_units url -> from_option code_units True (stripPrefix url).
Proof.
  intros Hu. destruct (stripPrefix url) as [b|] eqn:Hb; [|done].
  eapply JsString.index_code_units; [|exact Hb]. by apply JsString.split_code_units.
Qed.

Lemma makeFileData_ok file e d :
  file_ok file -> from_option code_units True (eventResult e) ->
  makeFileData file e = Ok d -> record_ok d.
Proof.
  intros [Hn Ht] He. unfold makeFileData. destruct (eventResult e) as [url|]; [|done].
  intros [= <-]. split_and!; [done..|]. by apply stripPrefix_code_units.
Qed.

Lemma toJSON_code_units d : record_ok d -> code_units (toJSON d).
Proof.
  intros (Hn & Ht & Hd). apply Json.stringify_code_units.
  repeat constructor; simpl; auto with js.
Qed.

Lemma storageKey_code_units : code_units storageKey.
Proof. apply js_code_units. Qed.

Lemma editorPath_code_units : code_units editorPath.
Proof. apply js_code_units. Qed.

(** ** The rendered tree *)

Lemma Home_callbacks : View.callbacks Home = [handleFileSelect].
Proof. reflexivity. Qed.

End with_platform.

(** ** The theorems on concrete inputs *)

Lemma makeFileData_payload_witness :
  makeFileData sample_png
    (load_event sample_png None (@Blob.dataURL reference_platform sample_png)) =
  Ok {| fileName := js "a.png"; fileType := js "image/png";
        fileData := Some (js "TWFu") |}.
Proof.
  apply (@makeFileData_payload reference_platform sample_png None); by_compute.
Defined.

Lemma stripPrefix_type_with_comma_witness :
  Blob.type_ok sample_comma /\
  stripPrefix (@Blob.dataURL reference_platform sample_comma) = Some (js "y;base64") /\
  stripPrefix (@Blob.dataURL reference_platform sample_comma) <>
    Some (Base64.encode (bytes sample_comma)).
Proof.
  split; [by_compute|].
  apply (@stripPrefix_type_with_comma reference_platform sample_comma
           (js "application/x") (js "y")); [reflexivity | by_compute..].
Defined.

Lemma onReaderLoad_all_or_nothing_witness :
  let e := load_event sample_png None (js "data:image/png;base64,TWFu") in
  let w' := set_history (Router.navigate editorPath root)
              (set_session (<[storageKey :=
                 toJSON (payload sample_png)]> ∅)
                 start) in
  (Ok () = Ok () /\
   (exists d, makeFileData sample_png e = Ok d /\
      session w' = <[storageKey := toJSON d]> (session start)) /\
   history w' = Router.navigate editorPath (history start)) \/
  (exists err, Ok () = Throw err /\ w' = start).
Proof.
  intros e w'.
  apply (@onReaderLoad_all_or_nothing reference_platform sample_png e start w' (Ok ())).
  reflexivity.
Defined.

End Home.
