(* ===== verification/System.v ===== *)
(** * The page in the browser's event loop

    The tasks that run the page's code: the user picks a file in the
    upload widget, which calls the callback the page rendered it with; a
    read ends and the [load] event is fired at its reader, whose
    [onload] handler runs; a read fails and the [error] event is fired
    at its reader, whose [onerror] handler would run: the page assigns
    none, so for the readers of the page nothing runs.  [exec] runs one
    task, [run] a sequence of them.

    [Select] is enabled in every world: the model does not unmount the
    page when it has navigated.  A pick after a navigation stands for a
    user who has come back to the page; the runs of the model include
    those of a page that is unmounted for good, so what holds of every
    run holds of those. *)

From stdpp Require Import gmap.
From S2P Require Import Prelude JsString Base64 Json Platform Blob Storage Router FileReader World View Home.

Inductive task : Type :=
| Select (k : nat) (f : File)   (** the [k]-th callback of the tree, on [f] *)
| Load (i : nat)                (** the read of reader [i] succeeds *)
| Fail (i : nat).               (** the read of reader [i] fails *)

Module System.

Section with_platform.
Context `{Platform}.

(** Run a reader's handler on an event. *)
Definition dispatch (c : closure) (e : ProgressEvent) : cmd unit :=
  match c with
  | OnLoad file => Home.onReaderLoad file e
  end.

(** An event fired at reader [r]: the handler assigned for it runs,
    if there is one. *)
Definition fire (c : option closure) (r : FileReader closure) (w : World) : World :=
  match c with
  | Some c => run_task (dispatch c {| target := Some r |}) w
  | None => w
  end.

(** The [load] event of reader [r], fired at it. *)
Definition fire_load (r : FileReader closure) (w : World) : World :=
  fire (onload r) r w.

(** The [error] event of reader [r], fired at it. *)
Definition fire_error (r : FileReader closure) (w : World) : World :=
  fire (onerror r) r w.

Definition exec (t : task) (w : World) : option World :=
  match t with
  | Select k f =>
      cb ← View.callbacks Home.Home !! k;
      Some (run_task (cb f) w)
  | Load i =>
      r ← readers w !! i;
      r' ← Reader.complete r;
      Some (fire_load r' (set_readers (<[i := r']> (readers w)) w))
  | Fail i =>
      r ← readers w !! i;
      r' ← Reader.fail r;
      Some (fire_error r' (set_readers (<[i := r']> (readers w)) w))
  end.

Fixpoint run (ts : list task) (w : World) : option World :=
  match ts with
  | [] => Some w
  | t :: ts' => w' ← exec t w; run ts' w'
  end.

(** The worlds the page can bring about from [w0]. *)
Inductive reachable (w0 : World) : World -> Prop :=
| reachable_refl : reachable w0 w0
| reachable_step t w w' :
    reachable w0 w -> exec t w = Some w' -> reachable w0 w'.

(** ** The readers of the page

    A reader the page created is reading the file its handler captured,
    or is done with it; it has a handler for [load] and none for
    [error]. *)

Definition loaded (f : File) : FileReader closure :=
  {| readyState := DONE; result_ := Some (Blob.dataURL f); blob := Some f;
     onload := Some (OnLoad f); onerror := None |}.

Definition failed (f : File) : FileReader closure :=
  {| readyState := DONE; result_ := None; blob := Some f;
     onload := Some (OnLoad f); onerror := None |}.

Inductive page_reader : FileReader closure -> Prop :=
| page_loading f : page_reader (Home.loading f)
| page_loaded f : page_reader (loaded f)
| page_failed f : page_reader (failed f).

(** The world after the read of reader [i], which was reading [f],
    succeeded: the reader is done and its handler has run. *)
Definition after_load (i : nat) (f : File) (w : World) : World :=
  run_task (Home.onReaderLoad f (Home.load_event f (Some (OnLoad f)) (Blob.dataURL f)))
    (set_readers (<[i := loaded f]> (readers w)) w).

(** The world once [f] has been picked. *)
Definition picked f w : World := set_readers (readers w ++ [Home.loading f]) w.

(** ** Runs *)

Lemma reachable_trans w0 w1 w2 :
  reachable w0 w1 -> reachable w1 w2 -> reachable w0 w2.
Proof. intros H01 H12. induction H12; eauto using reachable. Qed.

Lemma exec_reachable t w w' : exec t w = Some w' -> reachable w w'.
Proof. eauto using reachable. Qed.

(** A run is a path of [reachable]. *)
Lemma run_reachable ts w w' : run ts w = Some w' -> reachable w w'.
Proof.
  revert w. induction ts as [|t ts IH]; simpl; intros w Hrun.
  - injection Hrun as <-. constructor.
  - destruct (exec t w) as [w1|] eqn:Hex; [|done].
    eapply reachable_trans; [by eapply exec_reachable | by apply IH].
Qed.

Lemma reachable_run w w' : reachable w w' -> exists ts, run ts w = Some w'.
Proof.
  induction 1 as [|t w1 w2 _ [ts Hts] Hex]; [by exists []|].
  exists (ts ++ [t]). revert Hts. generalize w. clear -Hex.
  induction ts as [|t0 ts IH]; simpl; intros w0 Hts.
  - injection Hts as ->. by rewrite Hex.
  - destruct (exec t0 w0); [by apply IH | done].
Qed.

(** Induction on a run of tasks that all satisfy [G]: the run is empty,
    or it is a task and then the run of the rest. *)
Lemma run_induction (G : task -> Prop) (P : list task -> World -> World -> Prop) :
  (forall w, P [] w w) ->
  (forall t ts w w1 w', G t -> exec t w = Some w1 -> run ts w1 = Some w' ->
     P ts w1 w' -> P (t :: ts) w w') ->
  forall ts w w', Forall G ts -> run ts w = Some w' -> P ts w w'.
Proof.
  intros Hnil Hcons ts w w' Hts. revert w.
  induction Hts as [|t ts Ht _ IH]; simpl; intros w Hrun.
  - injection Hrun as <-. apply Hnil.
  - destruct (exec t w) as [w1|] eqn:Hex; [|done]. eauto.
Qed.

(** What every task of a run preserves, the run preserves. *)
Lemma run_preserves (G : task -> Prop) (P : World -> Prop) :
  (forall t w w', G t -> P w -> exec t w = Some w' -> P w') ->
  forall ts w w', Forall G ts -> P w -> run ts w = Some w' -> P w'.
Proof.
  intros Hstep ts w w' Hts Hw Hrun. revert ts w w' Hts Hrun Hw.
  apply (run_induction G (fun _ w w' => P w -> P w')); eauto.
Qed.

Lemma run_cons t ts w w' : exec t w = Some w' -> run (t :: ts) w = run ts w'.
Proof. intros Hex. simpl. by rewrite Hex. Qed.

Lemma run_app ts1 ts2 w :
  run (ts1 ++ ts2) w = run ts1 w ≫= run ts2.
Proof.
  revert w. induction ts1 as [|t ts IH]; simpl; intros w; [done|].
  destruct (exec t w); simpl; [apply IH | done].
Qed.

Lemma complete_loading f : Reader.complete (Home.loading f) = Some (loaded f).
Proof. reflexivity. Qed.

Lemma fail_loading f : Reader.fail (Home.loading f) = Some (failed f).
Proof. reflexivity. Qed.

Lemma complete_page_reader r r' :
  page_reader r -> Reader.complete r = Some r' ->
  exists f, r = Home.loading f /\ r' = loaded f.
Proof. intros [f|f|f]; [|done..]. intros [= <-]. eauto. Qed.

Lemma fail_page_reader r r' :
  page_reader r -> Reader.fail r = Some r' ->
  exists f, r = Home.loading f /\ r' = failed f.
Proof. intros [f|f|f]; [|done..]. intros [= <-]. eauto. Qed.

(** ** One task *)

Lemma exec_Select k f w w' :
  exec (Select k f) w = Some w' <->
  k = 0%nat /\ w' = set_readers (readers w ++ [Home.loading f]) w.
Proof.
  unfold exec. rewrite Home.Home_callbacks.
  destruct k as [|k]; simpl.
  - unfold run_task. rewrite Home.handleFileSelect_eq.
    split; [intros [= <-] | intros [_ ->]]; done.
  - split; [by destruct k | by intros [? _]].
Qed.

Lemma exec_Load_loading i f w :
  readers w !! i = Some (Home.loading f) -> exec (Load i) w = Some (after_load i f w).
Proof. intros Hi. unfold exec. rewrite Hi. reflexivity. Qed.

Lemma exec_Fail_loading i f w :
  readers w !! i = Some (Home.loading f) ->
  exec (Fail i) w = Some (set_readers (<[i := failed f]> (readers w)) w).
Proof. intros Hi. unfold exec. rewrite Hi. reflexivity. Qed.

Lemma exec_Load_inv i w w' :
  Forall page_reader (readers w) -> exec (Load i) w = Some w' ->
  exists f, readers w !! i = Some (Home.loading f) /\ w' = after_load i f w.
Proof.
  intros Hall. unfold exec. destruct (readers w !! i) as [r|] eqn:Hi; [|done]. simpl.
  destruct (Reader.complete r) as [r'|] eqn:Hc; [|done]. simpl. intros [= <-].
  eapply Forall_lookup_1 in Hall; [|done].
  destruct (complete_page_reader _ _ Hall Hc) as (f & -> & ->). eauto.
Qed.

Lemma exec_Fail_inv i w w' :
  Forall page_reader (readers w) -> exec (Fail i) w = Some w' ->
  exists f, readers w !! i = Some (Home.loading f) /\
            w' = set_readers (<[i := failed f]> (readers w)) w.
Proof.
  intros Hall. unfold exec. destruct (readers w !! i) as [r|] eqn:Hi; [|done]. simpl.
  destruct (Reader.fail r) as [r'|] eqn:Hc; [|done]. simpl. intros [= <-].
  eapply Forall_lookup_1 in Hall; [|done].
  destruct (fail_page_reader _ _ Hall Hc) as (f & -> & ->). eauto.
Qed.

Lemma exec_Select_0 f w : exec (Select 0 f) w = Some (picked f w).
Proof. by apply exec_Select. Qed.

Lemma exec_Select_S k f w : exec (Select (S k) f) w = None.
Proof. apply eq_None_not_Some. by intros [w' [[=] _]%exec_Select]. Qed.

(** No handler touches the readers. *)
Lemma fire_readers c r w : readers (fire c r w) = readers w.
Proof. destruct c as [[file]|]; [apply Home.onReaderLoad_readers | done]. Qed.

(** The end of a read, in any world: the reader was loading and is
    done, and no other reader has changed. *)
Lemma exec_end_readers t w w' :
  (if t is Select _ _ then False else True) -> exec t w = Some w' ->
  exists i r r', readers w !! i = Some r /\ readyState r = LOADING /\
    readyState r' = DONE /\ readers w' = <[i := r']> (readers w).
Proof.
  destruct t as [k f|i|i]; [done|..]; intros _; unfold exec;
    (destruct (readers w !! i) as [r|] eqn:Hi; [|done]); cbn [mbind option_bind].
  - destruct (Reader.complete r) as [r'|] eqn:Hc; [|done]. intros [= <-].
    apply Reader.complete_states in Hc as [??]. exists i, r, r'. split_and!; [done..|].
    apply fire_readers.
  - destruct (Reader.fail r) as [r'|] eqn:Hc; [|done]. intros [= <-].
    apply Reader.fail_states in Hc as [??]. exists i, r, r'. split_and!; [done..|].
    apply fire_readers.
Qed.

(** The two outcomes of a successful read, by what the store accepts. *)
Lemma after_load_fits i f w :
  (Storage.usage (<[Home.storageKey := Home.toJSON (Home.stored f)]> (session w)) <= quota)%N ->
  after_load i f w =
    set_history (Router.navigate Home.editorPath (history w))
      (set_session (<[Home.storageKey := Home.toJSON (Home.stored f)]> (session w))
         (set_readers (<[i := loaded f]> (readers w)) w)).
Proof.
  intros Hq. unfold after_load, run_task.
  by rewrite (Home.onReaderLoad_fits f _ (Blob.dataURL f)).
Qed.

Lemma after_load_exceeds i f w :
  (quota < Storage.usage (<[Home.storageKey := Home.toJSON (Home.stored f)]> (session w)))%N ->
  after_load i f w =
    add_uncaught QuotaExceededError (set_readers (<[i := loaded f]> (readers w)) w).
Proof.
  intros Hq. unfold after_load, run_task.
  by rewrite (Home.onReaderLoad_exceeds f _ (Blob.dataURL f)).
Qed.

(** ** An upload as one run *)

Lemma lookup_picked f w : readers (picked f w) !! length (readers w) = Some (Home.loading f).
Proof. simpl. by apply list_lookup_middle. Qed.

Lemma insert_picked f w r :
  <[length (readers w) := r]> (readers (picked f w)) = readers w ++ [r].
Proof.
  simpl. rewrite <- (Nat.add_0_r (length (readers w))). by rewrite insert_app_r.
Qed.

(** Picking a file and the end of its read, as one run. *)
Lemma run_upload f w :
  run [Select 0 f; Load (length (readers w))] w =
  Some (after_load (length (readers w)) f (picked f w)).
Proof.
  rewrite (run_cons _ _ _ (picked f w)) by (by apply exec_Select).
  by rewrite (run_cons _ _ _ (after_load (length (readers w)) f (picked f w)))
    by apply exec_Load_loading, lookup_picked.
Qed.

End with_platform.

End System.
