(* ===== verification/Scenarios.v ===== *)
(** * Uploads from start to end

    The runs of the event loop that make an upload: the file is picked,
    then its read ends.  What the store and the history hold afterwards,
    when the store accepts the record, when it refuses it, when the read
    fails, and when two reads end in the other order than they started. *)

From stdpp Require Import gmap.
From S2P Require Import Prelude JsString Base64 Json Platform Blob Storage Router FileReader World Samples View Home System.

Module Scenarios.

Import System.

Section with_platform.
Context `{Platform}.
Implicit Types (w : World) (f g : File).

(** The end of a successful read whose record the store accepts. *)
Definition stored_and_navigated (i : nat) f w : World :=
  set_history (Router.navigate Home.editorPath (history w))
    (set_session (<[Home.storageKey := Home.toJSON (Home.stored f)]> (session w))
       (set_readers (<[i := loaded f]> (readers w)) w)).

(** C1: an upload, from the pick to the end of the read, when the type
    of the file has no comma, its data URL has its header and its data,
    and the store has room: the store holds the payload of the file
    under ['uploadedFile'] and the page is on ['/editor'], one entry
    further in the history. *)
Theorem upload_hands_off_payload f w :
  comma ∉ type f -> Blob.packaged f ->
  (Storage.usage (<[Home.storageKey := Home.toJSON (Home.payload f)]> (session w)) <= quota)%N ->
  exists w', run [Select 0 f; Load (length (readers w))] w = Some w' /\
    Storage.getItem Home.storageKey (session w') = Some (Home.toJSON (Home.payload f)) /\
    history w' = Router.navigate Home.editorPath (history w) /\
    readers w' = readers w ++ [loaded f] /\
    uncaught w' = uncaught w.
Proof.
  intros Hf Hp Hq. rewrite run_upload. eexists. split; [done|].
  rewrite <- (Home.stored_payload f Hf Hp) in *.
  rewrite after_load_fits by done. simpl.
  split_and!; [apply lookup_insert_eq | done | apply (insert_picked f w) | done].
Qed.

(** C16: an upload the store refuses: the record is not stored, the page
    does not navigate, and the user is told nothing; the exception is
    reported to the browser only. *)
Theorem upload_over_quota_is_silent f w :
  (quota < Storage.usage (<[Home.storageKey := Home.toJSON (Home.stored f)]> (session w)))%N ->
  exists w', run [Select 0 f; Load (length (readers w))] w = Some w' /\
    session w' = session w /\ history w' = history w /\
    readers w' = readers w ++ [loaded f] /\
    uncaught w' = QuotaExceededError :: uncaught w.
Proof.
  intros Hq. rewrite run_upload. eexists. split; [done|].
  rewrite after_load_exceeds by done. simpl.
  split_and!; [done | done | apply (insert_picked f w) | done].
Qed.

(** C37: a read that fails changes nothing the user or the next page can
    see: the [error] event is fired at the reader, and the page has
    assigned no handler for it. *)
Theorem failed_read_is_silent f w :
  exists w', run [Select 0 f; Fail (length (readers w))] w = Some w' /\
    session w' = session w /\ history w' = history w /\
    readers w' = readers w ++ [failed f] /\
    uncaught w' = uncaught w.
Proof.
  rewrite (run_cons _ _ _ (picked f w)) by (by apply exec_Select).
  rewrite (run_cons _ _ _ (set_readers (<[length (readers w) := failed f]> (readers (picked f w))) (picked f w)))
    by apply exec_Fail_loading, lookup_picked.
  eexists. split; [done|]. simpl.
  split_and!; [done | done | apply (insert_picked f w) | done].
Qed.

(** C35: the upload area is the only component of the rendered page
    that calls back into it, and a pick does one thing: it starts the
    read of the picked file, on a reader of its own whose handler has
    captured the file.  The store and the history are not touched until
    the read ends. *)
Theorem pick_starts_one_read k f w :
  exec (Select k f) w = if decide (k = 0%nat) then Some (picked f w) else None.
Proof.
  case_decide as Hk; [by apply exec_Select|].
  destruct (exec (Select k f) w) eqn:Hex; [|done].
  by apply exec_Select in Hex as [? _].
Qed.

Lemma exec_Load_fits i f w :
  readers w !! i = Some (Home.loading f) ->
  (Storage.usage (<[Home.storageKey := Home.toJSON (Home.stored f)]> (session w)) <= quota)%N ->
  exec (Load i) w = Some (stored_and_navigated i f w).
Proof. intros Hi Hq. rewrite (exec_Load_loading i f) by done. by rewrite after_load_fits. Qed.

(** C20: two files picked one after the other, each with a record that
    fits in the store, the read of the second ending first: the store
    ends up with the record of the file picked first, because its read
    ended last, and the page has navigated twice. *)
Theorem last_finished_read_wins f g w :
  let n := length (readers w) in
  (Storage.usage (<[Home.storageKey := Home.toJSON (Home.stored f)]> (session w)) <= quota)%N ->
  (Storage.usage (<[Home.storageKey := Home.toJSON (Home.stored g)]> (session w)) <= quota)%N ->
  exists w', run [Select 0 f; Select 0 g; Load (S n); Load n] w = Some w' /\
    Storage.getItem Home.storageKey (session w') = Some (Home.toJSON (Home.stored f)) /\
    Router.entries (history w') =
      Home.editorPath :: Home.editorPath :: Router.entries (history w) /\
    readers w' = readers w ++ [loaded f; loaded g].
Proof.
  intros n Hf Hg.
  set (w2 := picked g (picked f w)).
  assert (length (readers (picked f w)) = S n) as Hlen
    by (simpl; rewrite length_app; simpl; lia).
  assert (readers w2 !! S n = Some (Home.loading g)) as H2
    by (rewrite <- Hlen; apply lookup_picked).
  set (w3 := stored_and_navigated (S n) g w2).
  assert (readers w3 = readers w ++ [Home.loading f; loaded g]) as Hr3.
  { subst w3. simpl. rewrite <- Hlen. rewrite (insert_picked g (picked f w)). simpl.
    by rewrite <- app_assoc. }
  assert (readers w3 !! n = Some (Home.loading f)) as H3
    by (rewrite Hr3; by apply list_lookup_middle).
  exists (stored_and_navigated n f w3). split_and!.
  - rewrite (run_cons _ _ _ (picked f w)) by (by apply exec_Select).
    rewrite (run_cons _ _ _ w2) by (by apply exec_Select).
    rewrite (run_cons _ _ _ w3) by (by apply exec_Load_fits).
    rewrite (run_cons _ _ _ (stored_and_navigated n f w3)); [done|].
    apply exec_Load_fits; [done|]. simpl. by rewrite insert_insert_eq.
  - apply lookup_insert_eq.
  - reflexivity.
  - change (<[n := loaded f]> (readers w3) = readers w ++ [loaded f; loaded g]).
    rewrite Hr3, <- (Nat.add_0_r n). subst n. by rewrite insert_app_r.
Qed.

End with_platform.

(** ** The scenarios on concrete inputs *)

Lemma upload_hands_off_payload_witness :
  exists w', @run reference_platform [Select 0 sample_png; Load 0] start = Some w' /\
    Storage.getItem Home.storageKey (session w') =
      Some (Home.toJSON (Home.payload sample_png)) /\
    history w' = Router.navigate Home.editorPath root /\
    readers w' = [@loaded reference_platform sample_png] /\
    uncaught w' = [].
Proof.
  apply (@upload_hands_off_payload reference_platform sample_png start); by_compute.
Defined.

Lemma upload_over_quota_is_silent_witness :
  exists w', @run tiny_platform [Select 0 sample_png; Load 0] start = Some w' /\
    session w' = ∅ /\ history w' = root /\
    readers w' = [@loaded tiny_platform sample_png] /\
    uncaught w' = [QuotaExceededError].
Proof.
  apply (@upload_over_quota_is_silent tiny_platform sample_png start); by_compute.
Defined.

Lemma last_finished_read_wins_witness :
  exists w', @run reference_platform
      [Select 0 sample_png; Select 0 sample_untyped; Load 1; Load 0] start = Some w' /\
    Storage.getItem Home.storageKey (session w') =
      Some (Home.toJSON (Home.payload sample_png)) /\
    Router.entries (history w') = [js "/editor"; js "/editor"; js "/"] /\
    readers w' = [@loaded reference_platform sample_png;
                  @loaded reference_platform sample_untyped].
Proof.
  apply (@last_finished_read_wins reference_platform sample_png sample_untyped start);
    by_compute.
Defined.

(** The same failure on a reader that is not the page's: with the
    arrow function of line 12 assigned to [onerror] as well, the
    handler runs on the [error] event, finds no result and throws. *)
Example error_handler_would_throw :
  uncaught <$>
    @exec reference_platform (Fail 0)
      (set_readers [{| readyState := LOADING; result_ := None; blob := Some sample_png;
                       onload := Some (OnLoad sample_png);
                       onerror := Some (OnLoad sample_png) |}] start) =
  Some [TypeError].
Proof. reflexivity. Qed.

End Scenarios.
