(* ===== verification/Handoff.v ===== *)
(** * What the next page reads

    The editor page takes the record out of the session store: it parses
    the JSON text, reads the three properties and decodes the Base64 text.
    [readUpload] is that reader; the theorems say that it gets the file
    the user picked. *)

From stdpp Require Import gmap.
From Stdlib.Strings Require Import Byte.
From S2P Require Import Prelude JsString Base64 Json JsonParse Platform Blob Storage Router FileReader World Samples View Home System.

Module Handoff.

Import System.

(** [JSON.parse(text)], read as the record of the page. *)
Definition fromJSON (s : jsstring) : option Home.FileData :=
  o ← JsonParse.parse s;
  n ← JsonParse.get (js "fileName") o;
  t ← JsonParse.get (js "fileType") o;
  Some {| Home.fileName := n; Home.fileType := t;
          Home.fileData := JsonParse.get (js "fileData") o |}.

(** The file the next page finds in the store. *)
Definition readUpload (w : World) : option File :=
  s ← Storage.getItem Home.storageKey (session w);
  d ← fromJSON s;
  b64 ← Home.fileData d;
  bs ← decode b64;
  Some {| name := Home.fileName d; type := Home.fileType d; bytes := bs |}.

(** The three members of the record, read back. *)
Lemma fromJSON_members (n t : jsstring) (b : option jsstring) :
  fromJSON (Json.stringify [(js "fileName", Some n); (js "fileType", Some t);
                            (js "fileData", b)]) =
  Some {| Home.fileName := n; Home.fileType := t; Home.fileData := b |}.
Proof. unfold fromJSON. rewrite JsonParse.parse_stringify. by destruct b. Qed.

(** The file read is the record of the store with its data decoded. *)
Lemma readUpload_record (w : World) (d : Home.FileData) (bs : list byte) :
  Storage.getItem Home.storageKey (session w) ≫= fromJSON = Some d ->
  Home.fileData d ≫= decode = Some bs ->
  readUpload w = Some {| name := Home.fileName d; type := Home.fileType d; bytes := bs |}.
Proof.
  unfold readUpload. intros Hd Hbs.
  destruct (Storage.getItem Home.storageKey (session w)) as [s|]; [|done].
  cbn [mbind option_bind] in *. rewrite Hd. cbn [mbind option_bind].
  destruct (Home.fileData d) as [b64|]; [|done]. cbn [mbind option_bind] in *. by rewrite Hbs.
Qed.

Section with_platform.
Context `{Platform}.

(** C2: the hand-off is lossless: after an upload of a file whose type
    has no comma and whose data URL has its header and its data, with
    room in the store, the next page reads from the store the very file
    the user picked: its name, its type and its bytes. *)
Theorem handoff_lossless (f : File) (w : World) :
  comma ∉ type f -> Blob.packaged f ->
  (Storage.usage (<[Home.storageKey := Home.toJSON (Home.payload f)]> (session w)) <= quota)%N ->
  exists w', run [Select 0 f; Load (length (readers w))] w = Some w' /\
    readUpload w' = Some f.
Proof.
  intros Hf Hp Hq. rewrite run_upload. eexists. split; [done|].
  rewrite <- (Home.stored_payload f Hf Hp) in Hq. rewrite after_load_fits by done.
  rewrite (readUpload_record _ (Home.payload f) (bytes f)); [by destruct f | | apply decode_base64].
  unfold Storage.getItem. cbn [session set_history set_session].
  rewrite lookup_insert_eq, (Home.stored_payload f Hf Hp). cbn [mbind option_bind].
  unfold Home.toJSON. by rewrite fromJSON_members.
Qed.

(** C6: the record survives the store: whatever the name, the type and
    the data are (quotes, backslashes, control characters and lone
    surrogates included), the JSON text the page writes is read back as
    the same record, and a missing [fileData] as missing. *)
Theorem record_reads_back (d : Home.FileData) (m m' : storage) :
  Storage.setItem Home.storageKey (Home.toJSON d) m = Ok m' ->
  Storage.getItem Home.storageKey m' ≫= fromJSON = Some d.
Proof.
  intros Hset. rewrite (Storage.getItem_setItem _ _ _ _ Hset). cbn [mbind option_bind].
  destruct d. apply fromJSON_members.
Qed.

(** C33: the data of the record decodes to the bytes of the file: what
    [split(',')[1]] keeps of the data URL is Base64 text that the reader
    decodes to exactly the bytes that were read. *)
Theorem payload_decodes (f : File) :
  comma ∉ type f -> Blob.packaged f ->
  Home.stripPrefix (Blob.dataURL f) ≫= decode = Some (bytes f).
Proof.
  intros Hf Hp. rewrite Home.stripPrefix_dataURL_eq by done. apply decode_base64.
Qed.

(** The text of a record parses as the record. *)
Lemma fromJSON_toJSON (d : Home.FileData) : fromJSON (Home.toJSON d) = Some d.
Proof. destruct d. apply fromJSON_members. Qed.

(** A store that holds the record of a file hands over that file. *)
Lemma readUpload_payload (f : File) (w : World) :
  Storage.getItem Home.storageKey (session w) = Some (Home.toJSON (Home.payload f)) ->
  readUpload w = Some f.
Proof.
  intros Hw.
  rewrite (readUpload_record _ (Home.payload f) (bytes f)); [by destruct f | | apply decode_base64].
  rewrite Hw. apply fromJSON_toJSON.
Qed.

(** C17: a file without bytes, where the user agent reads it as
    [data:]: the data URL has no comma, so [split(',')[1]] is
    [undefined] and [JSON.stringify] leaves [fileData] out.  When the
    record of the name and the type fits in the store, the page stores
    it and navigates all the same, and the next page finds a name and
    a type but no data: no file is handed over. *)
Theorem empty_file_hands_off_no_data (f : File) (w : World) :
  bare_empty = true -> bytes f = [] ->
  (Storage.usage (<[Home.storageKey := Home.toJSON (Home.dataless f)]> (session w)) <= quota)%N ->
  exists w', run [Select 0 f; Load (length (readers w))] w = Some w' /\
    Storage.getItem Home.storageKey (session w') ≫= fromJSON = Some (Home.dataless f) /\
    history w' = Router.navigate Home.editorPath (history w) /\
    readUpload w' = None.
Proof.
  intros Hb Hf Hq. rewrite run_upload. eexists. split; [done|].
  rewrite <- (Home.stored_bare f Hb Hf) in Hq. rewrite after_load_fits by done.
  unfold readUpload, Storage.getItem. cbn [session history set_history set_session].
  rewrite lookup_insert_eq, (Home.stored_bare f Hb Hf). cbn [mbind option_bind].
  by rewrite fromJSON_toJSON.
Qed.

(** What the page stores for a file whose type has one comma. *)
Lemma stored_one_comma (f : File) (a b : jsstring) :
  type f = a ++ comma :: b -> comma ∉ a -> comma ∉ b -> Blob.packaged f ->
  Home.stored f = Home.headed f b.
Proof.
  intros Hf Ha Hb Hp. unfold Home.stored, Home.headed. f_equal.
  rewrite (Home.dataURL_type_with_comma f a b Hf Hp). unfold Home.stripPrefix.
  rewrite JsString.index_split_1, JsString.split_app_sep; [done | |];
    rewrite not_elem_of_app; split; auto; by_compute.
Qed.

(** The end of a header is not Base64 text. *)
Lemma decode_header_rest (b : jsstring) :
  decode (b ++ js ";base64") = (None : option (list byte)).
Proof.
  apply (Base64.decode_not_base64 59%N); [|apply Home.semicolon_not_base64].
  apply elem_of_app. right. by_compute.
Qed.

(** C18: a file whose type has one comma, from the pick to the next
    page: when the record fits, the page stores it and navigates to
    ['/editor'] as for any file, but the record holds the end of the
    header where the data should be, which is not Base64 text: the
    next page finds the name and the type and can read no file. *)
Theorem comma_type_hands_off_no_file (f : File) (a b : jsstring) (w : World) :
  type f = a ++ comma :: b -> comma ∉ a -> comma ∉ b -> Blob.packaged f ->
  (Storage.usage (<[Home.storageKey := Home.toJSON (Home.headed f b)]> (session w)) <= quota)%N ->
  exists w', run [Select 0 f; Load (length (readers w))] w = Some w' /\
    Storage.getItem Home.storageKey (session w') ≫= fromJSON = Some (Home.headed f b) /\
    history w' = Router.navigate Home.editorPath (history w) /\
    readUpload w' = None.
Proof.
  intros Hf Ha Hb Hp Hq. rewrite run_upload. eexists. split; [done|].
  rewrite <- (stored_one_comma f a b Hf Ha Hb Hp) in Hq. rewrite after_load_fits by done.
  unfold readUpload, Storage.getItem. cbn [session history set_history set_session].
  rewrite lookup_insert_eq, (stored_one_comma f a b Hf Ha Hb Hp). cbn [mbind option_bind].
  rewrite fromJSON_toJSON. cbn [mbind option_bind Home.headed Home.fileData].
  by rewrite decode_header_rest.
Qed.

End with_platform.

(** ** On concrete inputs *)

Lemma handoff_lossless_witness :
  exists w', @run reference_platform [Select 0 sample_png; Load 0] start = Some w' /\
    readUpload w' = Some sample_png.
Proof.
  apply (@handoff_lossless reference_platform sample_png start); by_compute.
Defined.

Lemma record_reads_back_witness :
  Storage.getItem Home.storageKey
    (<[Home.storageKey := Home.toJSON (Home.mkFileData [34; 92; 10; 55296]%N [] None)]> ∅)
    ≫= fromJSON =
  Some (Home.mkFileData [34; 92; 10; 55296]%N [] None).
Proof.
  apply (@record_reads_back reference_platform
           (Home.mkFileData [34; 92; 10; 55296]%N [] None) ∅).
  reflexivity.
Defined.

Lemma payload_decodes_witness :
  Home.stripPrefix (@Blob.dataURL reference_platform sample_untyped) ≫= decode =
  Some [x4d; x61].
Proof. apply (@payload_decodes reference_platform sample_untyped); by_compute. Defined.

Lemma empty_file_hands_off_no_data_witness :
  exists w', @run bare_platform [Select 0 sample_empty; Load 0] start = Some w' /\
    Storage.getItem Home.storageKey (session w') ≫= fromJSON =
      Some (Home.dataless sample_empty) /\
    history w' = Router.navigate Home.editorPath root /\
    readUpload w' = None.
Proof.
  apply (@empty_file_hands_off_no_data bare_platform sample_empty start); by_compute.
Defined.

Lemma comma_type_hands_off_no_file_witness :
  exists w', @run reference_platform [Select 0 sample_comma; Load 0] start = Some w' /\
    Storage.getItem Home.storageKey (session w') ≫= fromJSON =
      Some (Home.headed sample_comma (js "y")) /\
    history w' = Router.navigate Home.editorPath root /\
    readUpload w' = None.
Proof.
  apply (@comma_type_hands_off_no_file reference_platform sample_comma
           (js "application/x") (js "y") start); [reflexivity | by_compute..].
Defined.

(** The same file, where the data URL of a file without bytes is the
    header and no data: the next page reads back the empty file. *)
Example empty_file_packaged :
  @run reference_platform [Select 0 sample_empty; Load 0] start ≫= readUpload =
  Some sample_empty.
Proof. reflexivity. Qed.

Example stored_text_png :
  Home.toJSON (Home.payload sample_png) =
  jsq "{'fileName':'a.png','fileType':'image/png','fileData':'TWFu'}".
Proof. reflexivity. Qed.

Example stored_text_escapes :
  Home.toJSON (Home.mkFileData [34; 92; 10; 55296]%N (js "image/png") (Some (js "TWFu"))) =
  jsq "{'fileName':'\'\\\n\ud800','fileType':'image/png','fileData':'TWFu'}".
Proof. reflexivity. Qed.

End Handoff.
