(* ===== verification/Typing.v ===== *)
(** * Strings stay strings

    The numbers of a JavaScript string are code units, below [65536].
    [typed] says that everything the tab holds is made of such strings:
    the keys and values of the store, the entries of the history, and
    the names, types and results the readers hold; and that every
    reader is in a state of its machine.  Every task keeps a typed world
    typed, when the files the upload area hands over are [File] objects
    of the platform. *)

From stdpp Require Import gmap.
From S2P Require Import Prelude JsString Base64 Json Platform Blob Storage Router FileReader World Samples View Home System.

Module Typing.

Import System.

(** The file a handler has captured. *)
Definition closure_ok (c : closure) : Prop :=
  match c with OnLoad f => file_ok f end.

(** A reader is in a state of its machine, and what it holds is made of
    strings. *)
Definition reader_ok (r : FileReader closure) : Prop :=
  Reader.wf r /\
  from_option file_ok True (blob r) /\
  from_option code_units True (result_ r) /\
  from_option closure_ok True (onload r) /\
  from_option closure_ok True (onerror r).

Record typed (w : World) : Prop := mkTyped {
  typed_session : Storage.store_ok (session w);
  typed_history : Forall code_units (Router.entries (history w));
  typed_readers : Forall reader_ok (readers w);
}.

(** The files a task brings in are files of the platform. *)
Definition task_ok (t : task) : Prop := if t is Select _ f then file_ok f else True.

#[export] Instance task_ok_dec t : Decision (task_ok t).
Proof. destruct t; apply _. Defined.

Section with_platform.
Context `{Platform}.
Implicit Types (w : World) (f : File) (r : FileReader closure).

Lemma typed_fresh s h :
  Storage.store_ok s -> Forall code_units (Router.entries h) -> typed (fresh s h).
Proof. by split. Qed.

Lemma typed_add_uncaught e w : typed w -> typed (add_uncaught e w).
Proof. by intros []. Qed.

Lemma typed_set_readers rs w : Forall reader_ok rs -> typed w -> typed (set_readers rs w).
Proof. by intros ? []. Qed.

(** ** The operations on readers *)

Lemma loading_ok f : file_ok f -> reader_ok (Home.loading f).
Proof. intros [??]. split; [split; simpl; [eauto | by intros [? ?]] | by repeat split]. Qed.

Lemma complete_ok r r' : reader_ok r -> Reader.complete r = Some r' -> reader_ok r'.
Proof.
  intros (_ & Hb & _ & Hc & He) Hr. split; [by eapply Reader.complete_wf|]. revert Hr.
  unfold Reader.complete.
  destruct (readyState r), (blob r) as [f|] eqn:Hf; intros [= <-].
  repeat split; simpl; try done; [apply Hb.. | apply Blob.dataURL_code_units, Hb].
Qed.

Lemma fail_ok r r' : reader_ok r -> Reader.fail r = Some r' -> reader_ok r'.
Proof.
  intros (_ & Hb & _ & Hc & He) Hr. split; [by eapply Reader.fail_wf|]. revert Hr.
  unfold Reader.fail. destruct (readyState r); by intros [= <-].
Qed.

(** ** The handler *)

Lemma typed_onReaderLoad file e w :
  file_ok file -> from_option code_units True (Home.eventResult e) ->
  typed w -> typed (run_task (Home.onReaderLoad file e) w).
Proof.
  intros Hfile He Hw.
  destruct (Home.run_onReaderLoad file e w) as [[err ->] | (d & Hd & ->)];
    [by apply typed_add_uncaught|].
  destruct Hw as [Hs Hh Hr].
  split; simpl; [|by constructor; auto using Home.editorPath_code_units|done].
  apply map_Forall_insert_2; [|done]. split; [apply Home.storageKey_code_units|].
  eapply Home.toJSON_code_units, Home.makeFileData_ok; done.
Qed.

Lemma typed_fire c r w :
  from_option closure_ok True c -> reader_ok r -> typed w -> typed (fire c r w).
Proof.
  intros Hc (_ & _ & Hres & _) Hw. destruct c as [[file]|]; [|done].
  by apply typed_onReaderLoad.
Qed.

(** ** Every task keeps the world typed *)

Lemma exec_typed t w w' : task_ok t -> typed w -> exec t w = Some w' -> typed w'.
Proof.
  intros Ht Hw. pose proof (typed_readers w Hw) as Hrs.
  destruct t as [k f|i|i]; unfold exec at 1.
  - intros [_ ->]%exec_Select. apply typed_set_readers; [|done].
    apply Forall_app. split; [done|]. constructor; [by apply loading_ok | constructor].
  - destruct (readers w !! i) as [r|] eqn:Hi; [|done]. cbn [mbind option_bind].
    destruct (Reader.complete r) as [r'|] eqn:Hc; [|done]. intros [= <-].
    assert (reader_ok r') as Hr' by (eapply complete_ok; [by eapply Forall_lookup_1|done]).
    apply typed_fire; [apply Hr' | done |]. apply typed_set_readers; [|done].
    by apply Forall_insert.
  - destruct (readers w !! i) as [r|] eqn:Hi; [|done]. cbn [mbind option_bind].
    destruct (Reader.fail r) as [r'|] eqn:Hc; [|done]. intros [= <-].
    assert (reader_ok r') as Hr' by (eapply fail_ok; [by eapply Forall_lookup_1|done]).
    apply typed_fire; [apply Hr' | done |]. apply typed_set_readers; [|done].
    by apply Forall_insert.
Qed.

(** Strings stay strings: when the store and the history hold strings
    of 16-bit code units and the files that are picked have such names
    and types, everything the model of the page writes is made of
    16-bit code units, and every reader is in a state of its machine,
    after any run of tasks from any typed world.  This is a property of
    the model, whose strings are lists of unbounded numbers: it shows
    that the worlds made of JavaScript strings are closed under the
    tasks, so that the theorems on all worlds are theorems on those. *)
Lemma run_typed ts w w' :
  typed w -> Forall task_ok ts -> run ts w = Some w' -> typed w'.
Proof.
  intros Hw Hts. revert Hw. apply (run_preserves task_ok typed); [|done].
  intros t w0 w1 Ht Hw0 Hex. by apply (exec_typed t w0).
Qed.

End with_platform.

(** ** On a concrete run *)

Example typed_after_upload :
  typed (@after_load reference_platform 0 sample_png
           (set_readers [Home.loading sample_png] start)).
Proof.
  apply (@run_typed reference_platform [Select 0 sample_png; Load 0] start);
    [apply typed_fresh; [apply map_Forall_empty | by_compute] | by_compute | reflexivity].
Qed.

End Typing.
