(* ===== verification/Invariants.v ===== *)
(** * What holds in every world the page can bring about

    [inv s h w] relates a world [w] to the store [s] and the history [h]
    the page started from.  Every task preserves it ([inv_exec]); the
    safety properties of the page are its fields. *)

From stdpp Require Import gmap.
From S2P Require Import Prelude JsString Base64 Json Platform Blob Storage Router FileReader World Samples View Home System.

Module Invariants.

Import System.

Section with_platform.
Context `{Platform}.
Implicit Types (s : storage) (h : History) (w : World) (f : File).

(** Reads that succeeded. *)
Definition loads w : nat :=
  length (filter (fun r => is_Some (result_ r)) (readers w)).

(** The page has stored the record of a file it read. *)
Definition holds_upload w : Prop :=
  exists f, loaded f ∈ readers w /\
    session w !! Home.storageKey = Some (Home.toJSON (Home.stored f)).

Record inv s h w : Prop := mkInv {
  inv_readers : Forall page_reader (readers w);
  inv_frame : forall k, k <> Home.storageKey -> session w !! k = s !! k;
  inv_value : session w !! Home.storageKey = s !! Home.storageKey \/ holds_upload w;
  inv_history : exists n,
    Router.entries (history w) = replicate n Home.editorPath ++ Router.entries h /\
    (n <> 0%nat -> holds_upload w) /\
    (n + length (uncaught w) = loads w)%nat;
  inv_uncaught : Forall (fun e => e = QuotaExceededError) (uncaught w);
}.

Lemma inv_fresh s h : inv s h (fresh s h).
Proof.
  split; simpl; auto.
  exists 0%nat. by repeat split.
Qed.

(** [holds_upload] survives every change of the readers that keeps the
    loaded ones. *)
Lemma holds_upload_readers w rs :
  (forall f, loaded f ∈ readers w -> loaded f ∈ rs) ->
  holds_upload w -> holds_upload (set_readers rs w).
Proof. intros Hrs (f & Hf & Hs). exists f. split; [apply Hrs, Hf | done]. Qed.

Lemma loaded_insert_keep w i f g r :
  readers w !! i = Some (Home.loading f) ->
  loaded g ∈ readers w -> loaded g ∈ <[i := r]> (readers w).
Proof. intros Hi Hg. by eapply elem_of_insert_keep. Qed.

Lemma loads_snoc_loading w f :
  loads (set_readers (readers w ++ [Home.loading f]) w) = loads w.
Proof.
  unfold loads. simpl. rewrite filter_snoc_length.
  rewrite decide_False by (simpl; by intros [? ?]). lia.
Qed.

Lemma loads_insert_loaded w i f :
  readers w !! i = Some (Home.loading f) ->
  length (filter (fun r => is_Some (result_ r)) (<[i := loaded f]> (readers w))) = S (loads w).
Proof.
  intros Hi. unfold loads.
  pose proof (filter_insert_length (fun r : FileReader closure => is_Some (result_ r))
                (readers w) i _ (loaded f) Hi) as Hc.
  rewrite decide_False in Hc by (simpl; by intros [? ?]).
  rewrite decide_True in Hc by (simpl; eauto). lia.
Qed.

Lemma loads_insert_failed w i f :
  readers w !! i = Some (Home.loading f) ->
  length (filter (fun r => is_Some (result_ r)) (<[i := failed f]> (readers w))) = loads w.
Proof.
  intros Hi. unfold loads.
  pose proof (filter_insert_length (fun r : FileReader closure => is_Some (result_ r))
                (readers w) i _ (failed f) Hi) as Hc.
  rewrite !decide_False in Hc by (simpl; by intros [? ?]). lia.
Qed.

(** ** Every task preserves the invariant *)

Lemma inv_select s h w f :
  inv s h w -> inv s h (set_readers (readers w ++ [Home.loading f]) w).
Proof.
  intros [Hr Hf Hv (n & Hn & Hup & Hc) Hu].
  assert (holds_upload w -> holds_upload (set_readers (readers w ++ [Home.loading f]) w))
    as Hkeep by (apply holds_upload_readers; intros; apply elem_of_app; auto).
  split; simpl; auto.
  - apply Forall_app. split; [done|]. repeat constructor.
  - destruct Hv; auto.
  - exists n. rewrite loads_snoc_loading. auto.
Qed.

Lemma inv_fail s h w i f :
  readers w !! i = Some (Home.loading f) ->
  inv s h w -> inv s h (set_readers (<[i := failed f]> (readers w)) w).
Proof.
  intros Hi [Hr Hf Hv (n & Hn & Hup & Hc) Hu].
  assert (holds_upload w -> holds_upload (set_readers (<[i := failed f]> (readers w)) w))
    as Hkeep by (apply holds_upload_readers; intros; by eapply loaded_insert_keep).
  split; simpl; auto.
  - apply Forall_insert; [done | constructor].
  - destruct Hv; auto.
  - exists n. unfold loads at 1. simpl. rewrite (loads_insert_failed w i f Hi). auto.
Qed.

(** The read succeeded and the store refused the record. *)
Lemma inv_load_exceeds s h w i f :
  readers w !! i = Some (Home.loading f) ->
  inv s h w ->
  inv s h (add_uncaught QuotaExceededError (set_readers (<[i := loaded f]> (readers w)) w)).
Proof.
  intros Hi [Hr Hf Hv (n & Hn & Hup & Hc) Hu].
  assert (holds_upload w -> holds_upload
            (add_uncaught QuotaExceededError (set_readers (<[i := loaded f]> (readers w)) w)))
    as Hkeep.
  { intros (g & Hg & Hs). exists g. split; [by eapply loaded_insert_keep | done]. }
  split; simpl; auto.
  - apply Forall_insert; [done | constructor].
  - destruct Hv; auto.
  - exists n. unfold loads at 1. simpl. rewrite (loads_insert_loaded w i f Hi).
    split_and!; auto; lia.
Qed.

(** The read succeeded and the record was stored. *)
Lemma inv_load_fits s h w i f :
  let v := Home.toJSON (Home.stored f) in
  readers w !! i = Some (Home.loading f) ->
  (Storage.usage (<[Home.storageKey := v]> (session w)) <= quota)%N ->
  inv s h w ->
  inv s h (set_history (Router.navigate Home.editorPath (history w))
             (set_session (<[Home.storageKey := v]> (session w))
                (set_readers (<[i := loaded f]> (readers w)) w))).
Proof.
  intros v Hi Hfit [Hr Hf Hv (n & Hn & Hup & Hc) Hu].
  assert (holds_upload (set_history (Router.navigate Home.editorPath (history w))
             (set_session (<[Home.storageKey := v]> (session w))
                (set_readers (<[i := loaded f]> (readers w)) w)))) as Hnow.
  { exists f. simpl. split; [|apply lookup_insert_eq].
    apply list_elem_of_insert. by eapply lookup_lt_Some. }
  split; simpl; auto.
  - apply Forall_insert; [done | constructor].
  - intros k Hk. rewrite lookup_insert_ne by done. auto.
  - exists (S n). unfold loads at 1. simpl. rewrite (loads_insert_loaded w i f Hi).
    rewrite Router.entries_navigate, Hn. split_and!; auto; lia.
Qed.

Lemma inv_after_load s h w i f :
  readers w !! i = Some (Home.loading f) -> inv s h w -> inv s h (after_load i f w).
Proof.
  intros Hi Hinv.
  destruct (decide (Storage.usage
    (<[Home.storageKey := Home.toJSON (Home.stored f)]> (session w)) <= quota)%N) as [Hq|Hq].
  - rewrite after_load_fits by done. by apply inv_load_fits.
  - rewrite after_load_exceeds by lia. by apply inv_load_exceeds.
Qed.

Lemma inv_exec s h t w w' : inv s h w -> exec t w = Some w' -> inv s h w'.
Proof.
  intros Hinv Hex. destruct t as [k f|i|i].
  - apply exec_Select in Hex as [_ ->]. by apply inv_select.
  - apply exec_Load_inv in Hex as (f & Hi & ->); [|apply Hinv]. by apply inv_after_load.
  - apply exec_Fail_inv in Hex as (f & Hi & ->); [|apply Hinv]. by apply inv_fail.
Qed.

Lemma inv_reachable s h w : reachable (fresh s h) w -> inv s h w.
Proof. induction 1; eauto using inv_fresh, inv_exec. Qed.

(** ** The safety properties of the page *)

(** C31: the page writes one key of the session store: every other key
    holds what it held when the page started. *)
Theorem other_keys_untouched s h w k :
  reachable (fresh s h) w -> k <> Home.storageKey ->
  Storage.getItem k (session w) = Storage.getItem k s.
Proof. intros Hw Hk. by apply (inv_frame s h w (inv_reachable s h w Hw)). Qed.

(** C19: what ['uploadedFile'] holds is what it held at the start, or the
    record of a file the page has read to the end. *)
Theorem stored_value_provenance s h w :
  reachable (fresh s h) w ->
  Storage.getItem Home.storageKey (session w) = Storage.getItem Home.storageKey s \/
  exists f, loaded f ∈ readers w /\
    Storage.getItem Home.storageKey (session w) = Some (Home.toJSON (Home.stored f)).
Proof. intros Hw. apply (inv_value s h w (inv_reachable s h w Hw)). Qed.

Lemma entries_inj (h1 h2 : History) : Router.entries h1 = Router.entries h2 -> h1 = h2.
Proof. destruct h1, h2. by intros [= -> ->]. Qed.

(** C13: the page navigates only after it has stored: once the history
    has moved, the current path is ['/editor'] and the store holds the
    record of a file the page has read. *)
Theorem navigation_after_store s h w :
  reachable (fresh s h) w -> history w <> h ->
  current (history w) = Home.editorPath /\ holds_upload w.
Proof.
  intros Hw Hne.
  destruct (inv_history s h w (inv_reachable s h w Hw)) as (n & Hn & Hup & _).
  destruct n as [|n]; [by apply entries_inj in Hn|].
  split; [by injection Hn | by apply Hup].
Qed.

(** C30: the only exception that escapes the page's handlers is
    [QuotaExceededError]: the [TypeError] of line 16 and the
    [InvalidStateError] of line 21 cannot happen, since the handler
    runs on [load] events only and every pick has a reader of its
    own. *)
Theorem only_quota_errors s h w e :
  reachable (fresh s h) w -> e ∈ uncaught w -> e = QuotaExceededError.
Proof.
  intros Hw He. pose proof (inv_uncaught s h w (inv_reachable s h w Hw)) as Hall.
  rewrite Forall_forall in Hall. by apply Hall.
Qed.

(** C32: every read that succeeded had exactly one outcome, a stored
    record with a navigation or a reported [QuotaExceededError]; reads
    that are pending or failed had none. *)
Theorem one_outcome_per_read s h w :
  reachable (fresh s h) w ->
  (length (past (history w)) + length (uncaught w) = length (past h) + loads w)%nat.
Proof.
  intros Hw.
  destruct (inv_history s h w (inv_reachable s h w Hw)) as (n & Hn & _ & Hc).
  apply (f_equal length) in Hn. rewrite length_app, length_replicate in Hn.
  unfold Router.entries in Hn. simpl in Hn. lia.
Qed.

(** C36: every reader of the page is the reader of one file and is in
    one of three states: reading the file, with no result; done, with
    the data URL of that file as its result; or done with no result,
    its read having failed.  It is well formed, its [load] handler is
    the one that captured the file, and it has no [error] handler. *)
Theorem readers_of_the_page s h w r :
  reachable (fresh s h) w -> r ∈ readers w ->
  Reader.wf r /\
  exists f, blob r = Some f /\ onload r = Some (OnLoad f) /\ onerror r = None /\
    (r = Home.loading f \/ r = loaded f \/ r = failed f).
Proof.
  intros Hw Hr. pose proof (inv_readers s h w (inv_reachable s h w Hw)) as Hall.
  rewrite Forall_forall in Hall. destruct (Hall r Hr) as [f|f|f];
    (split; [split; simpl; [eauto | by intros [? ?]] | exists f; simpl; auto 6]).
Qed.

End with_platform.

(** ** The properties on a concrete run: one upload on the reference
    platform *)

Definition uploaded : World :=
  @after_load reference_platform 0 sample_png (set_readers [Home.loading sample_png] start).

Lemma uploaded_reachable : @reachable reference_platform start uploaded.
Proof. apply (run_reachable [Select 0 sample_png; Load 0]). reflexivity. Qed.

Lemma other_keys_untouched_witness :
  Storage.getItem (js "theme") (session uploaded) = Storage.getItem (js "theme") ∅.
Proof.
  apply (@other_keys_untouched reference_platform ∅ root uploaded (js "theme")
           uploaded_reachable).
  by_compute.
Defined.

Lemma stored_value_provenance_witness :
  Storage.getItem Home.storageKey (session uploaded) = Storage.getItem Home.storageKey ∅ \/
  exists f, @loaded reference_platform f ∈ readers uploaded /\
    Storage.getItem Home.storageKey (session uploaded) =
      Some (Home.toJSON (@Home.stored reference_platform f)).
Proof.
  apply (@stored_value_provenance reference_platform ∅ root uploaded uploaded_reachable).
Defined.

Lemma navigation_after_store_witness :
  current (history uploaded) = Home.editorPath /\ @holds_upload reference_platform uploaded.
Proof.
  apply (@navigation_after_store reference_platform ∅ root uploaded uploaded_reachable).
  by_compute.
Defined.

Lemma only_quota_errors_witness :
  Forall (fun e => e = QuotaExceededError)
    (uncaught (@after_load tiny_platform 0 sample_png
                 (set_readers [Home.loading sample_png] start))).
Proof.
  apply Forall_forall. intros e.
  apply (@only_quota_errors tiny_platform ∅ root).
  apply (run_reachable [Select 0 sample_png; Load 0]). reflexivity.
Defined.

Lemma one_outcome_per_read_witness :
  (length (past (history uploaded)) + length (uncaught uploaded) =
   length (past root) + @loads uploaded)%nat.
Proof.
  apply (@one_outcome_per_read reference_platform ∅ root uploaded uploaded_reachable).
Defined.

Lemma readers_of_the_page_witness :
  Reader.wf (@loaded reference_platform sample_png) /\
  exists f, blob (@loaded reference_platform sample_png) = Some f /\
    onload (@loaded reference_platform sample_png) = Some (OnLoad f) /\
    onerror (@loaded reference_platform sample_png) = None /\
    (@loaded reference_platform sample_png = Home.loading f \/
     @loaded reference_platform sample_png = @loaded reference_platform f \/
     @loaded reference_platform sample_png = failed f).
Proof.
  apply (@readers_of_the_page reference_platform ∅ root uploaded _ uploaded_reachable).
  by_compute.
Defined.

End Invariants.
