(* ===== verification/Progress.v ===== *)
(** * Reads in flight come to an end

    The page starts a read for every file that is picked and never
    cancels one.  [pending] lists the readers whose read is in flight;
    [drain] ends them all, one [Load] task each.  No task of the page
    blocks a read from ending, and the end of a read changes the state
    of no other reader, so the drain always runs to its end and leaves
    no read in flight.  [in_flight] counts the reads in flight: every
    end of a read lowers it by one, so reads cannot end for ever. *)

From stdpp Require Import gmap.
From S2P Require Import Prelude JsString Base64 Json Platform Blob Storage Router FileReader World Samples View Home System Invariants.

Module Progress.

Import System.

Section with_platform.
Context `{Platform}.
Implicit Types (w : World) (f : File) (i j : nat).

(** The state of reader [i], if there is one. *)
Definition state_of w i : option ReadyState := readyState <$> readers w !! i.

(** The readers whose read is in flight, by index. *)
Definition pending w : list nat :=
  filter (fun i => state_of w i = Some LOADING) (seq 0 (length (readers w))).

(** The end of every read in flight, in the order the reads started. *)
Definition drain w : option World := run (Load <$> pending w) w.

(** The number of reads in flight: what every end of a read lowers. *)
Definition in_flight w : nat :=
  length (filter (fun r => readyState r = LOADING) (readers w)).

(** The tasks that end a read. *)
Definition is_end (t : task) : Prop := if t is Select _ _ then False else True.

#[export] Instance is_end_dec t : Decision (is_end t).
Proof. destruct t; apply _. Defined.

Lemma elem_of_pending w i : i ∈ pending w <-> state_of w i = Some LOADING.
Proof.
  unfold pending. rewrite list_elem_of_filter, elem_of_seq. split; [by intros [? _]|].
  intros Hi. split; [done|]. unfold state_of in Hi.
  destruct (readers w !! i) eqn:E; [|done]. apply lookup_lt_Some in E. lia.
Qed.

Lemma pending_NoDup w : NoDup (pending w).
Proof. apply NoDup_filter, NoDup_seq. Qed.

(** A reader of the page that is in flight is one the page started. *)
Lemma loading_page_reader w i :
  Forall page_reader (readers w) -> state_of w i = Some LOADING ->
  exists f, readers w !! i = Some (Home.loading f).
Proof.
  unfold state_of. intros Hall Hi. destruct (readers w !! i) as [r|] eqn:E; [|done].
  eapply Forall_lookup_1 in Hall; [|done]. destruct Hall as [f|f|f]; by eauto.
Qed.

(** The end of a read changes the readers at one index only. *)
Lemma readers_after_load i f w :
  readers (after_load i f w) = <[i := loaded f]> (readers w).
Proof.
  destruct (decide (Storage.usage
    (<[Home.storageKey := Home.toJSON (Home.stored f)]> (session w)) <= quota)%N).
  - by rewrite after_load_fits.
  - by rewrite after_load_exceeds by lia.
Qed.

Lemma state_of_after_load i j f w :
  readers w !! i = Some (Home.loading f) ->
  state_of (after_load i f w) j = if decide (j = i) then Some DONE else state_of w j.
Proof.
  intros Hi. unfold state_of. rewrite readers_after_load.
  destruct (decide (j = i)) as [->|Hne].
  - by rewrite list_lookup_insert_eq by (by eapply lookup_lt_Some).
  - by rewrite list_lookup_insert_ne.
Qed.

Lemma page_readers_after_load i f w :
  Forall page_reader (readers w) -> Forall page_reader (readers (after_load i f w)).
Proof. intros Hall. rewrite readers_after_load. apply Forall_insert; [done | constructor]. Qed.

(** A reader in flight after the reads of [ixs] ended was in flight
    before and is not one of [ixs]. *)
Lemma pending_settled w w' (ixs : list nat) :
  (forall j, state_of w' j = if decide (j ∈ ixs) then Some DONE else state_of w j) ->
  forall j, state_of w' j = Some LOADING -> state_of w j = Some LOADING /\ j ∉ ixs.
Proof. intros Hst j. rewrite Hst. by case_decide. Qed.

(** The reads of a set of readers in flight end one after the other;
    the other readers are as they were. *)
Lemma run_loads (ixs : list nat) w :
  NoDup ixs -> Forall page_reader (readers w) ->
  (forall i, i ∈ ixs -> state_of w i = Some LOADING) ->
  exists w', run (Load <$> ixs) w = Some w' /\
    Forall page_reader (readers w') /\
    length (readers w') = length (readers w) /\
    forall j, state_of w' j = if decide (j ∈ ixs) then Some DONE else state_of w j.
Proof.
  revert w. induction ixs as [|i ixs IH]; intros w Hnd Hall Hload.
  { exists w. split_and!; [done..|]. intros j. by rewrite decide_False by apply not_elem_of_nil. }
  apply NoDup_cons in Hnd as [Hi Hnd].
  destruct (loading_page_reader w i Hall) as [f Hf]; [apply Hload; left|].
  destruct (IH (after_load i f w) Hnd) as (w' & Hrun & Hall' & Hlen & Hst).
  - by apply page_readers_after_load.
  - intros j Hj. rewrite state_of_after_load, decide_False by (done || by intros ->).
    apply Hload. by right.
  - exists w'. split_and!; [|done| |].
    + cbn [fmap list_fmap]. by rewrite (run_cons _ _ _ _ (exec_Load_loading i f w Hf)).
    + by rewrite Hlen, readers_after_load, length_insert.
    + intros j. rewrite Hst, state_of_after_load by done.
      destruct (decide (j ∈ ixs)), (decide (j = i)), (decide (j ∈ i :: ixs)) as [Hc|Hc];
        try done; exfalso; revert Hc; rewrite elem_of_cons; tauto.
Qed.

(** ** The variant *)

(** The end of a read lowers the number of reads in flight by one, in
    any world. *)
Lemma in_flight_end t w w' :
  is_end t -> exec t w = Some w' -> in_flight w = S (in_flight w').
Proof.
  intros Ht (i & r & r' & Hi & Hr & Hr' & Hrs)%exec_end_readers; [|done].
  unfold in_flight. rewrite Hrs.
  pose proof (filter_insert_length (fun r : FileReader closure => readyState r = LOADING)
                (readers w) i r r' Hi) as Hc.
  rewrite decide_True, decide_False in Hc by congruence. lia.
Qed.

(** A pick raises it by one. *)
Lemma in_flight_pick k f w w' :
  exec (Select k f) w = Some w' -> in_flight w' = S (in_flight w).
Proof.
  intros [_ ->]%exec_Select. unfold in_flight. cbn [readers set_readers].
  rewrite filter_snoc_length, decide_True by done. lia.
Qed.

Lemma in_flight_le w : in_flight w <= length (readers w).
Proof. apply length_filter. Qed.

(** C21: every read in flight can end: from any world the page can
    bring about, ending the reads in flight one after the other runs to
    its end, whatever the store accepts, and leaves no read in flight
    and as many readers as before. *)
Theorem pending_reads_drain s h w :
  reachable (fresh s h) w ->
  exists w', drain w = Some w' /\ reachable (fresh s h) w' /\
    pending w' = [] /\ length (readers w') = length (readers w).
Proof.
  intros Hw.
  destruct (run_loads (pending w) w) as (w' & Hrun & _ & Hlen & Hst).
  - apply pending_NoDup.
  - apply (Invariants.inv_readers s h w), Invariants.inv_reachable, Hw.
  - intros i. apply elem_of_pending.
  - exists w'. split_and!; [done | by eauto using reachable_trans, run_reachable | | done].
    apply elem_of_nil_inv. intros j [Hj ?]%elem_of_pending%(pending_settled _ _ _ Hst).
    by apply elem_of_pending in Hj.
Qed.

(** C23: the number of reads in flight counts the ends that are left:
    a run of tasks that only end reads is as long as the number of reads
    in flight that it takes away, so it is never longer than the number
    of reads in flight, nor than the number of files picked. *)
Theorem ends_bounded ts w w' :
  Forall is_end ts -> run ts w = Some w' ->
  length ts + in_flight w' = in_flight w /\ length ts <= length (readers w).
Proof.
  intros Hts Hrun. pose proof (in_flight_le w) as Hle.
  enough (length ts + in_flight w' = in_flight w) by lia.
  clear Hle. revert ts w w' Hts Hrun. apply run_induction; [done|].
  intros t ts w w1 w' Ht Hex _ IH. rewrite (in_flight_end t w w1) by done. cbn [length]. lia.
Qed.

End with_platform.

(** ** On a concrete run: two files picked, both reads in flight *)

Definition two_picked : World :=
  set_readers [Home.loading sample_png; Home.loading sample_untyped] start.

Lemma two_picked_reachable : @reachable reference_platform start two_picked.
Proof. apply (run_reachable [Select 0 sample_png; Select 0 sample_untyped]). reflexivity. Qed.

Lemma pending_reads_drain_witness :
  exists w', @drain reference_platform two_picked = Some w' /\
    @reachable reference_platform start w' /\
    pending w' = [] /\ length (readers w') = 2%nat.
Proof.
  apply (@pending_reads_drain reference_platform ∅ root two_picked two_picked_reachable).
Defined.

Lemma ends_bounded_witness :
  2 + in_flight (@after_load reference_platform 0 sample_png
                   (set_readers [Home.loading sample_png; System.failed sample_untyped] start)) =
    in_flight two_picked /\
  2 <= length (readers two_picked).
Proof.
  apply (@ends_bounded reference_platform [Fail 1; Load 0] two_picked);
    [by_compute | reflexivity].
Defined.

Example pending_two_picked : pending two_picked = [0; 1]%nat.
Proof. reflexivity. Qed.

End Progress.
