(* ===== verification/Interleaving.v ===== *)
(** * The order in which reads end

    The reads the page has started end in an order the page does not
    choose.  [alike] relates two worlds that differ at most in what the
    slot ['uploadedFile'] holds and in the order of the reports; it is an
    equivalence that every task respects.  Up to [alike], the ends of
    reads commute: the order decides which record stays in the slot and
    nothing else.  [extends] is the preorder in which every task goes
    up: the page adds to the history, to the reports and to the
    readers, and takes nothing back. *)

From stdpp Require Import gmap.
From S2P Require Import Prelude JsString Base64 Json Platform Blob Storage Router FileReader World Samples View Home System Progress.

(** What the end of a read does to the tab, besides settling its reader:
    what the handler of the event does, if the reader has one. *)
Inductive effect : Type :=
| Store (v : jsstring)   (** the record is stored and the page navigates *)
| Report (e : exn)       (** an exception is reported *)
| Nothing.               (** no handler ran *)

Module Interleaving.

Import System Progress.

Record alike (w1 w2 : World) : Prop := mkAlike {
  alike_rest :
    delete Home.storageKey (session w1) = delete Home.storageKey (session w2);
  alike_history : history w1 = history w2;
  alike_readers : readers w1 = readers w2;
  alike_uncaught : uncaught w1 ≡ₚ uncaught w2;
}.

#[export] Instance alike_equiv : Equivalence alike.
Proof.
  split.
  - by intros w.
  - intros w1 w2 []. by split.
  - intros w1 w2 w3 [] []. split; by etrans.
Qed.

(** [w'] has what [w] has and more: the history and the reports of [w]
    are the oldest of [w'], the other keys of the store are the same,
    and every reader of [w] is there, with its file and its handlers. *)
Record extends (w w' : World) : Prop := mkExtends {
  ext_history : Router.entries (history w) `suffix_of` Router.entries (history w');
  ext_uncaught : uncaught w `suffix_of` uncaught w';
  ext_rest : delete Home.storageKey (session w') = delete Home.storageKey (session w);
  ext_readers : forall i r, readers w !! i = Some r ->
    exists r', readers w' !! i = Some r' /\ blob r' = blob r /\
      onload r' = onload r /\ onerror r' = onerror r;
}.

#[export] Instance extends_preorder : PreOrder extends.
Proof.
  split.
  - intros w. split; [done..|]. intros i r Hr. by exists r.
  - intros w1 w2 w3 [Hh1 Hu1 Hs1 Hr1] [Hh2 Hu2 Hs2 Hr2]. split; [by etrans..| |].
    + by rewrite Hs2.
    + intros i r (r1 & Hi1 & Hb1 & Ho1 & He1)%Hr1.
      destruct (Hr2 i r1 Hi1) as (r2 & Hi2 & Hb2 & Ho2 & He2).
      exists r2. split_and!; [done | congruence..].
Qed.

Definition apply_effect (x : effect) (w : World) : World :=
  match x with
  | Store v =>
      set_history (Router.navigate Home.editorPath (history w))
        (set_session (<[Home.storageKey := v]> (session w)) w)
  | Report e => add_uncaught e w
  | Nothing => w
  end.

(** The reader an end task settles, and what becomes of it. *)
Definition end_index (t : task) : nat :=
  match t with Select _ _ => 0 | Load i | Fail i => i end.

Section with_platform.
Context `{Platform}.
Implicit Types (w : World) (r : FileReader closure) (x y : effect) (t u : task).

Definition end_reader t r : option (FileReader closure) :=
  match t with
  | Load _ => Reader.complete r
  | Fail _ => Reader.fail r
  | Select _ _ => None
  end.

(** What the handler [c] does in [w], run on an event fired at [r]. *)
Definition handler_effect (c : option closure) r w : effect :=
  match c with
  | Some (OnLoad file) =>
      match Home.makeFileData file {| target := Some r |} with
      | Ok d =>
          if decide (Storage.usage
               (<[Home.storageKey := Home.toJSON d]> (session w)) <= quota)%N
          then Store (Home.toJSON d) else Report QuotaExceededError
      | Throw err => Report err
      end
  | None => Nothing
  end.

(** What the [load] handler of [r] does in [w]. *)
Definition effect_of r w : effect := handler_effect (onload r) r w.

Definition end_effect t r w : effect :=
  match t with
  | Load _ => effect_of r w
  | Fail _ => handler_effect (onerror r) r w
  | Select _ _ => Nothing
  end.

(** ** Effects *)

Lemma fire_effect c r w : fire c r w = apply_effect (handler_effect c r w) w.
Proof.
  unfold fire, handler_effect, dispatch. destruct c as [[file]|]; [|done].
  rewrite Home.run_onReaderLoad_eq. by destruct (Home.makeFileData _ _); [case_decide|].
Qed.

(** What a handler does depends on the keys of the store other than the
    slot, and on nothing else of the world. *)
Lemma handler_effect_rest c r w1 w2 :
  delete Home.storageKey (session w1) = delete Home.storageKey (session w2) ->
  handler_effect c r w1 = handler_effect c r w2.
Proof.
  intros Hrest. unfold handler_effect. destruct c as [[file]|]; [|done].
  destruct (Home.makeFileData _ _) as [d|]; [|done].
  by rewrite (Storage.usage_insert_rest _ _ _ _ Hrest).
Qed.

Lemma effect_of_rest r w1 w2 :
  delete Home.storageKey (session w1) = delete Home.storageKey (session w2) ->
  effect_of r w1 = effect_of r w2.
Proof. apply handler_effect_rest. Qed.

Lemma apply_effect_rest x w :
  delete Home.storageKey (session (apply_effect x w)) = delete Home.storageKey (session w).
Proof. destruct x; [apply delete_insert_eq | done..]. Qed.

Lemma apply_effect_readers x w : readers (apply_effect x w) = readers w.
Proof. by destruct x. Qed.

Lemma apply_effect_set_readers x rs w :
  apply_effect x (set_readers rs w) = set_readers rs (apply_effect x w).
Proof. by destruct x. Qed.

#[export] Instance apply_effect_alike x : Proper (alike ==> alike) (apply_effect x).
Proof.
  intros w1 w2 [Hrest Hh Hr Hu]. destruct x; split; simpl; try done.
  - by rewrite !delete_insert_eq.
  - by rewrite Hh.
  - by constructor.
Qed.

#[export] Instance set_readers_alike rs : Proper (alike ==> alike) (set_readers rs).
Proof. intros w1 w2 []. by split. Qed.

(** Two effects in either order leave worlds that are alike. *)
Lemma apply_effect_comm x y w :
  alike (apply_effect x (apply_effect y w)) (apply_effect y (apply_effect x w)).
Proof.
  destruct x, y; split; simpl; try done;
    rewrite ?delete_insert_eq; try done; apply perm_swap.
Qed.

(** ** The end of a read, as an equation *)

Lemma end_effect_rest t r w1 w2 :
  delete Home.storageKey (session w1) = delete Home.storageKey (session w2) ->
  end_effect t r w1 = end_effect t r w2.
Proof. destruct t; [done | apply effect_of_rest | apply handler_effect_rest]. Qed.

Lemma exec_end_eq t w :
  is_end t ->
  exec t w =
    r' ← readers w !! end_index t ≫= end_reader t;
    Some (apply_effect (end_effect t r' w)
            (set_readers (<[end_index t := r']> (readers w)) w)).
Proof.
  destruct t as [k f|i|i]; [by intros []|..]; intros _; unfold exec;
    cbn [end_index end_reader end_effect];
    (destruct (readers w !! i) as [r|]; [|done]); cbn [mbind option_bind end_reader].
  - destruct (Reader.complete r) as [r'|]; [|done]. cbn [mbind option_bind].
    unfold fire_load. by rewrite fire_effect.
  - destruct (Reader.fail r) as [r'|]; [|done]. cbn [mbind option_bind].
    unfold fire_error. by rewrite fire_effect.
Qed.

(** ** Nothing is undone *)

Lemma apply_effect_extends x w : extends w (apply_effect x w).
Proof.
  destruct x; [|split; simpl; [done | by apply suffix_cons_r | done | by eauto]|done].
  split; simpl; [by apply suffix_cons_r | done | apply delete_insert_eq | by eauto].
Qed.

(** The end of a read keeps the file and the handlers of its reader. *)
Lemma end_reader_keeps t r r' :
  end_reader t r = Some r' ->
  blob r' = blob r /\ onload r' = onload r /\ onerror r' = onerror r.
Proof.
  destruct t; [done|..]; unfold end_reader, Reader.complete, Reader.fail;
    repeat case_match; by intros [= <-].
Qed.

Lemma exec_extends t w w' : exec t w = Some w' -> extends w w'.
Proof.
  destruct (decide (is_end t)) as [Ht|Ht].
  - rewrite exec_end_eq by done.
    destruct (readers w !! end_index t) as [r0|] eqn:Hr0; [|done]. cbn [mbind option_bind].
    destruct (end_reader t r0) as [r'|] eqn:Hr'; [|done]. intros [= <-].
    etrans; [|apply apply_effect_extends]. split; simpl; [done..|]. intros i r Hi.
    destruct (decide (i = end_index t)) as [->|Hne].
    + exists r'. rewrite list_lookup_insert_eq by (by eapply lookup_lt_Some).
      split; [done|]. apply (end_reader_keeps t). congruence.
    + exists r. by rewrite list_lookup_insert_ne.
  - destruct t as [k f|i|i]; [|by destruct Ht..]. intros [_ ->]%exec_Select.
    split; simpl; [done..|]. intros i r Hi. exists r. by rewrite (lookup_app_l_Some _ _ _ _ Hi).
Qed.

Lemma run_extends ts w w' : run ts w = Some w' -> extends w w'.
Proof.
  intros Hrun. refine (run_induction (fun _ => True)
    (fun _ w w' => extends w w') _ _ ts w w' _ Hrun); [done | | by apply Forall_true].
  intros t ts0 w0 w1 w2 _ Hex _ IH. etrans; [by eapply exec_extends | done].
Qed.

(** A reader that has been settled is done: no end task takes it. *)
Lemma end_reader_done t u r r' :
  end_reader t r = Some r' -> end_reader u r' = None.
Proof.
  intros Hr.
  assert (readyState r' = DONE) as Hdone.
  { destruct t; [done | by apply Reader.complete_states in Hr as [_ ?]
                 | by apply Reader.fail_states in Hr as [_ ?]]. }
  destruct u; cbn [end_reader]; [done | |].
  - destruct (Reader.complete r') eqn:Hc; [|done].
    apply Reader.complete_states in Hc as [? _]. congruence.
  - destruct (Reader.fail r') eqn:Hc; [|done].
    apply Reader.fail_states in Hc as [? _]. congruence.
Qed.

(** ** Every task respects [alike] *)

#[export] Instance exec_alike t : Proper (alike ==> option_Forall2 alike) (exec t).
Proof.
  intros w1 w2 Hw. destruct (decide (is_end t)) as [Ht|Ht].
  - rewrite !exec_end_eq by done. rewrite (alike_readers _ _ Hw).
    destruct (readers w2 !! end_index t ≫= end_reader t) as [r'|]; [|constructor].
    constructor. rewrite (end_effect_rest t r' w1 w2) by apply Hw. by rewrite Hw.
  - destruct t as [k f|i|i]; [|by destruct Ht..].
    destruct k as [|k]; [|rewrite !exec_Select_S; constructor].
    rewrite !exec_Select_0. constructor. unfold picked.
    rewrite (alike_readers _ _ Hw). by rewrite Hw.
Qed.

#[export] Instance run_alike ts : Proper (alike ==> option_Forall2 alike) (run ts).
Proof.
  induction ts as [|t ts IH]; intros w1 w2 Hw; cbn [run]; [by constructor|].
  destruct (exec_alike t w1 w2 Hw) as [w1' w2' Hw'|]; [by apply IH | constructor].
Qed.

Lemma bind_run_alike ts (m1 m2 : option World) :
  option_Forall2 alike m1 m2 -> option_Forall2 alike (m1 ≫= run ts) (m2 ≫= run ts).
Proof. destruct 1; [by apply run_alike | constructor]. Qed.

(** ** Two ends, in either order *)

(** Two ends on different readers: both readers are settled and both
    handlers have run, each on the world the other left. *)
Lemma run_two_ends t u w :
  is_end t -> is_end u -> end_index t <> end_index u ->
  run [t; u] w =
    rt ← readers w !! end_index t ≫= end_reader t;
    ru ← readers w !! end_index u ≫= end_reader u;
    Some (apply_effect (end_effect u ru w) (apply_effect (end_effect t rt w)
      (set_readers (<[end_index u := ru]> (<[end_index t := rt]> (readers w))) w))).
Proof.
  intros Ht Hu Hne. cbn [run]. rewrite (exec_end_eq t) by done.
  destruct (readers w !! end_index t ≫= end_reader t) as [rt|]; [|done].
  cbn [mbind option_bind]. rewrite (exec_end_eq u) by done.
  rewrite apply_effect_readers. cbn [readers set_readers].
  rewrite list_lookup_insert_ne by done.
  destruct (readers w !! end_index u ≫= end_reader u) as [ru|]; [|done].
  cbn [mbind option_bind]. f_equal.
  rewrite (end_effect_rest u ru _ w) by (by rewrite apply_effect_rest).
  by rewrite <- !apply_effect_set_readers.
Qed.

(** Two ends on the same reader: the second finds the reader done. *)
Lemma run_same_reader t u w :
  is_end t -> is_end u -> end_index t = end_index u -> run [t; u] w = None.
Proof.
  intros Ht Hu Heq. cbn [run]. rewrite (exec_end_eq t) by done.
  destruct (readers w !! end_index t) as [r|] eqn:Hr; [|done]. cbn [mbind option_bind].
  destruct (end_reader t r) as [rt|] eqn:Hrt; [|done]. cbn [mbind option_bind].
  rewrite (exec_end_eq u) by done. rewrite apply_effect_readers, <- Heq.
  cbn [readers set_readers].
  rewrite list_lookup_insert_eq by (by eapply lookup_lt_Some). cbn [mbind option_bind].
  by rewrite (end_reader_done t u r rt).
Qed.

Lemma ends_commute t u w :
  is_end t -> is_end u -> option_Forall2 alike (run [t; u] w) (run [u; t] w).
Proof.
  intros Ht Hu. destruct (decide (end_index t = end_index u)) as [Heq|Hne].
  { rewrite !run_same_reader by done. constructor. }
  rewrite !run_two_ends by done.
  destruct (readers w !! end_index t ≫= end_reader t) as [rt|],
    (readers w !! end_index u ≫= end_reader u) as [ru|]; try constructor.
  rewrite (list_insert_insert_ne _ (end_index t) (end_index u)) by done.
  rewrite !apply_effect_set_readers. apply set_readers_alike, apply_effect_comm.
Qed.

(** C14: the order in which reads end decides which record the slot
    holds and in which order the refusals are reported, and nothing
    else: two schedules of the same ends, in any world, both run or both
    do not, and they leave the same readers, the same history, the same
    other keys and the same reports. *)
Theorem end_order_irrelevant ts ts' w :
  Forall is_end ts -> ts ≡ₚ ts' -> option_Forall2 alike (run ts w) (run ts' w).
Proof.
  intros Hts Hperm. revert w Hts.
  induction Hperm as [|t ts ts' _ IH|t u ts|ts1 ts2 ts3 Hp1 IH1 _ IH2]; intros w Hts.
  - reflexivity.
  - apply Forall_cons in Hts as [_ Hts]. cbn [run].
    destruct (exec t w) as [w1|]; [by apply IH | constructor].
  - apply Forall_cons in Hts as [Ht [Hu _]%Forall_cons].
    rewrite (run_app [t; u] ts), (run_app [u; t] ts). by apply bind_run_alike, ends_commute.
  - etrans; [by apply IH1 | apply IH2]. by rewrite <- Hp1.
Qed.

(** C34: a pick and the end of a read in flight do not see each other:
    in either order they leave the same world. *)
Theorem pick_commutes_with_end t f w :
  is_end t -> is_Some (exec t w) -> run [Select 0 f; t] w = run [t; Select 0 f] w.
Proof.
  intros Ht [w1 Hw1]. rewrite (run_cons _ _ _ _ Hw1).
  rewrite (run_cons _ _ _ (picked f w)) by apply exec_Select_0.
  cbn [run]. rewrite exec_Select_0. unfold picked.
  rewrite exec_end_eq in Hw1 |- * by done. cbn [mbind option_bind readers picked set_readers].
  destruct (readers w !! end_index t) as [r|] eqn:Hr; [|done].
  rewrite (lookup_app_l_Some _ _ _ _ Hr). cbn [mbind option_bind] in *.
  destruct (end_reader t r) as [r'|]; [|done]. injection Hw1 as <-.
  cbn [mbind option_bind]. rewrite apply_effect_readers, <- apply_effect_set_readers.
  cbn [readers set_readers]. by rewrite insert_app_l by (by eapply lookup_lt_Some).
Qed.

(** C26: the page undoes nothing: whatever it does from a world, picks
    and ends of reads in any order, the history only gets new entries,
    the reports are never taken back, the other keys of the store stay
    as they are, and no reader is dropped or changes its file or its
    handlers. *)
Theorem page_only_adds w w' : reachable w w' -> extends w w'.
Proof. induction 1 as [|t w1 w2 _ IH Hex]; [done|]. etrans; [done | by eapply exec_extends]. Qed.

End with_platform.

(** ** On concrete runs *)

Lemma end_order_irrelevant_witness :
  option_Forall2 alike (@run reference_platform [Load 0; Load 1] two_picked)
    (@run reference_platform [Load 1; Load 0] two_picked).
Proof.
  apply (@end_order_irrelevant reference_platform [Load 0; Load 1] [Load 1; Load 0]);
    [by_compute | apply perm_swap].
Defined.

Lemma page_only_adds_witness : extends start two_picked.
Proof. apply (@page_only_adds reference_platform start two_picked), two_picked_reachable. Defined.

Lemma pick_commutes_with_end_witness :
  @run reference_platform [Select 0 sample_text; Load 1] two_picked =
  @run reference_platform [Load 1; Select 0 sample_text] two_picked.
Proof.
  apply (@pick_commutes_with_end reference_platform (Load 1) sample_text two_picked);
    [done | by eexists].
Defined.

End Interleaving.
