(* ===== verification/Schedules.v ===== *)
(** * What a schedule of ends leaves

    However the reads that are in flight end, what the user and the next
    page can see afterwards is read off the effects of the handlers, each
    taken in the world the schedule started from: the slot holds the
    last record that was stored, the history has one more entry for
    every record stored, and the refusals are reported in order.  With
    the reader of the next page ([Handoff]), the file handed over is
    that of the read that ends last. *)

From stdpp Require Import gmap.
From S2P Require Import Prelude JsString Base64 Json JsonParse Platform Blob Storage Router FileReader World Samples View Home System Handoff Invariants Progress Interleaving.

Module Schedules.

Import System Progress Interleaving.

(** The record an effect stores, the exception it reports. *)
Definition store_of (x : effect) : option jsstring :=
  if x is Store v then Some v else None.

Definition report_of (x : effect) : option exn :=
  if x is Report e then Some e else None.

(** [w'] is [w] after the effects [xs], as far as the store, the history
    and the reports go. *)
Record observed (xs : list effect) (w w' : World) : Prop := mkObserved {
  obs_slot :
    Storage.getItem Home.storageKey (session w') =
    from_option Some (Storage.getItem Home.storageKey (session w)) (last (omap store_of xs));
  obs_rest :
    delete Home.storageKey (session w') = delete Home.storageKey (session w);
  obs_history :
    Router.entries (history w') =
    replicate (length (omap store_of xs)) Home.editorPath ++ Router.entries (history w);
  obs_uncaught : uncaught w' = reverse (omap report_of xs) ++ uncaught w;
}.

Section with_platform.
Context `{Platform}.
Implicit Types (w : World) (t u : task) (x : effect) (xs : list effect).

(** What task [t] does in [w], when it is enabled there. *)
Definition effect_at t w : option effect :=
  r ← readers w !! end_index t; r' ← end_reader t r; Some (end_effect t r' w).

Definition effects_of (ts : list task) w : option (list effect) :=
  mapM (fun t => effect_at t w) ts.

Lemma effects_of_cons t ts w :
  effects_of (t :: ts) w = x ← effect_at t w; xs ← effects_of ts w; Some (x :: xs).
Proof. reflexivity. Qed.

(** ** Observations compose *)

Lemma observed_nil w : observed [] w w.
Proof. by split. Qed.

Lemma observed_effect x rs w : observed [x] w (apply_effect x (set_readers rs w)).
Proof.
  destruct x; split; simpl; try done; [apply lookup_insert_eq | apply delete_insert_eq].
Qed.

Lemma observed_app xs ys w1 w2 w3 :
  observed xs w1 w2 -> observed ys w2 w3 -> observed (xs ++ ys) w1 w3.
Proof.
  intros [Hs1 Hr1 Hh1 Hu1] [Hs2 Hr2 Hh2 Hu2]. split.
  - rewrite Hs2, Hs1, omap_app, last_app. by destruct (last (omap store_of ys)).
  - by rewrite Hr2.
  - rewrite Hh2, Hh1, omap_app, length_app, (Nat.add_comm (length _)), replicate_add.
    by rewrite <- app_assoc.
  - by rewrite Hu2, Hu1, omap_app, reverse_app, <- app_assoc.
Qed.

(** ** One end *)

(** The end of a read is its effect on the world it finds. *)
Lemma exec_end_effect t w w1 :
  is_end t -> exec t w = Some w1 ->
  exists x, effect_at t w = Some x /\ observed [x] w w1.
Proof.
  intros Ht. rewrite exec_end_eq by done. unfold effect_at.
  destruct (readers w !! end_index t) as [r|]; [|done]. cbn [mbind option_bind].
  destruct (end_reader t r) as [r'|]; [|done]. intros [= <-].
  eexists. split; [done | apply observed_effect].
Qed.

(** A task that is enabled after the end of a read was enabled before
    it, with the same effect: it ends another read, and what a handler
    does depends on the other keys of the store only. *)
Lemma effect_at_after t u w w1 x :
  is_end t -> exec t w = Some w1 -> effect_at u w1 = Some x -> effect_at u w = Some x.
Proof.
  intros Ht. rewrite exec_end_eq by done.
  destruct (readers w !! end_index t) as [r|] eqn:Hr; [|done]. cbn [mbind option_bind].
  destruct (end_reader t r) as [r'|] eqn:Hr'; [|done]. intros [= <-].
  unfold effect_at. rewrite apply_effect_readers. cbn [readers set_readers].
  destruct (decide (end_index u = end_index t)) as [->|Hne].
  - rewrite list_lookup_insert_eq by (by eapply lookup_lt_Some). cbn [mbind option_bind].
    by rewrite (end_reader_done t u r r').
  - rewrite list_lookup_insert_ne by done.
    destruct (readers w !! end_index u) as [ru|]; [|done]. cbn [mbind option_bind].
    destruct (end_reader u ru) as [ru'|]; [|done]. cbn [mbind option_bind].
    by rewrite (end_effect_rest u ru' _ w) by (by rewrite apply_effect_rest).
Qed.

Lemma effects_of_after t ts w w1 xs :
  is_end t -> exec t w = Some w1 -> effects_of ts w1 = Some xs -> effects_of ts w = Some xs.
Proof.
  intros Ht Hex. unfold effects_of. rewrite !mapM_Some.
  intros Hall. eapply Forall2_impl; [done|]. intros u x. by apply (effect_at_after t).
Qed.

(** The other way round: a task on another reader that was enabled
    before the end of a read is enabled after it. *)
Lemma effect_at_before t u w w1 x :
  is_end t -> exec t w = Some w1 -> end_index u <> end_index t ->
  effect_at u w = Some x -> effect_at u w1 = Some x.
Proof.
  intros Ht. rewrite exec_end_eq by done.
  destruct (readers w !! end_index t ≫= end_reader t) as [r'|]; [|done].
  intros [= <-] Hne. unfold effect_at. rewrite apply_effect_readers. cbn [readers set_readers].
  rewrite list_lookup_insert_ne by done.
  destruct (readers w !! end_index u) as [ru|]; [|done]. cbn [mbind option_bind].
  destruct (end_reader u ru) as [ru'|]; [|done]. cbn [mbind option_bind].
  intros <-. f_equal. apply end_effect_rest. by rewrite apply_effect_rest.
Qed.

Lemma effects_of_before t ts w w1 xs :
  is_end t -> exec t w = Some w1 -> end_index t ∉ end_index <$> ts ->
  effects_of ts w = Some xs -> effects_of ts w1 = Some xs.
Proof.
  intros Ht Hex Hne. unfold effects_of. rewrite !mapM_Some. intros Hall.
  induction Hall as [|u x ts xs Hx _ IH]; constructor.
  - apply (effect_at_before t u w w1 x Ht Hex); [|done]. intros Heq. apply Hne. rewrite <- Heq. left.
  - apply IH. intros Hin. apply Hne. by right.
Qed.

(** A task that has an effect is one that can run. *)
Lemma effect_at_exec t w x :
  is_end t -> effect_at t w = Some x -> is_Some (exec t w).
Proof.
  intros Ht. rewrite exec_end_eq by done. unfold effect_at.
  destruct (readers w !! end_index t) as [r|]; [|done]. cbn [mbind option_bind].
  by destruct (end_reader t r).
Qed.

(** What the reads of the page do when they end, as effects. *)
Lemma effect_at_Load i f w :
  readers w !! i = Some (Home.loading f) ->
  effect_at (Load i) w =
    Some (if decide (Storage.usage
               (<[Home.storageKey := Home.toJSON (Home.stored f)]> (session w)) <= quota)%N
          then Store (Home.toJSON (Home.stored f)) else Report QuotaExceededError).
Proof. intros Hi. unfold effect_at. cbn [end_index]. by rewrite Hi. Qed.

(** The effect of the task a schedule ends with. *)
Lemma effects_of_snoc ts t w xs :
  effects_of (ts ++ [t]) w = Some xs ->
  exists xs0 x, effect_at t w = Some x /\ xs = xs0 ++ [x].
Proof.
  unfold effects_of. rewrite mapM_Some.
  intros (xs0 & k & _ & (x & ? & Hx & ->%Forall2_nil_inv_l & ->)%Forall2_cons_inv_l & ->)
    %Forall2_app_inv_l.
  by exists xs0, x.
Qed.

(** A run of ends is the effects of its tasks, one after the other. *)
Lemma run_effects ts w w' :
  Forall is_end ts -> run ts w = Some w' ->
  exists xs, effects_of ts w = Some xs /\ observed xs w w'.
Proof.
  revert ts w w'. apply run_induction.
  { intros w. exists []. split; [done | apply observed_nil]. }
  intros t ts w w1 w' Ht Hex _ (xs & Hxs & Hobs').
  destruct (exec_end_effect t w w1 Ht Hex) as (x & Hx & Hobs).
  exists (x :: xs). split; [|by apply (observed_app [x] xs w w1 w')].
  by rewrite effects_of_cons, Hx, (effects_of_after t ts w w1 xs Ht Hex Hxs).
Qed.

(** C10: what a schedule of ends leaves is read off the effects of its
    handlers, each taken in the world the schedule starts from: every
    task of a schedule that runs was enabled at the start; the slot holds
    the record stored last, or what it held when none was stored; the
    other keys are untouched; the history has one entry more for every
    record stored; the exceptions are reported in order. *)
Theorem schedule_outcome ts w w' :
  Forall is_end ts -> run ts w = Some w' ->
  exists xs, effects_of ts w = Some xs /\ observed xs w w'.
Proof. apply run_effects. Qed.

(** The next page reads the file whose record was stored last. *)
Lemma effects_deliver xs w w' f :
  observed xs w w' -> last (omap store_of xs) = Some (Home.toJSON (Home.payload f)) ->
  Handoff.readUpload w' = Some f.
Proof.
  intros Hobs Hlast. apply Handoff.readUpload_payload. by rewrite (obs_slot _ _ _ Hobs), Hlast.
Qed.

(** C15: the read that ends last is the one the next page gets: whatever
    reads ended before it, in whatever order, stored or refused or
    failed, when the read of [f] ends last, its data URL has one comma
    and its record fits, the file read back from the store is [f], name,
    type and bytes. *)
Theorem schedule_delivers ts i f w w' :
  Forall is_end ts -> run (ts ++ [Load i]) w = Some w' ->
  readers w !! i = Some (Home.loading f) -> comma ∉ type f -> Blob.packaged f ->
  (Storage.usage (<[Home.storageKey := Home.toJSON (Home.payload f)]> (session w)) <= quota)%N ->
  Handoff.readUpload w' = Some f.
Proof.
  intros Hts Hrun Hi Hf Hp Hq.
  destruct (run_effects (ts ++ [Load i]) w w') as (xs & Hxs & Hobs); [|done|].
  { apply Forall_app. by repeat constructor. }
  apply effects_of_snoc in Hxs as (xs0 & x & Hx & ->).
  rewrite (effect_at_Load i f w Hi), (Home.stored_payload f Hf Hp), decide_True in Hx by done.
  injection Hx as <-. apply (effects_deliver _ w w' f Hobs). by rewrite omap_app, last_app.
Qed.

(** C12: once the page has navigated, the next page finds a file the
    user picked: in every world the page can bring about in which the
    history has moved, the store holds a text that parses as the record
    of a file whose read has ended well, and when the type of that file
    has no comma and its data URL has its header and its data the file
    read back from the store is that file, name, type and bytes: never a
    record that was there before, never part of one. *)
Theorem navigated_page_delivers s h w :
  reachable (fresh s h) w -> history w <> h ->
  exists f, loaded f ∈ readers w /\
    Storage.getItem Home.storageKey (session w) ≫= Handoff.fromJSON = Some (Home.stored f) /\
    (comma ∉ type f -> Blob.packaged f -> Handoff.readUpload w = Some f).
Proof.
  intros Hw%Invariants.inv_reachable Hne.
  destruct (Invariants.inv_history s h w Hw) as (n & Hn & Hup & _).
  destruct n as [|n]; [by apply Invariants.entries_inj in Hn|].
  destruct Hup as (f & Hf & Hs); [done|]. exists f. unfold Storage.getItem.
  split_and!; [done | rewrite Hs; apply Handoff.fromJSON_toJSON |].
  intros Hc Hp. apply Handoff.readUpload_payload. by rewrite <- (Home.stored_payload f Hc Hp).
Qed.

(** C22: a schedule runs when it ends reads that are in flight, each
    once: ends of different readers that are all enabled at the start run
    to the end, in the order given. *)
Theorem schedule_runs ts w xs :
  Forall is_end ts -> NoDup (end_index <$> ts) -> effects_of ts w = Some xs ->
  is_Some (run ts w).
Proof.
  intros Hts. revert w xs. induction Hts as [|t ts Ht Hts IH]; intros w xs Hnd Hxs; [done|].
  rewrite fmap_cons in Hnd. apply NoDup_cons in Hnd as [Ht' Hnd].
  rewrite effects_of_cons in Hxs.
  destruct (effect_at t w) as [x|] eqn:Hx; [|done]. cbn [mbind option_bind] in Hxs.
  destruct (effects_of ts w) as [xs'|] eqn:Hxs'; [|done].
  destruct (effect_at_exec t w x Ht Hx) as [w1 Hex]. cbn [run]. rewrite Hex.
  apply (IH w1 xs' Hnd). by apply (effects_of_before t ts w w1 xs' Ht Hex Ht').
Qed.

End with_platform.

(** ** On a concrete run: of two reads, one fails and then one loads *)

Lemma schedule_outcome_witness :
  exists xs, @effects_of reference_platform [Fail 1; Load 0] two_picked = Some xs /\
    observed xs two_picked
      (@after_load reference_platform 0 sample_png
         (set_readers [Home.loading sample_png; System.failed sample_untyped] start)).
Proof.
  apply (@schedule_outcome reference_platform [Fail 1; Load 0] two_picked);
    [by_compute | reflexivity].
Defined.

Lemma schedule_delivers_witness :
  Handoff.readUpload
    (@after_load reference_platform 0 sample_png
       (@after_load reference_platform 1 sample_untyped two_picked)) = Some sample_png.
Proof.
  apply (@schedule_delivers reference_platform [Load 1] 0 sample_png two_picked);
    [by_compute | reflexivity | reflexivity | by_compute..].
Defined.

Lemma navigated_page_delivers_witness :
  exists f, @loaded reference_platform f ∈ readers Invariants.uploaded /\
    Storage.getItem Home.storageKey (session Invariants.uploaded) ≫= Handoff.fromJSON =
      Some (@Home.stored reference_platform f) /\
    (comma ∉ type f -> @Blob.packaged reference_platform f ->
     Handoff.readUpload Invariants.uploaded = Some f).
Proof.
  apply (@navigated_page_delivers reference_platform ∅ root Invariants.uploaded);
    [apply Invariants.uploaded_reachable | by_compute].
Defined.

Lemma schedule_runs_witness :
  is_Some (@run reference_platform [Load 1; Load 0] two_picked).
Proof.
  eapply (@schedule_runs reference_platform [Load 1; Load 0] two_picked);
    [by_compute | by_compute | reflexivity].
Defined.

(** The effects of that schedule: nothing, then one record stored. *)
Example effects_fail_then_load :
  (fun xs => (length xs, length (omap store_of xs), omap report_of xs)) <$>
    @effects_of reference_platform [Fail 1; Load 0] two_picked = Some (2, 1, [])%nat.
Proof. reflexivity. Qed.

End Schedules.
