(* ===== verification/Capacity.v ===== *)
(** * The room an upload takes

    The store counts code units.  The record of a file takes the key,
    the three names, the punctuation, the name and the type of the file
    with their escapes, and four characters for every three bytes: the
    Base64 text needs no escape.  So whether an upload is stored is a
    matter of arithmetic on the lengths, and a platform that gives more
    room stores whatever a platform that gives less stores. *)

From stdpp Require Import gmap.
From S2P Require Import Prelude JsString Base64 Json Platform Blob Storage Router FileReader World Samples View Home System Scenarios Progress Interleaving.

Module Capacity.

Import System Scenarios Progress Interleaving.

Local Open Scope N_scope.

(** The code units the record of a file takes in the store, the key
    included: 12 for ['uploadedFile'], 24 for the three names, 19 for
    the quotes, colons, commas and braces. *)
Definition record_size (f : File) : N :=
  N.of_nat (length (Json.quote_body (name f)) + length (Json.quote_body (type f)) +
            4 * ((length (bytes f) + 2) / 3) + 55).

(** Base64 text is copied into the JSON text as it is. *)
Lemma base64_char_unescaped c : Base64.is_base64_char c -> Json.unescaped c = true.
Proof.
  intros [Hc| ->]; [|done]. revert c Hc. apply Forall_forall. by_compute.
Qed.

Lemma quote_body_encode bs : Json.quote_body (Base64.encode bs) = Base64.encode bs.
Proof.
  apply Json.quote_body_unescaped.
  eapply Forall_impl; [apply Base64.encode_alphabet | apply base64_char_unescaped].
Qed.

(** The size of the record, bounded by the lengths alone: an escape
    takes six code units at most. *)
Lemma record_size_le (f : File) :
  record_size f <=
  N.of_nat (6 * length (name f) + 6 * length (type f) + 4 * ((length (bytes f) + 2) / 3) + 55).
Proof.
  unfold record_size. pose proof (Json.quote_body_length_le (name f)).
  pose proof (Json.quote_body_length_le (type f)). lia.
Qed.

(** The length of the record of a file: 43 code units of names and
    punctuation, the name and the type as [JSON.stringify] quotes
    them, and the Base64 text. *)
Lemma toJSON_payload_length (f : File) :
  length (Home.toJSON (Home.payload f)) =
  (length (Json.quote_body (name f)) + length (Json.quote_body (type f)) +
   4 * ((length (bytes f) + 2) / 3) + 43)%nat.
Proof.
  unfold Home.toJSON, Home.payload. cbn [Home.fileName Home.fileType Home.fileData].
  rewrite Json.stringify_3_length, quote_body_encode, Base64.encode_length.
  change (length (Json.quote_body (js "fileName"))) with 8%nat.
  change (length (Json.quote_body (js "fileType"))) with 8%nat.
  change (length (Json.quote_body (js "fileData"))) with 8%nat. lia.
Qed.

Section with_platform.
Context `{Platform}.
Implicit Types (w : World) (f : File).

(** C9: whether an upload is stored is decided by the room the other
    keys leave: the upload of a file whose type has no comma and whose
    data URL has its header and its data stores the record and
    navigates when the other keys and the record fit in the
    quota, and the store then holds the other keys and this one record,
    whatever the slot held before; otherwise the upload changes neither
    the store nor the history and reports the refusal. *)
Theorem upload_threshold f w :
  comma ∉ type f -> Blob.packaged f ->
  exists w', run [Select 0 f; Load (length (readers w))] w = Some w' /\
    if decide (Storage.usage (delete Home.storageKey (session w)) + record_size f <= quota)
    then Storage.getItem Home.storageKey (session w') = Some (Home.toJSON (Home.payload f)) /\
         Storage.usage (session w') =
           Storage.usage (delete Home.storageKey (session w)) + record_size f /\
         history w' = Router.navigate Home.editorPath (history w) /\
         uncaught w' = uncaught w
    else session w' = session w /\ history w' = history w /\
         uncaught w' = QuotaExceededError :: uncaught w.
Proof.
  intros Hf Hp. rewrite run_upload. eexists. split; [done|].
  pose proof (Storage.usage_insert Home.storageKey (Home.toJSON (Home.stored f)) (session w))
    as Hu.
  pose proof (toJSON_payload_length f) as Hlen. rewrite <- (Home.stored_payload f Hf Hp) in Hlen.
  unfold Storage.cost in Hu. rewrite Hlen in Hu.
  change (length Home.storageKey) with 12%nat in Hu. unfold record_size in *.
  case_decide.
  - rewrite after_load_fits by (cbn [session picked set_readers]; lia).
    cbn [session set_history set_session set_readers picked].
    split_and!; [rewrite (Home.stored_payload f Hf Hp); apply lookup_insert_eq | lia | done..].
  - by rewrite after_load_exceeds by (cbn [session picked set_readers]; lia).
Qed.

End with_platform.

(** C28: the room the payload record of a file takes in the store, which
    is the record the page stores when the type has no comma and the
    data URL has its header and its data: between one and six code
    units for each code unit of the name and of the type, four
    characters for every three bytes, and 55 code units of key, names
    and punctuation. *)
Theorem record_cost_bounds (f : File) :
  Storage.cost Home.storageKey (Home.toJSON (Home.payload f)) = record_size f /\
  N.of_nat (length (name f) + length (type f) + 4 * ((length (bytes f) + 2) / 3) + 55) <=
    record_size f <=
  N.of_nat (6 * length (name f) + 6 * length (type f) + 4 * ((length (bytes f) + 2) / 3) + 55).
Proof.
  unfold Storage.cost. rewrite toJSON_payload_length.
  change (length Home.storageKey) with 12%nat.
  split; [unfold record_size; lia|]. split; [|apply record_size_le]. unfold record_size.
  pose proof (Json.quote_body_length (name f)). pose proof (Json.quote_body_length (type f)). lia.
Qed.

(** ** More room

    Two platforms that write the same data URL for every file, the
    second with at least the room of the first. *)

Section two_platforms.
Context (P Q : Platform).
Hypothesis same_default : @default_type P = @default_type Q.
Hypothesis same_bare : @bare_empty P = @bare_empty Q.
Hypothesis more_room : @quota P <= @quota Q.
Implicit Types (w : World) (t : task) (r : FileReader closure).

Lemma dataURL_same (f : File) : @Blob.dataURL P f = @Blob.dataURL Q f.
Proof.
  unfold Blob.dataURL, Blob.url_header, Blob.media_type. by rewrite same_default, same_bare.
Qed.

Lemma end_reader_same t r : @end_reader P t r = @end_reader Q t r.
Proof.
  destruct t; [done | | done]. unfold end_reader, Reader.complete.
  destruct (readyState r), (blob r); try done. by rewrite dataURL_same.
Qed.

(** A handler that was not refused does the same with more room. *)
Lemma handler_effect_more_room c r w :
  @handler_effect P c r w <> Report QuotaExceededError ->
  @handler_effect Q c r w = @handler_effect P c r w.
Proof.
  unfold handler_effect. destruct c as [[file]|]; [|done].
  destruct (Home.makeFileData _ _); [|done]. repeat case_decide; try done. lia.
Qed.

Lemma exec_more_room t w w1 :
  @exec P t w = Some w1 -> uncaught w1 = uncaught w -> @exec Q t w = Some w1.
Proof.
  destruct (decide (is_end t)) as [Ht|Ht]; [|by destruct t].
  rewrite (@exec_end_eq P), (@exec_end_eq Q) by done.
  destruct (readers w !! end_index t) as [r|]; [|done]. cbn [mbind option_bind].
  rewrite end_reader_same. destruct (@end_reader Q t r) as [r'|]; [|done].
  cbn [mbind option_bind]. intros [= <-] Hu. do 2 f_equal.
  destruct t as [k f|i|i]; [done | apply handler_effect_more_room..];
    cbn [end_effect] in Hu; unfold effect_of in Hu; intros Heq; rewrite Heq in Hu; cbn in Hu;
    by apply (f_equal length) in Hu; simpl in Hu; lia.
Qed.

(** C27: more room never hurts: a run in which nothing was reported
    runs the same, to the same world, on any platform that gives at
    least as much room and writes the same data URLs. *)
Theorem more_room_same_run ts w w' :
  @run P ts w = Some w' -> uncaught w' = uncaught w -> @run Q ts w = Some w'.
Proof.
  intros Hrun. refine (@run_induction P (fun _ => True)
    (fun ts w w' => uncaught w' = uncaught w -> @run Q ts w = Some w') _ _ ts w w' _ Hrun);
    [done | | by apply Forall_true].
  intros t ts0 w0 w1 w2 _ Hex Hrun0 IH Hu.
  pose proof (ext_uncaught _ _ (@exec_extends P _ _ _ Hex)) as H01.
  pose proof (ext_uncaught _ _ (@run_extends P _ _ _ Hrun0)) as H12. rewrite Hu in H12.
  assert (uncaught w1 = uncaught w0) as H1 by (by apply (anti_symm suffix)).
  rewrite (run_cons _ _ _ w1) by (by apply exec_more_room). apply IH. congruence.
Qed.

End two_platforms.

(** ** On concrete files *)

Lemma upload_threshold_witness :
  exists w', @run reference_platform [Select 0 sample_png; Load 0] start = Some w' /\
    if decide (Storage.usage (delete Home.storageKey (session start)) + record_size sample_png
               <= @quota reference_platform)
    then Storage.getItem Home.storageKey (session w') =
           Some (Home.toJSON (Home.payload sample_png)) /\
         Storage.usage (session w') =
           Storage.usage (delete Home.storageKey (session start)) + record_size sample_png /\
         history w' = Router.navigate Home.editorPath (history start) /\
         uncaught w' = uncaught start
    else session w' = session start /\ history w' = history start /\
         uncaught w' = QuotaExceededError :: uncaught start.
Proof. apply (@upload_threshold reference_platform sample_png start); by_compute. Defined.

Lemma more_room_same_run_witness :
  @run reference_platform [Select 0 sample_png; Load 0] start =
  Some (@stored_and_navigated reference_platform 0 sample_png (picked sample_png start)).
Proof.
  apply (more_room_same_run (platform_with_quota 73) reference_platform);
    by_compute || reflexivity.
Defined.

(** The record of [a.png], three bytes, takes 73 code units: a store
    of 72 refuses it. *)
Example record_size_png : record_size sample_png = 73.
Proof. reflexivity. Qed.

Example png_refused_at_72 :
  uncaught <$> @run (platform_with_quota 72) [Select 0 sample_png; Load 0] start =
  Some [QuotaExceededError].
Proof. reflexivity. Qed.

End Capacity.
