(* ===== verification/Contract.v ===== *)
(** * The contract of the page

    What the page promises, without the readers, the event objects and
    the texts: every selection is an upload that is pending until its
    read ends; a read that ends well either puts the record of the file
    in the slot of the store and moves the page to the editor, or, when
    the store refuses the record, reports the refusal and changes
    nothing else; a read that fails changes nothing.  The store takes
    the record when it fits beside the other keys, which the page never
    writes: the machine keeps the room they take, and is deterministic. *)

From stdpp Require Import gmap.
From S2P Require Import Prelude Platform Blob Storage Router Home System.

Inductive status : Type := Pending | Finished | Failed.

#[export] Instance status_eq_dec : EqDecision status.
Proof. solve_decision. Defined.

Module Contract.

Record Abstract : Type := mkAbstract {
  uploads : list (File * status);   (** the selections, in order *)
  slot : option jsstring;           (** what ['uploadedFile'] holds *)
  others : N;                       (** the code units the other keys take *)
  path : History;                   (** where the page is *)
  reports : list exn;               (** what was reported to the user agent *)
}.

Section with_platform.
Context `{Platform}.

(** The record of [f] fits beside the other keys. *)
Definition fits (a : Abstract) (f : File) : Prop :=
  (others a + Storage.cost Home.storageKey (Home.toJSON (Home.stored f)) <= quota)%N.

#[export] Instance fits_dec a f : Decision (fits a f).
Proof. unfold fits. apply _. Defined.

Inductive step (a : Abstract) : task -> Abstract -> Prop :=
| step_pick f :
    step a (Select 0 f)
      {| uploads := uploads a ++ [(f, Pending)]; slot := slot a; others := others a;
         path := path a; reports := reports a |}
| step_stored i f :
    uploads a !! i = Some (f, Pending) -> fits a f ->
    step a (Load i)
      {| uploads := <[i := (f, Finished)]> (uploads a);
         slot := Some (Home.toJSON (Home.stored f));
         others := others a;
         path := Router.navigate Home.editorPath (path a);
         reports := reports a |}
| step_refused i f :
    uploads a !! i = Some (f, Pending) -> ~ fits a f ->
    step a (Load i)
      {| uploads := <[i := (f, Finished)]> (uploads a); slot := slot a; others := others a;
         path := path a; reports := QuotaExceededError :: reports a |}
| step_failed i f :
    uploads a !! i = Some (f, Pending) ->
    step a (Fail i)
      {| uploads := <[i := (f, Failed)]> (uploads a); slot := slot a; others := others a;
         path := path a; reports := reports a |}.

Inductive steps (a : Abstract) : list task -> Abstract -> Prop :=
| steps_nil : steps a [] a
| steps_cons t ts a1 a2 : step a t a1 -> steps a1 ts a2 -> steps a (t :: ts) a2.

(** ** What the contract implies *)

(** A step changes the selection it is about and no other. *)
Lemma step_uploads a t a' :
  step a t a' ->
  (exists f, uploads a' = uploads a ++ [(f, Pending)]) \/
  (exists i f st, uploads a !! i = Some (f, Pending) /\ st <> Pending /\
     uploads a' = <[i := (f, st)]> (uploads a)).
Proof.
  destruct 1 as [f|i f Hi _|i f Hi _|i f Hi];
    [left; by eexists | right; exists i, f, Finished
    | right; exists i, f, Finished | right; exists i, f, Failed]; by split_and!.
Qed.

(** The contract is deterministic: a task has one outcome, and so has
    a run of tasks. *)
Lemma step_determ a t a1 a2 : step a t a1 -> step a t a2 -> a1 = a2.
Proof.
  intros H1 H2.
  inversion H1 as [f|i f Hi Hq|i f Hi Hq|i f Hi];
    inversion H2 as [g|j g Hj Hq'|j g Hj Hq'|j g Hj]; simplify_eq/=; done.
Qed.

Lemma steps_determ a ts a1 a2 : steps a ts a1 -> steps a ts a2 -> a1 = a2.
Proof.
  intros H1. revert a2. induction H1 as [a|a t ts b a1 Hstep _ IH]; intros a2 H2.
  - by inversion H2.
  - inversion H2 as [|t' ts' b' a2' Hstep' Hsteps']; simplify_eq.
    rewrite (step_determ _ _ _ _ Hstep Hstep') in IH. by apply IH.
Qed.

(** A selection keeps its file, and once its read has ended it keeps its
    status: nothing ends twice. *)
Lemma step_final a t a' i f st :
  step a t a' -> uploads a !! i = Some (f, st) ->
  exists st', uploads a' !! i = Some (f, st') /\ (st <> Pending -> st' = st).
Proof.
  intros [[g ->] | (j & g & st' & Hj & _ & ->)]%step_uploads Hi.
  - exists st. split; [|done]. by apply lookup_app_l_Some.
  - destruct (decide (i = j)) as [->|Hne].
    + exists st'. rewrite list_lookup_insert_eq by (by eapply lookup_lt_Some).
      split; [congruence | intros ?; congruence].
    + exists st. by rewrite list_lookup_insert_ne.
Qed.

Lemma steps_final a ts a' i f st :
  steps a ts a' -> uploads a !! i = Some (f, st) ->
  exists st', uploads a' !! i = Some (f, st') /\ (st <> Pending -> st' = st).
Proof.
  intros Hsteps. revert st. induction Hsteps as [|a t ts a1 a2 Hstep _ IH]; intros st Hi.
  - by eauto.
  - destruct (step_final _ _ _ _ _ _ Hstep Hi) as (st1 & Hi1 & Hst1).
    destruct (IH _ Hi1) as (st2 & Hi2 & Hst2). exists st2. split; [done|].
    intros Hst. specialize (Hst1 Hst) as ->. by apply Hst2.
Qed.

End with_platform.

End Contract.
