(* ===== verification/Refinement.v ===== *)
(** * The page implements its contract

    [abs] reads off a world of the tab the state of the contract: the
    selections from the readers, the slot from the store, the path from
    the history.  Every task the page runs is a step of the contract
    ([exec_step]), every run of the contract is a run of the page to
    the same state ([steps_exact]), and what the contract implies holds
    of the page. *)

From stdpp Require Import gmap.
From S2P Require Import Prelude JsString Base64 Json Platform Blob Storage Router FileReader World Samples View Home System Invariants Progress Contract.

Module Refinement.

Import System Contract.

(** Where the read of a reader is. *)
Definition status_of (r : FileReader closure) : status :=
  match readyState r, result_ r with
  | DONE, Some _ => Finished
  | DONE, None => Failed
  | _, _ => Pending
  end.

(** The selection a reader stands for. *)
Definition upload_of (r : FileReader closure) : option (File * status) :=
  f ← blob r; Some (f, status_of r).

Definition abs (w : World) : Abstract :=
  {| uploads := omap upload_of (readers w);
     slot := session w !! Home.storageKey;
     others := Storage.usage (delete Home.storageKey (session w));
     path := history w;
     reports := uncaught w |}.

(** Two worlds the contract cannot tell apart. *)
Definition same_state (w1 w2 : World) : Prop := abs w1 = abs w2.

#[export] Instance same_state_equiv : Equivalence same_state.
Proof. unfold same_state. split; [by intros ? | by intros ?? | intros ???; apply eq_trans]. Qed.

Section with_platform.
Context `{Platform}.
Implicit Types (w : World) (f : File) (r : FileReader closure).

Lemma page_reader_upload r : page_reader r -> is_Some (upload_of r).
Proof. by intros [f|f|f]; eexists. Qed.

Lemma page_readers_uploads rs :
  Forall page_reader rs -> Forall (fun r => is_Some (upload_of r)) rs.
Proof. intros Hall. eapply Forall_impl; [done | apply page_reader_upload]. Qed.

(** A reader of the page is known by its selection. *)
Lemma page_reader_inj r r' :
  page_reader r -> page_reader r' -> upload_of r = upload_of r' -> r = r'.
Proof. intros [f|f|f] [g|g|g]; by intros [= ->]. Qed.

Lemma uploads_lookup w i :
  Forall page_reader (readers w) -> uploads (abs w) !! i = readers w !! i ≫= upload_of.
Proof. intros Hall. by apply omap_lookup_total, page_readers_uploads. Qed.

(** A pending selection is a reader in flight. *)
Lemma pending_loading w i f :
  Forall page_reader (readers w) ->
  uploads (abs w) !! i = Some (f, Pending) <-> readers w !! i = Some (Home.loading f).
Proof.
  intros Hall. rewrite uploads_lookup by done. split; [|by intros ->].
  destruct (readers w !! i) as [r|] eqn:Hi; [|done].
  eapply Forall_lookup_1 in Hall; [|done]. by destruct Hall; intros [= ->].
Qed.

Lemma uploads_settle w i r u :
  Forall page_reader (readers w) -> upload_of r = Some u ->
  omap upload_of (<[i := r]> (readers w)) = <[i := u]> (uploads (abs w)).
Proof. intros Hall Hr. by apply omap_insert_total; [apply page_readers_uploads|]. Qed.

(** ** Every task is a step of the contract *)

Lemma step_select f w :
  step (abs w) (Select 0 f) (abs (set_readers (readers w ++ [Home.loading f]) w)).
Proof.
  unfold abs at 2. cbn [readers session history uncaught set_readers].
  rewrite (omap_snoc _ _ _ (f, Pending)) by done. apply step_pick.
Qed.

Lemma step_load i f w :
  Forall page_reader (readers w) -> readers w !! i = Some (Home.loading f) ->
  step (abs w) (Load i) (abs (after_load i f w)).
Proof.
  intros Hall Hi. apply pending_loading in Hi as Hp; [|done].
  pose proof (Storage.usage_insert Home.storageKey (Home.toJSON (Home.stored f)) (session w))
    as Hu.
  destruct (decide (Storage.usage
    (<[Home.storageKey := Home.toJSON (Home.stored f)]> (session w)) <= quota)%N).
  - rewrite after_load_fits by done. unfold abs at 2.
    cbn [readers session history uncaught set_readers set_session set_history].
    rewrite lookup_insert_eq, delete_insert_eq, (uploads_settle w i _ (f, Finished)) by done.
    apply step_stored; [done | unfold fits; simpl; lia].
  - rewrite after_load_exceeds by lia. unfold abs at 2.
    cbn [readers session history uncaught set_readers add_uncaught].
    rewrite (uploads_settle w i _ (f, Finished)) by done.
    apply step_refused; [done | unfold fits; simpl; lia].
Qed.

Lemma step_fail i f w :
  Forall page_reader (readers w) -> readers w !! i = Some (Home.loading f) ->
  step (abs w) (Fail i) (abs (set_readers (<[i := failed f]> (readers w)) w)).
Proof.
  intros Hall Hi. apply pending_loading in Hi as Hp; [|done]. unfold abs at 2.
  cbn [readers session history uncaught set_readers].
  rewrite (uploads_settle w i _ (f, Failed)) by done. by apply step_failed.
Qed.

Lemma exec_step s h t w w' :
  Invariants.inv s h w -> exec t w = Some w' -> step (abs w) t (abs w').
Proof.
  intros Hinv Hex. pose proof (Invariants.inv_readers _ _ _ Hinv) as Hall.
  destruct t as [k f|i|i].
  - apply exec_Select in Hex as [-> ->]. apply step_select.
  - apply exec_Load_inv in Hex as (f & Hi & ->); [|done]. by apply step_load.
  - apply exec_Fail_inv in Hex as (f & Hi & ->); [|done]. by apply step_fail.
Qed.

Lemma run_steps s h ts w w' :
  Invariants.inv s h w -> run ts w = Some w' -> steps (abs w) ts (abs w').
Proof.
  revert w. induction ts as [|t ts IH]; intros w Hinv Hrun.
  - injection Hrun as <-. constructor.
  - cbn [run] in Hrun. destruct (exec t w) as [w1|] eqn:Hex; [|done].
    econstructor; [by eapply exec_step|]. eapply IH; [|done].
    by eapply Invariants.inv_exec.
Qed.

(** ** Every step of the contract is a task the page runs *)

Lemma step_enabled a' t w :
  Forall page_reader (readers w) -> step (abs w) t a' -> exists w1, exec t w = Some w1.
Proof.
  intros Hall. destruct 1 as [f|i f Hi _|i f Hi _|i f Hi]; [eexists; by apply exec_Select|..];
    (apply pending_loading in Hi; [|done]);
    eauto using exec_Load_loading, exec_Fail_loading.
Qed.

(** The page runs the runs of the contract, to the same states: the
    contract has one outcome for a task, and the page has it. *)
Lemma steps_exact s h ts w a' :
  Invariants.inv s h w -> steps (abs w) ts a' ->
  exists w', run ts w = Some w' /\ abs w' = a'.
Proof.
  revert w. induction ts as [|t ts IH]; intros w Hinv Hsteps.
  { inversion Hsteps; subst. by exists w. }
  inversion Hsteps as [|t' ts' a1 a2 Hstep Hrest]; subst.
  destruct (step_enabled a1 t w) as [w1 Hex]; [by eapply Invariants.inv_readers | done|].
  rewrite (step_determ _ _ _ _ Hstep (exec_step s h t w w1 Hinv Hex)) in Hrest.
  destruct (IH w1) as (w' & Hrun & Habs); [by eapply Invariants.inv_exec | done|].
  exists w'. by rewrite (run_cons _ _ _ w1).
Qed.

(** A reader whose read has ended stands for a selection that is not
    pending. *)
Lemma done_settled r :
  page_reader r -> readyState r = DONE ->
  exists f st, upload_of r = Some (f, st) /\ st <> Pending.
Proof. intros [f|f|f] Hr; [done|..]; by eexists _, _. Qed.

(** C11: the page implements its contract: from any world the page can
    bring about, a run of tasks is, through [abs], a run of the
    contract: every pick adds a pending selection, every read that ends
    settles its selection and either fills the slot and moves to the
    editor or reports the refusal, and nothing else happens. *)
Theorem page_refines_contract s h ts w w' :
  reachable (fresh s h) w -> run ts w = Some w' -> steps (abs w) ts (abs w').
Proof. intros Hw. by apply (run_steps s h), Invariants.inv_reachable. Qed.

(** The page refuses no step of its contract: whenever the contract
    allows a task in the state of a world the page can bring about, the
    page runs that task. *)
Theorem contract_steps_enabled s h t w a' :
  reachable (fresh s h) w -> step (abs w) t a' -> exists w', exec t w = Some w'.
Proof.
  intros Hw%Invariants.inv_reachable%Invariants.inv_readers. by apply step_enabled.
Qed.

(** C24: the page follows every run of its contract, to the state the
    contract gives: from any world the page can bring about, a run of
    tasks the contract allows is a run of the page, and the world it
    ends in has the state the contract ends in: the same selections,
    the same record in the slot, the same path and the same reports. *)
Theorem contract_runs_enabled s h ts w a' :
  reachable (fresh s h) w -> steps (abs w) ts a' ->
  exists w', run ts w = Some w' /\ abs w' = a'.
Proof. intros Hw%Invariants.inv_reachable. by apply (steps_exact s h). Qed.

(** C25: the state of the contract decides what the page does: two
    worlds the page can bring about that the contract cannot tell
    apart, with the same selections, the same record in the slot, the
    same room taken by the other keys, the same path and the same
    reports, run the same tasks, and end in worlds the contract cannot
    tell apart; what the other keys hold, beyond the room they take,
    makes no difference. *)
Theorem page_is_oblivious s1 h1 s2 h2 ts w1 w2 w1' :
  reachable (fresh s1 h1) w1 -> reachable (fresh s2 h2) w2 -> same_state w1 w2 ->
  run ts w1 = Some w1' -> exists w2', run ts w2 = Some w2' /\ same_state w1' w2'.
Proof.
  intros Hw1%Invariants.inv_reachable Hw2%Invariants.inv_reachable Hsame Hrun.
  destruct (steps_exact s2 h2 ts w2 (abs w1')) as (w2' & Hrun2 & Habs); [done | |].
  - rewrite <- Hsame. by apply (run_steps s1 h1).
  - exists w2'. by split.
Qed.

(** C29: a read ends once: a reader whose read has ended, well or not,
    is never touched again, whatever runs afterwards: its handler runs
    at most once for each selection. *)
Theorem outcome_is_final s h ts w w' i r :
  reachable (fresh s h) w -> run ts w = Some w' ->
  readers w !! i = Some r -> readyState r = DONE ->
  readers w' !! i = Some r.
Proof.
  intros Hw Hrun Hi Hdone.
  pose proof (Invariants.inv_reachable _ _ _ Hw) as Hinv.
  pose proof (Invariants.inv_readers _ _ _ Hinv) as Hall.
  pose proof (Invariants.inv_readers _ _ _ (Invariants.inv_reachable _ _ _
    (reachable_trans _ _ _ Hw (run_reachable _ _ _ Hrun)))) as Hall'.
  pose proof (Forall_lookup_1 _ _ _ _ Hall Hi) as Hpage.
  destruct (done_settled r Hpage Hdone) as (f & st & Hr & Hst).
  destruct (steps_final _ _ _ i f st (run_steps _ _ _ _ _ Hinv Hrun)) as (st' & Hi' & Hst').
  { rewrite uploads_lookup, Hi by done. done. }
  rewrite uploads_lookup, (Hst' Hst) in Hi' by done.
  destruct (readers w' !! i) as [r'|] eqn:Hr'; [|done]. f_equal.
  apply page_reader_inj; [exact (Forall_lookup_1 _ _ _ _ Hall' Hr') | done | by rewrite Hr].
Qed.

End with_platform.

(** ** On a concrete run *)

Lemma page_refines_contract_witness :
  @steps reference_platform (abs start) [Select 0 sample_png; Load 0]
    {| uploads := [(sample_png, Finished)];
       slot := Some (Home.toJSON (Home.payload sample_png));
       others := 0;
       path := Router.navigate Home.editorPath root;
       reports := [] |}.
Proof.
  apply (@page_refines_contract reference_platform ∅ root
           [Select 0 sample_png; Load 0] start Invariants.uploaded);
    [constructor | reflexivity].
Defined.

Lemma contract_steps_enabled_witness :
  exists w', @exec reference_platform (Load 0) Progress.two_picked = Some w'.
Proof.
  apply (@contract_steps_enabled reference_platform ∅ root (Load 0) Progress.two_picked
           (abs (@after_load reference_platform 0 sample_png Progress.two_picked))
           Progress.two_picked_reachable).
  apply step_load; [repeat constructor | reflexivity].
Defined.

Lemma contract_runs_enabled_witness :
  exists w', @run reference_platform [Load 1; Fail 0] Progress.two_picked = Some w' /\
    abs w' =
    {| uploads := [(sample_png, Failed); (sample_untyped, Finished)];
       slot := Some (Home.toJSON (Home.payload sample_untyped));
       others := 0;
       path := Router.navigate Home.editorPath root;
       reports := [] |}.
Proof.
  apply (@contract_runs_enabled reference_platform ∅ root [Load 1; Fail 0] Progress.two_picked
           _ Progress.two_picked_reachable).
  eapply steps_cons; [apply (step_stored _ 1 sample_untyped); [done | by_compute]|].
  eapply steps_cons; [by apply (step_failed _ 0 sample_png)|]. apply steps_nil.
Defined.

(** Two tabs whose stores hold another key each, of the same size. *)
Lemma same_state_fresh k1 v1 k2 v2 h :
  k1 <> Home.storageKey -> k2 <> Home.storageKey -> Storage.cost k1 v1 = Storage.cost k2 v2 ->
  same_state (fresh {[k1 := v1]} h) (fresh {[k2 := v2]} h).
Proof.
  intros Hk1 Hk2 Hcost. unfold same_state, abs. cbn [readers session history uncaught fresh].
  rewrite !lookup_singleton_ne, !delete_singleton_ne by done.
  rewrite <- !insert_empty, !Storage.usage_insert_fresh by done. by rewrite Hcost.
Qed.

Lemma page_is_oblivious_witness :
  exists w2', @run reference_platform [Select 0 sample_png; Load 0]
                (fresh {[js "theme" := js "dark"]} root) = Some w2' /\
    same_state
      (@after_load reference_platform 0 sample_png
         (picked sample_png (fresh {[js "lang" := js "vi-VN"]} root))) w2'.
Proof.
  apply (@page_is_oblivious reference_platform {[js "lang" := js "vi-VN"]} root
           {[js "theme" := js "dark"]} root [Select 0 sample_png; Load 0]
           (fresh {[js "lang" := js "vi-VN"]} root) (fresh {[js "theme" := js "dark"]} root));
    [constructor | constructor | by apply same_state_fresh |].
  exact (@run_upload reference_platform sample_png (fresh {[js "lang" := js "vi-VN"]} root)).
Defined.

Lemma outcome_is_final_witness :
  readers (@after_load reference_platform 1 sample_untyped
             (set_readers (readers Invariants.uploaded ++ [Home.loading sample_untyped])
                Invariants.uploaded)) !! 0%nat =
  Some (@loaded reference_platform sample_png).
Proof.
  apply (@outcome_is_final reference_platform ∅ root [Select 0 sample_untyped; Load 1]
           Invariants.uploaded _ 0%nat _ Invariants.uploaded_reachable);
    reflexivity.
Defined.

End Refinement.
